(** * RuntimeEffectContents::Render

    A shallow embedding of [impeller/entity/contents/runtime_effect_contents.cc]
    and the properties of its render path: shader resolution with dirty
    invalidation, pipeline lookup, the fragment-uniform binding loop and the
    submission of the command with its optional clip-restore draw.

    The C++ method mutates objects it reaches through references and shared
    pointers (the shader library, the pipeline library, the runtime stage, the
    render pass).  Here these objects are the fields of one [World] record that
    is threaded through a small state monad; [return] statements in the middle
    of the method and undefined behaviour are two further ways a computation
    can stop. *)

From stdpp Require Import base numbers option list strings countable gmap.

Local Open Scope string_scope.
Local Open Scope N_scope.

(** ** Machine integers *)

(** [size_t] on the 64-bit targets of the engine. *)
Definition size_t_modulus : N := 2 ^ 64.

Definition size_t_wrap (n : N) : N := n mod size_t_modulus.

Definition size_t_mul (a b : N) : N := size_t_wrap (a * b).

(** [i++] on a [size_t]. *)
Definition size_t_incr (i : N) : N := size_t_wrap (i + 1).

(** [sizeof(float)] *)
Definition sizeof_float : N := 4.

(** ** Data model

    The types below whose headers are not among the sources carry the fields
    and the enumerators that [Render] reads, writes or names. *)

(** Modelled from the spec: [ShaderStage], whose header is not among the
    sources; a stage is the vertex or fragment shader role within a
    pipeline. *)
Inductive ShaderStage := kVertex | kFragment.

#[global] Instance ShaderStage_eq_dec : EqDecision ShaderStage.
Proof. solve_decision. Defined.

#[global] Instance ShaderStage_countable : Countable ShaderStage.
Proof.
  refine (inj_countable'
            (λ s, match s with kVertex => false | kFragment => true end)
            (λ b : bool, if b then kFragment else kVertex) _).
  intros []; reflexivity.
Defined.

(** The kinds of [RuntimeUniformDescription::type], as the [switch] of
    [Render] enumerates them. *)
Inductive RuntimeUniformType :=
  | kSampledImage
  | kFloat
  | kBoolean
  | kSignedByte
  | kUnsignedByte
  | kSignedShort
  | kUnsignedShort
  | kSignedInt
  | kUnsignedInt
  | kSignedInt64
  | kUnsignedInt64
  | kHalfFloat
  | kDouble.

#[global] Instance RuntimeUniformType_eq_dec : EqDecision RuntimeUniformType.
Proof. solve_decision. Defined.

(** Modelled from the spec: [RuntimeUniformDescription], whose header is not
    among the sources; a uniform descriptor is [{name, kind, bit_width,
    location}] and has a size in bytes, [entry.sizeInBytes], which is the
    value of [uniform.GetSize()]. *)
Record RuntimeUniformDescription := {
  name : string;
  location : N;
  type : RuntimeUniformType;
  bit_width : N;
  size_in_bytes : N;
}.

Definition GetSize (uniform : RuntimeUniformDescription) : N :=
  size_in_bytes uniform.

(** Opaque handles of backend objects. *)
Definition Texture := N.
Definition Sampler := N.
Definition SamplerDescriptor := N.
Definition VertexBuffer := N.
Definition CodeMapping := list Byte.byte.

(** The object representation of a 4x4 [Matrix]. *)
Definition Matrix := list Byte.byte.

Record TextureInput := {
  sampler_descriptor : SamplerDescriptor;
  texture : Texture;
}.

(** Modelled from the spec: an opaque backend object representing one compiled
    entry point in one stage; [function_handle] tells two compilations of the
    same entry point apart. *)
Record ShaderFunction := {
  function_name : string;
  function_stage : ShaderStage;
  function_handle : N;
}.

#[global] Instance ShaderFunction_eq_dec : EqDecision ShaderFunction.
Proof. solve_decision. Defined.

(** Modelled from the spec: the enumerations of [formats.h], which is not
    among the sources.  [Render] names the comparison "equal", the operation
    "increment-clamp" and the standard colour and stencil formats; every
    other enumerator is told apart by a code. *)
Inductive CompareFunction := kEqual | OtherCompareFunction (code : N).

Inductive StencilOperation :=
  | kIncrementClamp | OtherStencilOperation (code : N).

Definition PrimitiveType := N.

Inductive PixelFormat :=
  | kDefaultColor | kDefaultStencil | OtherPixelFormat (code : N).

#[global] Instance CompareFunction_eq_dec : EqDecision CompareFunction.
Proof. solve_decision. Defined.
#[global] Instance StencilOperation_eq_dec : EqDecision StencilOperation.
Proof. solve_decision. Defined.
#[global] Instance PixelFormat_eq_dec : EqDecision PixelFormat.
Proof. solve_decision. Defined.

(** The vertex layout: the stage inputs a [VertexDescriptor] was given. *)
Record VertexDescriptor := {
  inputs : list string;
}.

#[global] Instance VertexDescriptor_eq_dec : EqDecision VertexDescriptor.
Proof. solve_decision. Defined.

Record ColorAttachmentDescriptor := {
  format : PixelFormat;
  blending_enabled : bool;
}.

#[global] Instance ColorAttachmentDescriptor_eq_dec :
  EqDecision ColorAttachmentDescriptor.
Proof. solve_decision. Defined.

Record StencilAttachmentDescriptor := {
  stencil_compare : CompareFunction;
  depth_stencil_pass : StencilOperation;
}.

#[global] Instance StencilAttachmentDescriptor_eq_dec :
  EqDecision StencilAttachmentDescriptor.
Proof. solve_decision. Defined.

(** Modelled from the spec: a value type combining vertex-stage function,
    fragment-stage function, vertex layout, colour and stencil attachment
    formats, blend and stencil configuration and primitive topology; two
    descriptors with equal fields are the same cache key. *)
Record PipelineDescriptor := {
  label : string;
  vertex_function : option ShaderFunction;
  fragment_function : option ShaderFunction;
  vertex_descriptor : option VertexDescriptor;
  color_attachment_0 : option ColorAttachmentDescriptor;
  stencil_attachment : option StencilAttachmentDescriptor;
  stencil_pixel_format : option PixelFormat;
  desc_primitive_type : option PrimitiveType;
  desc_other_options : option N;
}.

#[global] Instance PipelineDescriptor_eq_dec : EqDecision PipelineDescriptor.
Proof. solve_decision. Defined.

(** Modelled from the spec: an opaque backend object built from a
    descriptor. *)
Record Pipeline := {
  pipeline_descriptor : PipelineDescriptor;
  pipeline_handle : N;
}.

#[global] Instance Pipeline_eq_dec : EqDecision Pipeline.
Proof. solve_decision. Defined.

(** Modelled from the spec: [ContentContextOptions], whose header is not
    among the sources.  [Render] assigns [stencil_compare],
    [stencil_operation] and [primitive_type]; [other_options] stands for
    whatever else is taken from the pass and the entity. *)
Record ContentContextOptions := {
  options_stencil_compare : CompareFunction;
  options_stencil_operation : StencilOperation;
  primitive_type : PrimitiveType;
  other_options : N;
}.

Record GeometryResult := {
  geometry_type : PrimitiveType;
  vertex_buffer : VertexBuffer;
  transform : Matrix;
  prevent_overdraw : bool;
}.

Record Entity := {
  entity_id : N;
  GetStencilDepth : N;
}.

(** A view into the transients buffer of the pass. *)
Record BufferView := {
  view_offset : N;
  view_length : N;
}.

Inductive ShaderMetadata := EmptyMetadata.

Record ShaderUniformSlot := {
  uniform_slot_name : string;
  ext_res_0 : N;
}.

Record SampledImageSlot := {
  image_slot_name : string;
  texture_index : N;
  sampler_index : N;
}.

(** What [Command::BindResource] records. *)
Inductive Binding :=
  | BufferBinding (stage : ShaderStage) (slot : ShaderUniformSlot)
      (metadata : ShaderMetadata) (view : BufferView)
  | SampledImageBinding (stage : ShaderStage) (slot : SampledImageSlot)
      (metadata : ShaderMetadata) (tex : Texture) (sampler : Sampler).

Record Command := {
  cmd_label : string;
  cmd_pipeline : option Pipeline;
  stencil_reference : N;
  cmd_vertices : option VertexBuffer;
  bindings : list Binding;
}.

(** The immutable part of a [RuntimeStage]; its dirty flag is state and lives
    in the [World]. *)
Record RuntimeStage := {
  GetEntrypoint : string;
  GetShaderStage : ShaderStage;
  GetCodeMapping : CodeMapping;
  GetUniforms : list RuntimeUniformDescription;
}.

(** The members of [RuntimeEffectContents] that [Render] reads.  The three
    setters of the class store their argument in the member of the same
    name. *)
Record RuntimeEffectContents := {
  runtime_stage_ : RuntimeStage;
  uniform_data_ : list Byte.byte;
  texture_inputs_ : list TextureInput;
}.

Definition SetRuntimeStage (runtime_stage : RuntimeStage)
    (self : RuntimeEffectContents) : RuntimeEffectContents :=
  {| runtime_stage_ := runtime_stage;
     uniform_data_ := uniform_data_ self;
     texture_inputs_ := texture_inputs_ self |}.

Definition SetUniformData (uniform_data : list Byte.byte)
    (self : RuntimeEffectContents) : RuntimeEffectContents :=
  {| runtime_stage_ := runtime_stage_ self;
     uniform_data_ := uniform_data;
     texture_inputs_ := texture_inputs_ self |}.

Definition SetTextureInputs (texture_inputs : list TextureInput)
    (self : RuntimeEffectContents) : RuntimeEffectContents :=
  {| runtime_stage_ := runtime_stage_ self;
     uniform_data_ := uniform_data_ self;
     texture_inputs_ := texture_inputs |}.

(** ** Collaborators

    Everything [Render] calls but does not define: the generated vertex-shader
    header, the backend shader compiler, the geometry resolver, the pipeline
    backend, the sampler library and the clip-restore drawer.  Their answers
    are parameters of the model. *)

(** Modelled from the spec: what the backend compiler did with a
    registration request.  [registerFunction(entryPoint, stage, codeBlob)]
    reports a boolean; after a failure nothing is cached, and after a success
    the function may not yet be visible to the lookup that follows. *)
Inductive RegisterOutcome :=
  | CompileFailed
  | CompileSucceeded (visible : option ShaderFunction).

Record Collaborators := {
  (** [RuntimeEffectVertexShader] *)
  VS_kEntrypointName : string;
  VS_kAllShaderStageInputs : list string;
  VS_kResourceVertInfo : ShaderUniformSlot;
  (** [DefaultUniformAlignment()], the least alignment the backend accepts
      for a uniform *)
  DefaultUniformAlignment : N;
  (** the backend behind [ShaderLibrary::RegisterFunction] *)
  backend_compile : string → ShaderStage → CodeMapping → RegisterOutcome;
  (** [VertexDescriptor::SetStageInputs]: the value it returns and the
      descriptor it leaves behind *)
  SetStageInputs : VertexDescriptor → list string → bool * VertexDescriptor;
  (** [Geometry::GetPositionBuffer] *)
  resolve_geometry : Entity → GeometryResult;
  OptionsFromPassAndEntity : Entity → ContentContextOptions;
  (** a default-constructed [StencilAttachmentDescriptor] *)
  default_StencilAttachmentDescriptor : StencilAttachmentDescriptor;
  (** the backend behind [PipelineLibrary::GetPipeline]; [None] when it
      rejects the descriptor *)
  backend_build_pipeline : PipelineDescriptor → option N;
  (** [SamplerLibrary::GetSampler] *)
  resolve_sampler : SamplerDescriptor → Sampler;
  (** the value of [ClipRestoreContents().Render(renderer, entity, pass)] *)
  clip_restore_result : Entity → bool;
}.

Definition with_backend_compile
    (compile : string → ShaderStage → CodeMapping → RegisterOutcome)
    (c : Collaborators) : Collaborators :=
  {| VS_kEntrypointName := VS_kEntrypointName c;
     VS_kAllShaderStageInputs := VS_kAllShaderStageInputs c;
     VS_kResourceVertInfo := VS_kResourceVertInfo c;
     DefaultUniformAlignment := DefaultUniformAlignment c;
     backend_compile := compile;
     SetStageInputs := SetStageInputs c;
     resolve_geometry := resolve_geometry c;
     OptionsFromPassAndEntity := OptionsFromPassAndEntity c;
     default_StencilAttachmentDescriptor :=
       default_StencilAttachmentDescriptor c;
     backend_build_pipeline := backend_build_pipeline c;
     resolve_sampler := resolve_sampler c;
     clip_restore_result := clip_restore_result c |}.

(** The same collaborators, except that [SetStageInputs] returns [ok]. *)
Definition with_SetStageInputs_result (ok : bool) (c : Collaborators)
    : Collaborators :=
  {| VS_kEntrypointName := VS_kEntrypointName c;
     VS_kAllShaderStageInputs := VS_kAllShaderStageInputs c;
     VS_kResourceVertInfo := VS_kResourceVertInfo c;
     DefaultUniformAlignment := DefaultUniformAlignment c;
     backend_compile := backend_compile c;
     SetStageInputs := λ v ins, (ok, (SetStageInputs c v ins).2);
     resolve_geometry := resolve_geometry c;
     OptionsFromPassAndEntity := OptionsFromPassAndEntity c;
     default_StencilAttachmentDescriptor :=
       default_StencilAttachmentDescriptor c;
     backend_build_pipeline := backend_build_pipeline c;
     resolve_sampler := resolve_sampler c;
     clip_restore_result := clip_restore_result c |}.

(** ** State *)

(** The calls [Render] makes on its collaborators, in the order it makes
    them. *)
Inductive Event :=
  | EvGetFunction (entrypoint : string) (stage : ShaderStage)
  | EvRemovePipelinesWithEntryPoint (function : ShaderFunction)
  | EvUnregisterFunction (entrypoint : string) (stage : ShaderStage)
  | EvRegisterFunction (entrypoint : string) (stage : ShaderStage)
  | EvSetClean
  | EvGetPositionBuffer (entity : Entity)
  | EvGetPipeline (desc : PipelineDescriptor)
  | EvBuildPipeline (desc : PipelineDescriptor)
  | EvEmplace (length alignment : N)
  | EvGetSampler (descriptor : SamplerDescriptor)
  | EvAddCommand (cmd : Command)
  | EvClipRestoreRender (entity : Entity).

Record World := {
  (** the functions registered in the [ShaderLibrary] of the context *)
  functions : gmap (string * ShaderStage) ShaderFunction;
  (** the cache of the [PipelineLibrary] of the context *)
  pipelines : list (PipelineDescriptor * Pipeline);
  (** [runtime_stage_->IsDirty()] *)
  dirty : bool;
  (** the bytes of [pass.GetTransientsBuffer()] *)
  transients : list Byte.byte;
  (** the commands added to the pass *)
  commands : list Command;
  (** the messages written with [VALIDATION_LOG] *)
  log : list string;
  trace : list Event;
}.

Definition set_functions (fs : gmap (string * ShaderStage) ShaderFunction)
    (w : World) : World :=
  {| functions := fs; pipelines := pipelines w; dirty := dirty w;
     transients := transients w; commands := commands w; log := log w;
     trace := trace w |}.

Definition set_pipelines (ps : list (PipelineDescriptor * Pipeline))
    (w : World) : World :=
  {| functions := functions w; pipelines := ps; dirty := dirty w;
     transients := transients w; commands := commands w; log := log w;
     trace := trace w |}.

Definition set_dirty (d : bool) (w : World) : World :=
  {| functions := functions w; pipelines := pipelines w; dirty := d;
     transients := transients w; commands := commands w; log := log w;
     trace := trace w |}.

Definition set_transients (bs : list Byte.byte) (w : World) : World :=
  {| functions := functions w; pipelines := pipelines w; dirty := dirty w;
     transients := bs; commands := commands w; log := log w;
     trace := trace w |}.

Definition set_commands (cs : list Command) (w : World) : World :=
  {| functions := functions w; pipelines := pipelines w; dirty := dirty w;
     transients := transients w; commands := cs; log := log w;
     trace := trace w |}.

Definition set_log (l : list string) (w : World) : World :=
  {| functions := functions w; pipelines := pipelines w; dirty := dirty w;
     transients := transients w; commands := commands w; log := l;
     trace := trace w |}.

Definition set_trace (t : list Event) (w : World) : World :=
  {| functions := functions w; pipelines := pipelines w; dirty := dirty w;
     transients := transients w; commands := commands w; log := log w;
     trace := t |}.

(** ** The monad of a method body *)

(** Behaviour the C++ standard leaves undefined. *)
Inductive Fault :=
  | TextureInputOutOfRange (index : N)
  | UniformDataOutOfRange (offset length : N).

(** A statement either falls through to the next one with a value, or leaves
    the method through [return b], or has undefined behaviour. *)
Inductive Step (A : Type) :=
  | Next (a : A) (w : World)
  | Return (b : bool) (w : World)
  | Undefined (f : Fault) (w : World).
Arguments Next {A} a w.
Arguments Return {A} b w.
Arguments Undefined {A} f w.

Definition M (A : Type) : Type := World → Step A.

Definition ret {A} (a : A) : M A := λ w, Next a w.

Definition bind {A B} (m : M A) (f : A → M B) : M B := λ w,
  match m w with
  | Next a w' => f a w'
  | Return b w' => Return b w'
  | Undefined k w' => Undefined k w'
  end.

Declare Scope M_scope.
Delimit Scope M_scope with M.
Bind Scope M_scope with M.
Notation "x ← y ; z" := (bind y (λ x, z))
  (at level 20, y at level 100, z at level 200, only parsing) : M_scope.
Notation "' x ← y ; z" := (bind y (λ x, z))
  (at level 20, x pattern, y at level 100, z at level 200, only parsing)
  : M_scope.
Notation "x ;; z" := (bind x (λ _, z))
  (at level 100, z at level 200, only parsing, right associativity) : M_scope.
Local Open Scope M_scope.

(** [return b;] *)
Definition return_ {A} (b : bool) : M A := λ w, Return b w.

Definition undefined {A} (k : Fault) : M A := λ w, Undefined k w.

Definition gets {A} (f : World → A) : M A := λ w, Next (f w) w.

Definition modify (f : World → World) : M unit := λ w, Next tt (f w).

Definition emit (e : Event) : M unit :=
  modify (λ w, set_trace (trace w ++ [e]) w).

(** [VALIDATION_LOG << msg;] *)
Definition VALIDATION_LOG (msg : string) : M unit :=
  modify (λ w, set_log (log w ++ [msg]) w).

(** How a call of a method ends. *)
Inductive Completion :=
  | Returned (b : bool) (w : World)
  | Crashed (f : Fault) (w : World).

Definition call (body : M bool) (w : World) : Completion :=
  match body w with
  | Next b w' | Return b w' => Returned b w'
  | Undefined k w' => Crashed k w'
  end.

Definition final_world (r : Completion) : World :=
  match r with Returned _ w | Crashed _ w => w end.

Definition result (r : Completion) : option bool :=
  match r with Returned b _ => Some b | Crashed _ _ => None end.

(** ** The shader library *)

(** Modelled from the spec: [getFunction(entryPoint, stage)] of the shader
    library, which owns the compiled functions keyed by entry point and
    stage. *)
Definition GetFunction (entrypoint : string) (stage : ShaderStage)
    : M (option ShaderFunction) :=
  emit (EvGetFunction entrypoint stage);;
  gets (λ w, functions w !! (entrypoint, stage)).

(** Modelled from the spec: [unregisterFunction(entryPoint, stage)]. *)
Definition UnregisterFunction (entrypoint : string) (stage : ShaderStage)
    : M unit :=
  emit (EvUnregisterFunction entrypoint stage);;
  modify (λ w, set_functions (delete (entrypoint, stage) (functions w)) w).

(** Modelled from the spec: [registerFunction(entryPoint, stage, codeBlob)]
    followed by [future.get()].  The caller blocks until the backend has
    answered, so the model is synchronous and yields the boolean the
    completion callback was given. *)
Definition RegisterFunction (c : Collaborators) (entrypoint : string)
    (stage : ShaderStage) (code : CodeMapping) : M bool :=
  emit (EvRegisterFunction entrypoint stage);;
  match backend_compile c entrypoint stage code with
  | CompileFailed => ret false
  | CompileSucceeded None => ret true
  | CompileSucceeded (Some f) =>
      modify (λ w, set_functions (<[(entrypoint, stage) := f]> (functions w)) w);;
      ret true
  end.

(** ** The pipeline library *)

Definition references_function (function : ShaderFunction)
    (desc : PipelineDescriptor) : Prop :=
  vertex_function desc = Some function ∨ fragment_function desc = Some function.

#[global] Instance references_function_dec function desc :
  Decision (references_function function desc).
Proof. unfold references_function. apply _. Defined.

(** Modelled from the spec: [evictReferencing] removes every cached entry
    whose descriptor's vertex or fragment function equals the given
    function. *)
Definition RemovePipelinesWithEntryPoint (function : ShaderFunction) : M unit :=
  emit (EvRemovePipelinesWithEntryPoint function);;
  modify (λ w, set_pipelines
    (filter (λ entry, ¬ references_function function entry.1) (pipelines w)) w).

Fixpoint find_pipeline (desc : PipelineDescriptor)
    (cache : list (PipelineDescriptor * Pipeline)) : option Pipeline :=
  match cache with
  | [] => None
  | (key, pipeline) :: rest =>
      if decide (key = desc) then Some pipeline else find_pipeline desc rest
  end.

(** Modelled from the spec: [GetPipeline(desc).Get()].  [getOrBuild] is a
    cache-or-construct operation keyed by structural equality of the
    descriptor; a descriptor the backend rejects yields no pipeline. *)
Definition GetPipeline (c : Collaborators) (desc : PipelineDescriptor)
    : M (option Pipeline) :=
  emit (EvGetPipeline desc);;
  cached ← gets (λ w, find_pipeline desc (pipelines w));
  match cached with
  | Some pipeline => ret (Some pipeline)
  | None =>
      emit (EvBuildPipeline desc);;
      match backend_build_pipeline c desc with
      | None => ret None
      | Some handle =>
          let pipeline :=
            {| pipeline_descriptor := desc; pipeline_handle := handle |} in
          modify (λ w, set_pipelines (pipelines w ++ [(desc, pipeline)]) w);;
          ret (Some pipeline)
      end
  end.

(** ** The render pass *)

(** The bytes skipped so that the next allocation starts at a multiple of
    [alignment]. *)
Definition padding_for (len alignment : N) : N :=
  if decide (alignment = 0) then 0
  else (alignment - len mod alignment) mod alignment.

(** Modelled from the spec:
    [pass.GetTransientsBuffer().Emplace(data, length, alignment)].  The bytes
    are allocated into the per-frame transient buffer at [alignment], and the
    binding holds a view (offset and length) into that arena. *)
Definition Emplace (data : list Byte.byte) (alignment : N) : M BufferView :=
  emit (EvEmplace (N.of_nat (length data)) alignment);;
  len ← gets (λ w, N.of_nat (length (transients w)));
  let pad := padding_for len alignment in
  modify (λ w, set_transients
    (transients w ++ replicate (N.to_nat pad) Byte.x00 ++ data) w);;
  ret {| view_offset := len + pad; view_length := N.of_nat (length data) |}.

(** Modelled from the spec:
    [pass.GetTransientsBuffer().EmplaceUniform(frame_info)], that is
    [emplaceUniform(bytes) -> BufferView], at the alignment the backend asks
    of a uniform. *)
Definition EmplaceUniform (c : Collaborators) (data : list Byte.byte)
    : M BufferView :=
  Emplace data (DefaultUniformAlignment c).

(** Modelled from the spec: [addCommand(Command)] of the render pass. *)
Definition AddCommand (cmd : Command) : M unit :=
  emit (EvAddCommand cmd);;
  modify (λ w, set_commands (commands w ++ [cmd]) w).

(** Reading [length] bytes at [data + offset]; outside of the vector the read
    is undefined. *)
Definition read_bytes (data : list Byte.byte) (offset len : N)
    : option (list Byte.byte) :=
  if decide (offset + len ≤ N.of_nat (length data))
  then Some (take (N.to_nat len) (drop (N.to_nat offset) data))
  else None.

(** ** Pipeline descriptors and commands *)

(** Modelled from the spec: a [PipelineDescriptor] in which nothing has been
    set, and the setters [Render] calls on it. *)
Definition default_PipelineDescriptor : PipelineDescriptor :=
  {| label := ""; vertex_function := None; fragment_function := None;
     vertex_descriptor := None; color_attachment_0 := None;
     stencil_attachment := None; stencil_pixel_format := None;
     desc_primitive_type := None; desc_other_options := None |}.

Definition SetLabel (l : string) (d : PipelineDescriptor) : PipelineDescriptor :=
  {| label := l; vertex_function := vertex_function d;
     fragment_function := fragment_function d;
     vertex_descriptor := vertex_descriptor d;
     color_attachment_0 := color_attachment_0 d;
     stencil_attachment := stencil_attachment d;
     stencil_pixel_format := stencil_pixel_format d;
     desc_primitive_type := desc_primitive_type d;
     desc_other_options := desc_other_options d |}.

(** Modelled from the spec: the descriptor has one vertex-stage and one
    fragment-stage function.  A null function is ignored; otherwise the
    function becomes the entry point of its own stage. *)
Definition AddStageEntrypoint (function : option ShaderFunction)
    (d : PipelineDescriptor) : PipelineDescriptor :=
  match function with
  | None => d
  | Some f =>
      {| label := label d;
         vertex_function :=
           match function_stage f with
           | kVertex => Some f
           | kFragment => vertex_function d
           end;
         fragment_function :=
           match function_stage f with
           | kVertex => fragment_function d
           | kFragment => Some f
           end;
         vertex_descriptor := vertex_descriptor d;
         color_attachment_0 := color_attachment_0 d;
         stencil_attachment := stencil_attachment d;
         stencil_pixel_format := stencil_pixel_format d;
         desc_primitive_type := desc_primitive_type d;
         desc_other_options := desc_other_options d |}
  end.

Definition SetVertexDescriptor (v : VertexDescriptor) (d : PipelineDescriptor)
    : PipelineDescriptor :=
  {| label := label d; vertex_function := vertex_function d;
     fragment_function := fragment_function d;
     vertex_descriptor := Some v;
     color_attachment_0 := color_attachment_0 d;
     stencil_attachment := stencil_attachment d;
     stencil_pixel_format := stencil_pixel_format d;
     desc_primitive_type := desc_primitive_type d;
     desc_other_options := desc_other_options d |}.

(** [SetColorAttachmentDescriptor(0u, color)] *)
Definition SetColorAttachmentDescriptor (color : ColorAttachmentDescriptor)
    (d : PipelineDescriptor) : PipelineDescriptor :=
  {| label := label d; vertex_function := vertex_function d;
     fragment_function := fragment_function d;
     vertex_descriptor := vertex_descriptor d;
     color_attachment_0 := Some color;
     stencil_attachment := stencil_attachment d;
     stencil_pixel_format := stencil_pixel_format d;
     desc_primitive_type := desc_primitive_type d;
     desc_other_options := desc_other_options d |}.

Definition SetStencilAttachmentDescriptors (s : StencilAttachmentDescriptor)
    (d : PipelineDescriptor) : PipelineDescriptor :=
  {| label := label d; vertex_function := vertex_function d;
     fragment_function := fragment_function d;
     vertex_descriptor := vertex_descriptor d;
     color_attachment_0 := color_attachment_0 d;
     stencil_attachment := Some s;
     stencil_pixel_format := stencil_pixel_format d;
     desc_primitive_type := desc_primitive_type d;
     desc_other_options := desc_other_options d |}.

Definition SetStencilPixelFormat (f : PixelFormat) (d : PipelineDescriptor)
    : PipelineDescriptor :=
  {| label := label d; vertex_function := vertex_function d;
     fragment_function := fragment_function d;
     vertex_descriptor := vertex_descriptor d;
     color_attachment_0 := color_attachment_0 d;
     stencil_attachment := stencil_attachment d;
     stencil_pixel_format := Some f;
     desc_primitive_type := desc_primitive_type d;
     desc_other_options := desc_other_options d |}.

(** Modelled from the spec: [options.ApplyToPipelineDescriptor(desc)].  The
    options carry the blend and stencil configuration and the primitive
    topology of the descriptor; the stencil configuration is written into the
    stencil attachment the descriptor has. *)
Definition ApplyToPipelineDescriptor (options : ContentContextOptions)
    (d : PipelineDescriptor) : PipelineDescriptor :=
  {| label := label d; vertex_function := vertex_function d;
     fragment_function := fragment_function d;
     vertex_descriptor := vertex_descriptor d;
     color_attachment_0 := color_attachment_0 d;
     stencil_attachment :=
       match stencil_attachment d with
       | None => None
       | Some _ =>
           Some {| stencil_compare := options_stencil_compare options;
                   depth_stencil_pass := options_stencil_operation options |}
       end;
     stencil_pixel_format := stencil_pixel_format d;
     desc_primitive_type := Some (primitive_type options);
     desc_other_options := Some (other_options options) |}.

Definition set_stencil (compare : CompareFunction) (op : StencilOperation)
    (options : ContentContextOptions) : ContentContextOptions :=
  {| options_stencil_compare := compare; options_stencil_operation := op;
     primitive_type := primitive_type options;
     other_options := other_options options |}.

Definition set_primitive_type (t : PrimitiveType)
    (options : ContentContextOptions) : ContentContextOptions :=
  {| options_stencil_compare := options_stencil_compare options;
     options_stencil_operation := options_stencil_operation options;
     primitive_type := t;
     other_options := other_options options |}.

(** Modelled from the spec: a [Command] is a pipeline reference, a stencil
    reference value, a vertex-buffer binding and a set of resource bindings;
    [BindVertices] and [BindResource] record what they are given. *)
Definition default_Command : Command :=
  {| cmd_label := ""; cmd_pipeline := None; stencil_reference := 0;
     cmd_vertices := None; bindings := [] |}.

Definition BindVertices (vertices : VertexBuffer) (cmd : Command) : Command :=
  {| cmd_label := cmd_label cmd; cmd_pipeline := cmd_pipeline cmd;
     stencil_reference := stencil_reference cmd;
     cmd_vertices := Some vertices; bindings := bindings cmd |}.

Definition BindResource (b : Binding) (cmd : Command) : Command :=
  {| cmd_label := cmd_label cmd; cmd_pipeline := cmd_pipeline cmd;
     stencil_reference := stencil_reference cmd;
     cmd_vertices := cmd_vertices cmd; bindings := bindings cmd ++ [b] |}.

(** [VS::BindVertInfo(cmd, view)] *)
Definition BindVertInfo (c : Collaborators) (view : BufferView) (cmd : Command)
    : Command :=
  BindResource (BufferBinding kVertex (VS_kResourceVertInfo c) EmptyMetadata view)
               cmd.

(** ** Render *)

Definition unsupported_message (uniform : RuntimeUniformDescription) : string :=
  "Unsupported uniform type for " +:+ name uniform +:+ ".".

Definition build_failed_message (stage : RuntimeStage) : string :=
  "Failed to build runtime effect (entry point: " +:+ GetEntrypoint stage
  +:+ ")".

Definition fetch_failed_message (stage : RuntimeStage) : string :=
  "Failed to fetch runtime effect function immediately after "
  +:+ "registering it (entry point: " +:+ GetEntrypoint stage +:+ ")".

Definition stage_inputs_message : string :=
  "Failed to set stage inputs for runtime effect pipeline.".

Definition pipeline_failed_message : string :=
  "Failed to get or create runtime effect pipeline.".

(** The [switch] on [uniform.type], lines 161 to 207: one entry of the
    layout is bound to [cmd].  It yields the values of [sampler_index] and
    [cmd] after the statement. *)
Definition bind_uniform (c : Collaborators) (self : RuntimeEffectContents)
    (uniform : RuntimeUniformDescription)
    (buffer_index sampler_index : N) (cmd : Command) : M (N * Command) :=
  let metadata := EmptyMetadata in
  match type uniform with
  | kSampledImage =>
      match texture_inputs_ self !! N.to_nat sampler_index with
      | None => undefined (TextureInputOutOfRange sampler_index)
      | Some input =>
          emit (EvGetSampler (sampler_descriptor input));;
          let sampler := resolve_sampler c (sampler_descriptor input) in
          let image_slot :=
            {| image_slot_name := name uniform;
               texture_index := sampler_index;
               sampler_index := sampler_index |} in
          let cmd :=
            BindResource (SampledImageBinding kFragment image_slot
                            metadata (texture input) sampler) cmd in
          ret (size_t_incr sampler_index, cmd)
      end
  | kFloat =>
      let alignment :=
        N.max (bit_width uniform / 8) (DefaultUniformAlignment c) in
      let offset := size_t_mul (location uniform) sizeof_float in
      match read_bytes (uniform_data_ self) offset (GetSize uniform) with
      | None => undefined (UniformDataOutOfRange offset (GetSize uniform))
      | Some data =>
          buffer_view ← Emplace data alignment;
          let uniform_slot :=
            {| uniform_slot_name := name uniform;
               ext_res_0 := buffer_index |} in
          ret (sampler_index,
               BindResource (BufferBinding kFragment uniform_slot
                               metadata buffer_view) cmd)
      end
  | kBoolean
  | kSignedByte
  | kUnsignedByte
  | kSignedShort
  | kUnsignedShort
  | kSignedInt
  | kUnsignedInt
  | kSignedInt64
  | kUnsignedInt64
  | kHalfFloat
  | kDouble =>
      VALIDATION_LOG (unsupported_message uniform);;
      return_ true
  end.

(** The loop over [runtime_stage_->GetUniforms()], lines 156 to 210.  The
    local variables [buffer_index], [sampler_index] and [cmd] are threaded
    through the iterations; the loop yields their values when it has run to
    its end. *)
Fixpoint bind_uniforms (c : Collaborators) (self : RuntimeEffectContents)
    (uniforms : list RuntimeUniformDescription)
    (buffer_index sampler_index : N) (cmd : Command) : M (N * N * Command) :=
  match uniforms with
  | [] => ret (buffer_index, sampler_index, cmd)
  | uniform :: rest =>
      '(sampler_index, cmd) ←
        bind_uniform c self uniform buffer_index sampler_index cmd;
      bind_uniforms c self rest (size_t_incr buffer_index) sampler_index cmd
  end.

(** The block of [if (!function)], lines 63 to 92: the function is
    registered, fetched again and the stage is marked clean. *)
Definition register_shader (c : Collaborators) (self : RuntimeEffectContents)
    : M unit :=
  let runtime_stage := runtime_stage_ self in
  registered ← RegisterFunction c (GetEntrypoint runtime_stage)
                 (GetShaderStage runtime_stage)
                 (GetCodeMapping runtime_stage);
  (if negb registered then
     VALIDATION_LOG (build_failed_message runtime_stage);;
     return_ false
   else ret tt);;
  function ← GetFunction (GetEntrypoint runtime_stage) kFragment;
  match function with
  | None =>
      VALIDATION_LOG (fetch_failed_message runtime_stage);;
      return_ false
  | Some _ => ret tt
  end;;
  emit EvSetClean;;
  modify (set_dirty false).

(** "Get or register shader", lines 52 to 92. *)
Definition get_or_register_shader (c : Collaborators)
    (self : RuntimeEffectContents) : M unit :=
  let runtime_stage := runtime_stage_ self in
  function ← GetFunction (GetEntrypoint runtime_stage) kFragment;
  is_dirty ← gets dirty;
  function ←
    match function with
    | Some f =>
        if is_dirty then
          RemovePipelinesWithEntryPoint f;;
          UnregisterFunction (GetEntrypoint runtime_stage) kFragment;;
          ret None
        else ret (Some f)
    | None => ret None
    end;
  match function with
  | Some _ => ret tt
  | None => register_shader c self
  end.

(** The descriptor assembled in lines 105 to 128 from the two entry points
    found in the library, the vertex descriptor and the geometry. *)
Definition runtime_stage_descriptor (c : Collaborators) (entity : Entity)
    (geometry_result : GeometryResult)
    (vertex_entrypoint fragment_entrypoint : option ShaderFunction)
    (vertex_descriptor : VertexDescriptor) : PipelineDescriptor :=
  let desc := default_PipelineDescriptor in
  let desc := SetLabel "Runtime Stage" desc in
  let desc := AddStageEntrypoint vertex_entrypoint desc in
  let desc := AddStageEntrypoint fragment_entrypoint desc in
  let desc := SetVertexDescriptor vertex_descriptor desc in
  let desc :=
    SetColorAttachmentDescriptor
      {| format := kDefaultColor; blending_enabled := true |} desc in
  let desc :=
    SetStencilAttachmentDescriptors (default_StencilAttachmentDescriptor c)
      desc in
  let desc := SetStencilPixelFormat kDefaultStencil desc in
  let options := OptionsFromPassAndEntity c entity in
  let options :=
    if prevent_overdraw geometry_result
    then set_stencil kEqual kIncrementClamp options
    else options in
  let options := set_primitive_type (geometry_type geometry_result) options in
  ApplyToPipelineDescriptor options desc.

(** "Resolve geometry" and "Get or create runtime stage pipeline", lines 98
    to 134. *)
Definition get_or_create_pipeline (c : Collaborators)
    (self : RuntimeEffectContents) (entity : Entity)
    : M (GeometryResult * Pipeline) :=
  let runtime_stage := runtime_stage_ self in
  emit (EvGetPositionBuffer entity);;
  let geometry_result := resolve_geometry c entity in
  vertex_entrypoint ← GetFunction (VS_kEntrypointName c) kVertex;
  fragment_entrypoint ← GetFunction (GetEntrypoint runtime_stage) kFragment;
  let '(inputs_set, vertex_descriptor) :=
    SetStageInputs c {| inputs := [] |} (VS_kAllShaderStageInputs c) in
  (if negb inputs_set then VALIDATION_LOG stage_inputs_message else ret tt);;
  let desc :=
    runtime_stage_descriptor c entity geometry_result vertex_entrypoint
      fragment_entrypoint vertex_descriptor in
  pipeline ← GetPipeline c desc;
  match pipeline with
  | None => VALIDATION_LOG pipeline_failed_message;; return_ false
  | Some pipeline => ret (geometry_result, pipeline)
  end.

(** The command as it stands when the binding loop starts, lines 136 to
    148. *)
Definition start_command (c : Collaborators) (entity : Entity)
    (geometry_result : GeometryResult) (pipeline : Pipeline) : M Command :=
  let cmd := default_Command in
  let cmd :=
    {| cmd_label := "RuntimeEffectContents"; cmd_pipeline := Some pipeline;
       stencil_reference := GetStencilDepth entity;
       cmd_vertices := cmd_vertices cmd; bindings := bindings cmd |} in
  let cmd := BindVertices (vertex_buffer geometry_result) cmd in
  let frame_info := transform geometry_result in
  frame_info_view ← EmplaceUniform c frame_info;
  ret (BindVertInfo c frame_info_view cmd).

(** Lines 212 to 217. *)
Definition submit (c : Collaborators) (entity : Entity)
    (geometry_result : GeometryResult) (cmd : Command) : M bool :=
  AddCommand cmd;;
  if prevent_overdraw geometry_result then
    emit (EvClipRestoreRender entity);;
    ret (clip_restore_result c entity)
  else ret true.

(** The body of [RuntimeEffectContents::Render], in the order of its
    sections. *)
Definition Render_body (c : Collaborators) (self : RuntimeEffectContents)
    (entity : Entity) : M bool :=
  get_or_register_shader c self;;
  '(geometry_result, pipeline) ← get_or_create_pipeline c self entity;
  cmd ← start_command c entity geometry_result pipeline;
  '(_, _, cmd) ←
    bind_uniforms c self (GetUniforms (runtime_stage_ self)) 0 0 cmd;
  submit c entity geometry_result cmd.

Definition Render (c : Collaborators) (self : RuntimeEffectContents)
    (entity : Entity) (w : World) : Completion :=
  call (Render_body c self entity) w.

(** The collaborator calls made between two states of the world. *)
Definition events_since (w w' : World) : list Event :=
  drop (length (trace w)) (trace w').

(** The events of one call of [Render]. *)
Definition Render_events (c : Collaborators) (self : RuntimeEffectContents)
    (entity : Entity) (w : World) : list Event :=
  events_since w (final_world (Render c self entity w)).

(** The messages one call of [Render] logs. *)
Definition Render_log (c : Collaborators) (self : RuntimeEffectContents)
    (entity : Entity) (w : World) : list string :=
  drop (length (log w)) (log (final_world (Render c self entity w))).

(** ** A running example *)

Module Example.

Definition collaborators : Collaborators :=
  {| VS_kEntrypointName := "runtime_effect_vertex_main";
     VS_kAllShaderStageInputs := ["position"];
     VS_kResourceVertInfo :=
       {| uniform_slot_name := "VertInfo"; ext_res_0 := 0 |};
     DefaultUniformAlignment := 16;
     backend_compile := λ entrypoint stage _,
       CompileSucceeded
         (Some {| function_name := entrypoint; function_stage := stage;
                  function_handle := 2 |});
     SetStageInputs := λ v ins, (true, {| inputs := inputs v ++ ins |});
     resolve_geometry := λ _,
       {| geometry_type := 1; vertex_buffer := 5;
          transform := [Byte.x01; Byte.x02; Byte.x03; Byte.x04];
          prevent_overdraw := true |};
     OptionsFromPassAndEntity := λ _,
       {| options_stencil_compare := OtherCompareFunction 0;
          options_stencil_operation := OtherStencilOperation 0;
          primitive_type := 0; other_options := 4 |};
     default_StencilAttachmentDescriptor :=
       {| stencil_compare := OtherCompareFunction 1;
          depth_stencil_pass := OtherStencilOperation 1 |};
     backend_build_pipeline := λ _, Some 9;
     resolve_sampler := λ d, d + 100;
     clip_restore_result := λ _, false |}.

Definition uniform (n : string) (loc : N) (t : RuntimeUniformType)
    : RuntimeUniformDescription :=
  {| name := n; location := loc; type := t; bit_width := 32;
     size_in_bytes := 4 |}.

Definition stage (uniforms : list RuntimeUniformDescription) : RuntimeStage :=
  {| GetEntrypoint := "effect"; GetShaderStage := kFragment;
     GetCodeMapping := []; GetUniforms := uniforms |}.

Definition contents (uniforms : list RuntimeUniformDescription)
    : RuntimeEffectContents :=
  {| runtime_stage_ := stage uniforms;
     uniform_data_ :=
       [Byte.x10; Byte.x11; Byte.x12; Byte.x13;
        Byte.x20; Byte.x21; Byte.x22; Byte.x23];
     texture_inputs_ :=
       [ {| sampler_descriptor := 1; texture := 11 |};
         {| sampler_descriptor := 2; texture := 12 |} ] |}.

Definition entity : Entity := {| entity_id := 0; GetStencilDepth := 3 |}.

Definition vertex_main : ShaderFunction :=
  {| function_name := "runtime_effect_vertex_main";
     function_stage := kVertex; function_handle := 0 |}.

(** The function registered for the effect before a hot reload. *)
Definition old_effect : ShaderFunction :=
  {| function_name := "effect"; function_stage := kFragment;
     function_handle := 1 |}.

(** A context that knows the vertex shader only. *)
Definition fresh : World :=
  {| functions := {[ ("runtime_effect_vertex_main", kVertex) := vertex_main ]};
     pipelines := []; dirty := false; transients := []; commands := [];
     log := []; trace := [] |}.

(** A context in which the effect is registered and clean. *)
Definition clean : World :=
  set_functions (<[("effect", kFragment) := old_effect]> (functions fresh))
    fresh.

(** A pipeline built for the effect before the hot reload. *)
Definition stale_pipeline : Pipeline :=
  {| pipeline_descriptor :=
       AddStageEntrypoint (Some old_effect) default_PipelineDescriptor;
     pipeline_handle := 8 |}.

(** A context after a hot reload: the effect is registered, a pipeline of it
    is cached, and the stage is dirty. *)
Definition reloaded : World :=
  set_dirty true
    (set_pipelines [(pipeline_descriptor stale_pipeline, stale_pipeline)]
       clean).

(** A backend whose compiler fails. *)
Definition failing : Collaborators :=
  with_backend_compile (λ _ _ _, CompileFailed) collaborators.

(** A backend whose compiler reports success before the function is
    visible. *)
Definition racing : Collaborators :=
  with_backend_compile (λ _ _ _, CompileSucceeded None) collaborators.

Definition float_bool_float : list RuntimeUniformDescription :=
  [uniform "a" 0 kFloat; uniform "b" 0 kBoolean; uniform "c" 1 kFloat].

Definition float_image_float_image : list RuntimeUniformDescription :=
  [uniform "a" 0 kFloat; uniform "s" 0 kSampledImage; uniform "c" 1 kFloat;
   uniform "t" 0 kSampledImage].

(** The worlds a call with the layout [float_bool_float] reaches from
    [clean] when the shader is resolved and when the pipeline is obtained, and
    that pipeline. *)
Definition shader_resolved : World :=
  Eval vm_compute in
    match get_or_register_shader collaborators (contents float_bool_float)
            clean with
    | Next _ w | Return _ w | Undefined _ w => w
    end.

Definition pipeline_obtained : World :=
  Eval vm_compute in
    match get_or_create_pipeline collaborators (contents float_bool_float)
            entity shader_resolved with
    | Next _ w | Return _ w | Undefined _ w => w
    end.

Definition obtained_pipeline : Pipeline :=
  Eval vm_compute in
    match get_or_create_pipeline collaborators (contents float_bool_float)
            entity shader_resolved with
    | Next (_, p) _ => p
    | _ => stale_pipeline
    end.

(** The command a call with the layout [float_image_float_image] adds to
    the pass of [clean]. *)
Definition submitted_command : Command :=
  Eval vm_compute in
    match commands (final_world (Render collaborators
                                   (contents float_image_float_image) entity
                                   clean)) with
    | cmd :: _ => cmd
    | [] => default_Command
    end.

(** An effect whose runtime stage is a vertex stage. *)
Definition vertex_effect : RuntimeEffectContents :=
  {| runtime_stage_ :=
       {| GetEntrypoint := "effect"; GetShaderStage := kVertex;
          GetCodeMapping := []; GetUniforms := [] |};
     uniform_data_ := []; texture_inputs_ := [] |}.


(** The world a call with the layout [float_image_float_image] leaves
    behind when it starts in [clean]. *)
Definition rendered_once : World :=
  Eval vm_compute in
    final_world (Render collaborators (contents float_image_float_image)
                   entity clean).

End Example.

(** * Properties *)

Local Close Scope string_scope.

(** ** Vocabulary

    The notions the properties below are stated with: how a body ends, what
    it appends to the trace and to the log, what it leaves alone, and names
    for the stretches of [Render] between two of its sections. *)

Definition step_world {A} (s : Step A) : World :=
  match s with Next _ w | Return _ w | Undefined _ w => w end.

(** A world [w'] reached from [w] by statements that leave the libraries, the
    stage and the pass commands alone. *)
Record quiet (w w' : World) : Prop := {
  quiet_functions : functions w' = functions w;
  quiet_pipelines : pipelines w' = pipelines w;
  quiet_dirty : dirty w' = dirty w;
  quiet_commands : commands w' = commands w;
}.

(** The events a body appends to the trace all satisfy [P]. *)
Definition emits {A} (P : Event → Prop) (m : M A) : Prop :=
  ∀ w, ∃ evs, trace (step_world (m w)) = trace w ++ evs ∧ Forall P evs.

(** A body leaves the component [f] of the world as it found it. *)
Definition preserves {A B} (f : World → A) (m : M B) : Prop :=
  ∀ w, f (step_world (m w)) = f w.

(** Every undefined behaviour a body can run into satisfies [P]. *)
Definition faults {A} (P : Fault → Prop) (m : M A) : Prop :=
  ∀ w k w', m w = Undefined k w' → P k.

(** Bodies only ever add to the log. *)
Definition logs {A} (m : M A) : Prop :=
  ∀ w, ∃ msgs, log (step_world (m w)) = log w ++ msgs.

(** Two worlds that differ in the log only. *)
Definition erase_log (w : World) : World := set_log [] w.

Definition same_up_to_log {A} (s1 s2 : Step A) : Prop :=
  match s1, s2 with
  | Next a1 w1, Next a2 w2 => a1 = a2 ∧ erase_log w1 = erase_log w2
  | Return b1 w1, Return b2 w2 => b1 = b2 ∧ erase_log w1 = erase_log w2
  | Undefined k1 w1, Undefined k2 w2 => k1 = k2 ∧ erase_log w1 = erase_log w2
  | _, _ => False
  end.

(** Two bodies that behave alike in worlds that differ in the log only. *)
Definition log_blind {A} (m1 m2 : M A) : Prop :=
  ∀ w1 w2, erase_log w1 = erase_log w2 → same_up_to_log (m1 w1) (m2 w2).

Definition is_kind (k : RuntimeUniformType) (u : RuntimeUniformDescription)
    : Prop := type u = k.

#[global] Instance is_kind_dec k u : Decision (is_kind k u).
Proof. unfold is_kind. apply _. Defined.

(** The number of entries of kind [k] in a layout. *)
Definition count_kind (k : RuntimeUniformType)
    (us : list RuntimeUniformDescription) : nat :=
  length (filter (is_kind k) us).

(** The kinds the loop binds. *)
Definition supported (u : RuntimeUniformDescription) : Prop :=
  type u = kSampledImage ∨ type u = kFloat.

#[global] Instance supported_dec u : Decision (supported u).
Proof. unfold supported. apply _. Defined.

(** The bytes of a float entry lie inside the uniform data the caller
    supplied. *)
Definition float_data_in_range (self : RuntimeEffectContents)
    (u : RuntimeUniformDescription) : Prop :=
  type u = kFloat →
  location u * sizeof_float + GetSize u ≤ N.of_nat (length (uniform_data_ self)).

#[global] Instance float_data_in_range_dec self u :
  Decision (float_data_in_range self u).
Proof. unfold float_data_in_range. apply _. Defined.

(** The events of the binding loop. *)
Definition binding_event (e : Event) : Prop :=
  match e with
  | EvGetSampler _ | EvEmplace _ _ => True
  | _ => False
  end.

(** The calls of lines 52 to 60. *)
Definition invalidation_event (e : Event) : Prop :=
  match e with
  | EvGetFunction _ _ | EvRemovePipelinesWithEntryPoint _
  | EvUnregisterFunction _ _ => True
  | _ => False
  end.

(** The events before the command is submitted: no command is added, no
    clip is restored, and a pipeline is looked up or built only for a
    descriptor of the runtime stage with the geometry of this entity. *)
Definition setup_event (c : Collaborators) (entity : Entity) (e : Event)
    : Prop :=
  match e with
  | EvAddCommand _ | EvClipRestoreRender _ => False
  | EvGetPipeline d | EvBuildPipeline d =>
      ∃ v f vd,
        d = runtime_stage_descriptor c entity (resolve_geometry c entity) v f vd
  | _ => True
  end.

(** How the loop binds entry [i] of the layout [us] when it was entered
    with the counters [bi] and [si]: a sampled image at the texture and
    sampler index [si] plus the number of sampled images before it, a
    float at the buffer slot [bi + i]. *)
Definition bound_at (c : Collaborators) (self : RuntimeEffectContents)
    (bi si : N) (us : list RuntimeUniformDescription)
    (i : nat) (u : RuntimeUniformDescription) (b : Binding) : Prop :=
  match type u with
  | kSampledImage =>
      let k := si + N.of_nat (count_kind kSampledImage (take i us)) in
      ∃ input,
        texture_inputs_ self !! N.to_nat k = Some input
        ∧ b = SampledImageBinding kFragment
                {| image_slot_name := name u; texture_index := k;
                   sampler_index := k |}
                EmptyMetadata (texture input)
                (resolve_sampler c (sampler_descriptor input))
  | kFloat =>
      ∃ view,
        b = BufferBinding kFragment
              {| uniform_slot_name := name u;
                 ext_res_0 := bi + N.of_nat i |}
              EmptyMetadata view
  | _ => False
  end.

(** [cmd] after the [BindResource] calls that record [bs]. *)
Definition bind_all (bs : list Binding) (cmd : Command) : Command :=
  {| cmd_label := cmd_label cmd; cmd_pipeline := cmd_pipeline cmd;
     stencil_reference := stencil_reference cmd;
     cmd_vertices := cmd_vertices cmd; bindings := bindings cmd ++ bs |}.

(** The world after lines 56 to 60: the pipelines of [f] are gone from the
    cache and the function is gone from the library. *)
Definition invalidated (self : RuntimeEffectContents) (f : ShaderFunction)
    (w : World) : World :=
  let entrypoint := GetEntrypoint (runtime_stage_ self) in
  {| functions := delete (entrypoint, kFragment) (functions w);
     pipelines :=
       filter (λ entry, ¬ references_function f entry.1) (pipelines w);
     dirty := dirty w; transients := transients w; commands := commands w;
     log := log w;
     trace := trace w ++ [EvGetFunction entrypoint kFragment;
                          EvRemovePipelinesWithEntryPoint f;
                          EvUnregisterFunction entrypoint kFragment] |}.

(** The library after a registration that made [visible] visible. *)
Definition registry_after (self : RuntimeEffectContents)
    (visible : option ShaderFunction)
    (fs : gmap (string * ShaderStage) ShaderFunction)
    : gmap (string * ShaderStage) ShaderFunction :=
  match visible with
  | Some g =>
      <[(GetEntrypoint (runtime_stage_ self),
         GetShaderStage (runtime_stage_ self)) := g]> fs
  | None => fs
  end.

(** The descriptor [get_or_create_pipeline] looks up in the world [w]. *)
Definition lookup_descriptor (c : Collaborators)
    (self : RuntimeEffectContents) (entity : Entity) (w : World)
    : PipelineDescriptor :=
  runtime_stage_descriptor c entity (resolve_geometry c entity)
    (functions w !! (VS_kEntrypointName c, kVertex))
    (functions w !! (GetEntrypoint (runtime_stage_ self), kFragment))
    (SetStageInputs c {| inputs := [] |} (VS_kAllShaderStageInputs c)).2.

(** The world in which it looks the descriptor up. *)
Definition before_lookup (c : Collaborators) (self : RuntimeEffectContents)
    (entity : Entity) (w : World) : World :=
  {| functions := functions w; pipelines := pipelines w; dirty := dirty w;
     transients := transients w; commands := commands w;
     log := log w
            ++ (if (SetStageInputs c {| inputs := [] |}
                      (VS_kAllShaderStageInputs c)).1
                then [] else [stage_inputs_message]);
     trace := trace w ++ [EvGetPositionBuffer entity;
                          EvGetFunction (VS_kEntrypointName c) kVertex;
                          EvGetFunction (GetEntrypoint (runtime_stage_ self))
                            kFragment;
                          EvGetPipeline (lookup_descriptor c self entity w)] |}.

(** What [Render] does with the pipeline it obtained, lines 136 to 217. *)
Definition assemble_and_submit (c : Collaborators)
    (self : RuntimeEffectContents) (entity : Entity)
    (geometry_result : GeometryResult) (pipeline : Pipeline) : M bool :=
  cmd ← start_command c entity geometry_result pipeline;
  '(_, _, cmd) ←
    bind_uniforms c self (GetUniforms (runtime_stage_ self)) 0 0 cmd;
  submit c entity geometry_result cmd.

(** Everything [Render] does after the shader is resolved, lines 94 to
    217. *)
Definition draw (c : Collaborators) (self : RuntimeEffectContents)
    (entity : Entity) : M bool :=
  '(geometry_result, pipeline) ← get_or_create_pipeline c self entity;
  assemble_and_submit c self entity geometry_result pipeline.

(** Everything it does before the command is submitted, lines 43 to
    210. *)
Definition Render_setup (c : Collaborators) (self : RuntimeEffectContents)
    (entity : Entity) : M (GeometryResult * Command) :=
  get_or_register_shader c self;;
  '(geometry_result, pipeline) ← get_or_create_pipeline c self entity;
  cmd ← start_command c entity geometry_result pipeline;
  '(_, _, cmd) ←
    bind_uniforms c self (GetUniforms (runtime_stage_ self)) 0 0 cmd;
  ret (geometry_result, cmd).

(** What [submit] leaves behind. *)
Definition submitted (c : Collaborators) (entity : Entity) (cmd : Command)
    (w : World) : World :=
  {| functions := functions w; pipelines := pipelines w; dirty := dirty w;
     transients := transients w; commands := commands w ++ [cmd];
     log := log w;
     trace := trace w ++ EvAddCommand cmd
                :: (if prevent_overdraw (resolve_geometry c entity)
                    then [EvClipRestoreRender entity] else []) |}.

(** The calls of lines 56 to 91 that change the shader library, the
    pipeline cache or the stage. *)
Definition registration_event (e : Event) : Prop :=
  match e with
  | EvRemovePipelinesWithEntryPoint _ | EvUnregisterFunction _ _
  | EvRegisterFunction _ _ | EvSetClean => True
  | _ => False
  end.

(** The calls of lines 56 to 58. *)
Definition eviction_event (e : Event) : Prop :=
  match e with
  | EvRemovePipelinesWithEntryPoint _ | EvUnregisterFunction _ _ => True
  | _ => False
  end.

(** The calls of lines 136 to 217. *)
Definition assembly_event (e : Event) : Prop :=
  match e with
  | EvEmplace _ _ | EvGetSampler _ | EvAddCommand _
  | EvClipRestoreRender _ => True
  | _ => False
  end.

(** The block of [if (!function)] followed by the rest of the method, lines
    63 to 217. *)
Definition register_and_draw (c : Collaborators)
    (self : RuntimeEffectContents) (entity : Entity) : M bool :=
  register_shader c self;;
  draw c self entity.

(** The diagnostics that go with [return false]. *)
Definition failure_message (self : RuntimeEffectContents) (msg : string)
    : Prop :=
  msg = build_failed_message (runtime_stage_ self)
  ∨ msg = fetch_failed_message (runtime_stage_ self)
  ∨ msg = pipeline_failed_message.

(** ** Reasoning about method bodies *)

Lemma bind_Next {A B} (m : M A) (f : A → M B) w a w1 :
  m w = Next a w1 → bind m f w = f a w1.
Proof. unfold bind. now intros ->. Qed.

Lemma bind_Return {A B} (m : M A) (f : A → M B) w b w1 :
  m w = Return b w1 → bind m f w = Return b w1.
Proof. unfold bind. now intros ->. Qed.

Lemma bind_Undefined {A B} (m : M A) (f : A → M B) w k w1 :
  m w = Undefined k w1 → bind m f w = Undefined k w1.
Proof. unfold bind. now intros ->. Qed.

Lemma bind_assoc {A B C} (m : M A) (f : A → M B) (g : B → M C) w :
  bind (bind m f) g w = bind m (λ a, bind (f a) g) w.
Proof. unfold bind. now destruct (m w). Qed.

(** Unfolds the primitive statements of a body applied to a world. *)
Ltac run :=
  cbv beta iota zeta delta
    [bind ret return_ undefined gets modify emit VALIDATION_LOG
     GetFunction UnregisterFunction RemovePipelinesWithEntryPoint AddCommand
     set_functions set_pipelines set_dirty set_transients set_commands
     set_log set_trace call] in *;
  cbn [functions pipelines dirty transients commands log trace step_world
       final_world result negb fst snd] in *.

Lemma quiet_refl w : quiet w w.
Proof. now split. Qed.

Lemma quiet_trans w1 w2 w3 : quiet w1 w2 → quiet w2 w3 → quiet w1 w3.
Proof. intros [] []. split; congruence. Qed.

(** *** Events and frames

    [emits], [preserves] and [faults] compose along [bind], so that they can
    be established statement by statement. *)

Lemma faults_never {A} (P : Fault → Prop) (m : M A) :
  (∀ w k w', m w ≠ Undefined k w') → faults P m.
Proof. intros H w k w' Hm. now apply H in Hm. Qed.

Lemma faults_bind {A B} (P : Fault → Prop) (m : M A) (f : A → M B) :
  faults P m → (∀ a, faults P (f a)) → faults P (bind m f).
Proof.
  intros Hm Hf w k w'. unfold bind.
  destruct (m w) as [a w1| |] eqn:E; [apply Hf|discriminate|].
  intros [= <- <-]. eapply Hm, E.
Qed.

Lemma emits_silent {X} (P : Event → Prop) (m : M X) :
  (∀ w, trace (step_world (m w)) = trace w) → emits P m.
Proof.
  intros H w. exists []. rewrite app_nil_r. split; [apply H|constructor].
Qed.

Section Frames.
Context {A B : Type} (P : Event → Prop).

Lemma emits_ret (a : A) : emits P (ret a).
Proof. now apply emits_silent. Qed.

Lemma emits_return b : emits P (return_ b : M A).
Proof. now apply emits_silent. Qed.

Lemma emits_undefined k : emits P (undefined k : M A).
Proof. now apply emits_silent. Qed.

Lemma emits_gets (f : World → A) : emits P (gets f).
Proof. now apply emits_silent. Qed.

Lemma emits_modify (f : World → World) :
  (∀ w, trace (f w) = trace w) → emits P (modify f).
Proof. intros H. apply emits_silent. exact H. Qed.

Lemma emits_log msg : emits P (VALIDATION_LOG msg).
Proof. now apply emits_silent. Qed.

Lemma emits_emit e : P e → emits P (emit e).
Proof. intros He w. exists [e]. split; [reflexivity|]. now constructor. Qed.

Lemma emits_bind (m : M A) (f : A → M B) :
  emits P m → (∀ a, emits P (f a)) → emits P (bind m f).
Proof.
  intros Hm Hf w. destruct (Hm w) as (evs1 & Ht1 & HP1). unfold bind.
  destruct (m w) as [a w1| |]; [|now exists evs1..].
  destruct (Hf a w1) as (evs2 & Ht2 & HP2). cbn [step_world] in Ht1.
  exists (evs1 ++ evs2). rewrite Ht2, Ht1, app_assoc.
  split; [reflexivity|]. now apply Forall_app.
Qed.

Lemma emits_weaken (Q : Event → Prop) (m : M A) :
  (∀ e, Q e → P e) → emits Q m → emits P m.
Proof.
  intros HQ Hm w. destruct (Hm w) as (evs & Ht & Hev).
  exists evs. split; [exact Ht|]. eapply Forall_impl; eauto.
Qed.

Context {C : Type} (f : World → C).

Lemma preserves_ret (a : A) : preserves f (ret a).
Proof. now intros w. Qed.

Lemma preserves_return b : preserves f (return_ b : M A).
Proof. now intros w. Qed.

Lemma preserves_undefined k : preserves f (undefined k : M A).
Proof. now intros w. Qed.

Lemma preserves_gets (g : World → A) : preserves f (gets g).
Proof. now intros w. Qed.

Lemma preserves_modify (g : World → World) :
  (∀ w, f (g w) = f w) → preserves f (modify g).
Proof. intros H w. apply H. Qed.

Lemma preserves_bind (m : M A) (k : A → M B) :
  preserves f m → (∀ a, preserves f (k a)) → preserves f (bind m k).
Proof.
  intros Hm Hk w. specialize (Hm w). unfold bind.
  destruct (m w) as [a w1| |]; [|exact Hm..].
  cbn [step_world] in Hm. now rewrite Hk.
Qed.

End Frames.

(** Proves [emits] and [preserves] goals by following the structure of the
    body; what remains are the conditions on single events and updates. *)
Ltac frame :=
  repeat match goal with
  | |- emits _ (bind _ _) => apply emits_bind; [|intros ?; cbv beta]
  | |- emits _ (ret _) => apply emits_ret
  | |- emits _ (return_ _) => apply emits_return
  | |- emits _ (undefined _) => apply emits_undefined
  | |- emits _ (gets _) => apply emits_gets
  | |- emits _ (VALIDATION_LOG _) => apply emits_log
  | |- emits _ (modify _) => apply emits_modify; intros ?
  | |- emits _ (emit _) => apply emits_emit
  | |- emits _ (match ?x with _ => _ end) => destruct x
  | |- preserves _ (bind _ _) => apply preserves_bind; [|intros ?; cbv beta]
  | |- preserves _ (ret _) => apply preserves_ret
  | |- preserves _ (return_ _) => apply preserves_return
  | |- preserves _ (undefined _) => apply preserves_undefined
  | |- preserves _ (gets _) => apply preserves_gets
  | |- preserves _ (VALIDATION_LOG _) => apply preserves_modify; intros ?
  | |- preserves _ (emit _) => apply preserves_modify; intros ?
  | |- preserves _ (modify _) => apply preserves_modify; intros ?
  | |- preserves _ (match ?x with _ => _ end) => destruct x
  | |- faults _ (bind _ _) => apply faults_bind; [|intros ?; cbv beta]
  | |- faults _ (ret _) => now apply faults_never
  | |- faults _ (return_ _) => now apply faults_never
  | |- faults _ (gets _) => now apply faults_never
  | |- faults _ (VALIDATION_LOG _) => now apply faults_never
  | |- faults _ (emit _) => now apply faults_never
  | |- faults _ (modify _) => now apply faults_never
  | |- faults _ (match ?x with _ => _ end) => destruct x
  end.

(** ** The binding loop *)

Lemma count_kind_cons k u us :
  count_kind k (u :: us)
  = if decide (is_kind k u) then S (count_kind k us) else count_kind k us.
Proof.
  unfold count_kind. rewrite filter_cons. now destruct (decide (is_kind k u)).
Qed.

Lemma count_kind_app k us1 us2 :
  count_kind k (us1 ++ us2) = (count_kind k us1 + count_kind k us2)%nat.
Proof. unfold count_kind. now rewrite filter_app, length_app. Qed.

Lemma count_supported us :
  Forall supported us →
  length us = (count_kind kSampledImage us + count_kind kFloat us)%nat.
Proof.
  induction 1 as [|u us Hu _ IH]; [reflexivity|].
  rewrite !count_kind_cons. cbn [length]. rewrite IH.
  unfold is_kind.
  destruct Hu as [Hu | Hu]; repeat case_decide; try congruence; lia.
Qed.

Lemma size_t_wrap_small n : n < size_t_modulus → size_t_wrap n = n.
Proof. apply N.mod_small. Qed.

Lemma size_t_incr_le i : size_t_incr i ≤ i + 1.
Proof.
  unfold size_t_incr, size_t_wrap. apply N.Div0.mod_le.
Qed.

Section Loop.
Context (c : Collaborators) (self : RuntimeEffectContents).

(** The loop over a concatenation runs the loop over the first part and
    carries the local variables over to the loop over the second. *)
Lemma bind_uniforms_app us1 us2 : ∀ bi si cmd w,
  bind_uniforms c self (us1 ++ us2) bi si cmd w
  = bind (bind_uniforms c self us1 bi si cmd)
      (λ '(bi', si', cmd'), bind_uniforms c self us2 bi' si' cmd') w.
Proof.
  induction us1 as [|u us1 IH]; intros bi si cmd w; [reflexivity|].
  cbn [app bind_uniforms]. rewrite bind_assoc. unfold bind.
  destruct (bind_uniform c self u bi si cmd w)
    as [[si' cmd'] w1| |]; [|reflexivity..].
  rewrite IH. reflexivity.
Qed.

(** One entry only logs, allocates transients or resolves a sampler. *)
Lemma bind_uniform_quiet u bi si cmd w :
  let w' := step_world (bind_uniform c self u bi si cmd w) in
  quiet w w'
  ∧ (∃ evs, trace w' = trace w ++ evs ∧ Forall binding_event evs)
  ∧ (∃ msgs, log w' = log w ++ msgs).
Proof.
  cbn zeta. unfold bind_uniform, Emplace.
  destruct (type u);
    [destruct (texture_inputs_ self !! N.to_nat si)
    |destruct (read_bytes _ _ _)|..];
    run; (split; [now split|]); split;
    solve [ exists []; rewrite app_nil_r; repeat constructor
          | eexists [_]; repeat constructor ].
Qed.

(** Nor does the whole loop do anything else. *)
Lemma bind_uniforms_quiet us : ∀ bi si cmd w,
  let w' := step_world (bind_uniforms c self us bi si cmd w) in
  quiet w w'
  ∧ (∃ evs, trace w' = trace w ++ evs ∧ Forall binding_event evs)
  ∧ (∃ msgs, log w' = log w ++ msgs).
Proof.
  induction us as [|u us IH]; intros bi si cmd w; cbn zeta.
  - run. split; [apply quiet_refl|]. split; exists [];
      rewrite app_nil_r; repeat constructor.
  - cbn [bind_uniforms]. unfold bind.
    pose proof (bind_uniform_quiet u bi si cmd w) as Hu. cbn zeta in Hu.
    destruct (bind_uniform c self u bi si cmd w)
      as [[si' cmd'] w1| |]; [|exact Hu..].
    cbn [step_world] in Hu.
    destruct Hu as (Hq1 & (evs1 & Ht1 & Hev1) & (msgs1 & Hl1)).
    destruct (IH (size_t_incr bi) si' cmd' w1)
      as (Hq2 & (evs2 & Ht2 & Hev2) & (msgs2 & Hl2)).
    split; [eapply quiet_trans; eassumption|]. split.
    + exists (evs1 ++ evs2). rewrite Ht2, Ht1, app_assoc.
      split; [reflexivity|]. now apply Forall_app.
    + exists (msgs1 ++ msgs2). now rewrite Hl2, Hl1, app_assoc.
Qed.

(** *** Entries the loop binds *)

Lemma read_bytes_in_range u :
  float_data_in_range self u → type u = kFloat →
  N.of_nat (length (uniform_data_ self)) < size_t_modulus →
  read_bytes (uniform_data_ self) (size_t_mul (location u) sizeof_float)
    (GetSize u)
  = Some (take (N.to_nat (GetSize u))
            (drop (N.to_nat (location u * sizeof_float)) (uniform_data_ self))).
Proof.
  intros Hin Hty Hlen. specialize (Hin Hty).
  unfold read_bytes, size_t_mul. rewrite size_t_wrap_small by lia.
  now rewrite decide_True by exact Hin.
Qed.

Lemma bind_uniform_sampled_image u bi si cmd w input :
  type u = kSampledImage →
  texture_inputs_ self !! N.to_nat si = Some input →
  bind_uniform c self u bi si cmd w
  = Next (size_t_incr si,
          BindResource
            (SampledImageBinding kFragment
               {| image_slot_name := name u; texture_index := si;
                  sampler_index := si |}
               EmptyMetadata (texture input)
               (resolve_sampler c (sampler_descriptor input))) cmd)
         (set_trace (trace w ++ [EvGetSampler (sampler_descriptor input)]) w).
Proof. unfold bind_uniform. now intros -> ->. Qed.

Lemma bind_uniform_float u bi si cmd w data :
  type u = kFloat →
  read_bytes (uniform_data_ self) (size_t_mul (location u) sizeof_float)
    (GetSize u) = Some data →
  bind_uniform c self u bi si cmd w
  = bind (Emplace data
            (N.max (bit_width u / 8) (DefaultUniformAlignment c)))
      (λ buffer_view,
         ret (si, BindResource
                    (BufferBinding kFragment
                       {| uniform_slot_name := name u; ext_res_0 := bi |}
                       EmptyMetadata buffer_view) cmd)) w.
Proof. unfold bind_uniform. now intros -> ->. Qed.

Lemma bind_uniform_unsupported u bi si cmd w :
  ¬ supported u →
  bind_uniform c self u bi si cmd w
  = Return true (set_log (log w ++ [unsupported_message u]) w).
Proof.
  unfold supported, bind_uniform. intros Hu.
  destruct (type u); try reflexivity; exfalso; auto.
Qed.

Lemma bind_all_cons b bs cmd :
  bind_all bs (BindResource b cmd) = bind_all (b :: bs) cmd.
Proof.
  unfold bind_all, BindResource. cbn. now rewrite <- app_assoc.
Qed.

Lemma bind_all_nil cmd : bind_all [] cmd = cmd.
Proof. destruct cmd. unfold bind_all. cbn. now rewrite app_nil_r. Qed.

(** A layout of sampled images and floats whose inputs are all there is
    bound to its end: the loop falls through with both counters advanced and
    one binding per entry. *)
Lemma bind_uniforms_supported us : ∀ bi si cmd w,
  Forall supported us →
  Forall (float_data_in_range self) us →
  (N.to_nat si + count_kind kSampledImage us
     ≤ length (texture_inputs_ self))%nat →
  bi + N.of_nat (length us) < size_t_modulus →
  si + N.of_nat (count_kind kSampledImage us) < size_t_modulus →
  N.of_nat (length (uniform_data_ self)) < size_t_modulus →
  ∃ new w',
    bind_uniforms c self us bi si cmd w
    = Next (bi + N.of_nat (length us),
            si + N.of_nat (count_kind kSampledImage us),
            bind_all new cmd) w'
    ∧ length new = length us
    ∧ ∀ i u, us !! i = Some u →
             ∃ b, new !! i = Some b ∧ bound_at c self bi si us i u b.
Proof.
  induction us as [|u us IH]; intros bi si cmd w Hsup Hdata Htex Hbi Hsi Hlen.
  - exists [], w. cbn. rewrite bind_all_nil, !N.add_0_r.
    split; [reflexivity|]. split; [reflexivity|]. intros i u Hi.
    now rewrite lookup_nil in Hi.
  - apply Forall_cons in Hsup as [Hu Hsup].
    apply Forall_cons in Hdata as [Hud Hdata].
    rewrite count_kind_cons in Htex, Hsi. cbn [length] in Hbi.
    cbn [bind_uniforms]. unfold is_kind in *.
    destruct Hu as [Hty | Hty].
    + (* a sampled image *)
      rewrite decide_True in Htex, Hsi by exact Hty.
      destruct (lookup_lt_is_Some_2 (texture_inputs_ self) (N.to_nat si))
        as [input Hin]; [lia|].
      rewrite (bind_Next _ _ _ _ _
                 (bind_uniform_sampled_image u bi si cmd w input Hty Hin)).
      assert (Hincr : size_t_incr si = si + 1).
      { unfold size_t_incr. apply size_t_wrap_small. lia. }
      rewrite Hincr.
      edestruct (IH (size_t_incr bi) (si + 1)) as (new & w' & Hrun & Hn & Hb);
        [exact Hsup|exact Hdata|lia| |lia|exact Hlen|].
      { pose proof (size_t_incr_le bi). lia. }
      rewrite Hrun, bind_all_cons.
      assert (Hbincr : size_t_incr bi = bi + 1).
      { unfold size_t_incr. apply size_t_wrap_small. lia. }
      rewrite Hbincr in *.
      eexists (_ :: new), w'. split; [|split].
      * rewrite count_kind_cons. unfold is_kind.
        rewrite decide_True by exact Hty. cbn [length].
        replace (bi + N.of_nat (S (length us)))
          with (bi + 1 + N.of_nat (length us)) by lia.
        replace (si + N.of_nat (S (count_kind kSampledImage us)))
          with (si + 1 + N.of_nat (count_kind kSampledImage us)) by lia.
        reflexivity.
      * cbn. now rewrite Hn.
      * intros [|i] v Hv; cbn in Hv.
        -- injection Hv as <-. eexists; split; [reflexivity|].
           unfold bound_at. rewrite Hty. cbn zeta.
           cbn [take count_kind filter list_filter length]. 
           rewrite N.add_0_r. eauto.
        -- destruct (Hb i v Hv) as (b & Hl & Hbound).
           exists b. split; [exact Hl|].
           unfold bound_at in *. destruct (type v); try exact Hbound.
           ++ cbn [take]. rewrite count_kind_cons. unfold is_kind.
              rewrite decide_True by exact Hty.
              replace (si + N.of_nat (S (count_kind kSampledImage (take i us))))
                with (si + 1 + N.of_nat (count_kind kSampledImage (take i us)))
                by lia.
              exact Hbound.
           ++ destruct Hbound as [view ->]. exists view.
              do 2 f_equal. lia.
    + (* a float *)
      rewrite decide_False in Htex, Hsi by congruence.
      erewrite bind_Next; cycle 1.
      { erewrite bind_uniform_float;
          [|exact Hty|now apply read_bytes_in_range].
        unfold Emplace. run. reflexivity. }
      assert (Hbincr : size_t_incr bi = bi + 1).
      { unfold size_t_incr. apply size_t_wrap_small. lia. }
      rewrite Hbincr.
      edestruct (IH (bi + 1) si) as (new & w' & Hrun & Hn & Hb);
        [exact Hsup|exact Hdata|exact Htex|lia|exact Hsi|exact Hlen|].
      rewrite Hrun, bind_all_cons.
      eexists (_ :: new), w'. split; [|split].
      * rewrite count_kind_cons. unfold is_kind.
        rewrite decide_False by congruence. cbn [length].
        replace (bi + N.of_nat (S (length us)))
          with (bi + 1 + N.of_nat (length us)) by lia.
        reflexivity.
      * cbn. now rewrite Hn.
      * intros [|i] v Hv; cbn in Hv.
        -- injection Hv as <-. eexists; split; [reflexivity|].
           unfold bound_at. rewrite Hty. eexists. rewrite N.add_0_r.
           reflexivity.
        -- destruct (Hb i v Hv) as (b & Hl & Hbound).
           exists b. split; [exact Hl|].
           unfold bound_at in *. destruct (type v); try exact Hbound.
           ++ cbn [take]. rewrite count_kind_cons. unfold is_kind.
              rewrite decide_False by congruence. exact Hbound.
           ++ destruct Hbound as [view ->]. exists view.
              do 2 f_equal. lia.
Qed.

(** A supported entry that is bound makes exactly one call, and logs
    nothing. *)
Lemma bind_uniform_supported_step u bi si cmd w r w1 :
  supported u → bind_uniform c self u bi si cmd w = Next r w1 →
  ∃ e, trace w1 = trace w ++ [e] ∧ binding_event e ∧ log w1 = log w.
Proof.
  unfold bind_uniform, Emplace. intros [Hty | Hty]; rewrite Hty.
  - destruct (texture_inputs_ self !! N.to_nat si); run; [|discriminate].
    intros [= <- <-]. eexists. repeat split.
  - destruct (read_bytes _ _ _); run; [|discriminate].
    intros [= <- <-]. eexists. repeat split.
Qed.

Lemma bind_uniforms_supported_trace us : ∀ bi si cmd w r w',
  Forall supported us →
  bind_uniforms c self us bi si cmd w = Next r w' →
  (∃ evs, trace w' = trace w ++ evs ∧ length evs = length us
          ∧ Forall binding_event evs)
  ∧ log w' = log w.
Proof.
  induction us as [|u us IH]; intros bi si cmd w r w' Hsup Hrun.
  - injection Hrun as <- <-. split; [|reflexivity].
    exists []. rewrite app_nil_r. repeat constructor.
  - apply Forall_cons in Hsup as [Hu Hsup].
    cbn [bind_uniforms] in Hrun. unfold bind in Hrun.
    destruct (bind_uniform c self u bi si cmd w)
      as [[si' cmd'] w1| |] eqn:Hstep; [|discriminate..].
    destruct (bind_uniform_supported_step _ _ _ _ _ _ _ Hu Hstep)
      as (e & Ht1 & He & Hl1).
    destruct (IH _ _ _ _ _ _ Hsup Hrun) as ((evs & Ht & Hn & Hev) & Hl).
    split; [|congruence].
    exists (e :: evs). rewrite Ht, Ht1, <- app_assoc. cbn.
    repeat split; [now rewrite Hn|now constructor].
Qed.

(** *** Texture inputs *)

(** With a texture input for every sampled image that is still to come,
    no entry reads past the end of [texture_inputs_]. *)
Lemma bind_uniforms_texture_in_bounds us : ∀ bi si cmd,
  (N.to_nat si + count_kind kSampledImage us
     ≤ length (texture_inputs_ self))%nat →
  faults (λ k, ∀ i, k ≠ TextureInputOutOfRange i)
    (bind_uniforms c self us bi si cmd).
Proof.
  induction us as [|u us IH]; intros bi si cmd Htex w k w';
    cbn [bind_uniforms].
  { discriminate. }
  rewrite count_kind_cons in Htex. unfold is_kind in Htex.
  destruct (decide (type u = kSampledImage)) as [Hty|Hty].
  - destruct (lookup_lt_is_Some_2 (texture_inputs_ self) (N.to_nat si))
      as [input Hin]; [lia|].
    rewrite (bind_Next _ _ _ _ _
               (bind_uniform_sampled_image u bi si cmd w input Hty Hin)).
    apply IH. pose proof (size_t_incr_le si). lia.
  - unfold bind, bind_uniform, Emplace.
    destruct (type u); try congruence;
      [destruct (read_bytes _ _ _)|..]; run;
      solve [ now apply IH | discriminate
            | intros [= <- <-] i; discriminate ].
Qed.

(** *** Allocation in the transients buffer *)

Lemma padding_for_aligns len alignment :
  alignment ≠ 0 → (alignment | len + padding_for len alignment).
Proof.
  intros Ha. unfold padding_for. rewrite decide_False by exact Ha.
  pose proof (N.mod_upper_bound len alignment Ha) as Hr.
  pose proof (N.div_mod len alignment Ha) as Hq.
  remember (len mod alignment) as r eqn:Er.
  remember (len / alignment) as q eqn:Eq.
  destruct (decide (r = 0)) as [H0|H0].
  - rewrite H0, N.sub_0_r, N.Div0.mod_same, N.add_0_r.
    exists q. lia.
  - rewrite N.mod_small by lia.
    exists (q + 1). lia.
Qed.

Lemma Emplace_allocates data alignment w :
  let len := N.of_nat (length (transients w)) in
  let pad := padding_for len alignment in
  Emplace data alignment w
  = Next {| view_offset := len + pad;
            view_length := N.of_nat (length data) |}
      {| functions := functions w; pipelines := pipelines w;
         dirty := dirty w;
         transients :=
           transients w ++ replicate (N.to_nat pad) Byte.x00 ++ data;
         commands := commands w; log := log w;
         trace := trace w ++ [EvEmplace (N.of_nat (length data)) alignment] |}.
Proof. reflexivity. Qed.

(** The bytes behind the view that [Emplace] returns are the bytes it was
    given. *)
Lemma Emplace_view_content (data pad_bytes buffer : list Byte.byte) :
  take (length data) (drop (length buffer + length pad_bytes)
                        (buffer ++ pad_bytes ++ data)) = data.
Proof.
  rewrite app_assoc, <- length_app, drop_app_length.
  now rewrite firstn_all.
Qed.

End Loop.

(** ** Get or register shader *)

Section Shader.
Context (c : Collaborators) (self : RuntimeEffectContents).

Local Abbreviation entrypoint := (GetEntrypoint (runtime_stage_ self)).
Local Abbreviation stage := (GetShaderStage (runtime_stage_ self)).

Lemma shader_found_clean w f :
  functions w !! (entrypoint, kFragment) = Some f → dirty w = false →
  get_or_register_shader c self w
  = Next tt (set_trace (trace w ++ [EvGetFunction entrypoint kFragment]) w).
Proof.
  intros Hf Hd. unfold get_or_register_shader. run.
  now rewrite Hf, Hd.
Qed.

Lemma shader_found_dirty w f :
  functions w !! (entrypoint, kFragment) = Some f → dirty w = true →
  get_or_register_shader c self w = register_shader c self (invalidated self f w).
Proof.
  intros Hf Hd. unfold get_or_register_shader. run.
  rewrite Hf, Hd. run.
  unfold invalidated. now rewrite Hd, <- !app_assoc.
Qed.

Lemma shader_missing w :
  functions w !! (entrypoint, kFragment) = None →
  get_or_register_shader c self w
  = register_shader c self
      (set_trace (trace w ++ [EvGetFunction entrypoint kFragment]) w).
Proof.
  intros Hf. unfold get_or_register_shader. run.
  now rewrite Hf.
Qed.

Lemma register_failed w :
  backend_compile c entrypoint stage (GetCodeMapping (runtime_stage_ self))
    = CompileFailed →
  register_shader c self w
  = Return false
      {| functions := functions w; pipelines := pipelines w;
         dirty := dirty w; transients := transients w;
         commands := commands w;
         log := log w ++ [build_failed_message (runtime_stage_ self)];
         trace := trace w ++ [EvRegisterFunction entrypoint stage] |}.
Proof.
  intros Hc. unfold register_shader, RegisterFunction. run.
  now rewrite Hc.
Qed.

Lemma register_succeeded_lost w visible :
  backend_compile c entrypoint stage (GetCodeMapping (runtime_stage_ self))
    = CompileSucceeded visible →
  registry_after self visible (functions w) !! (entrypoint, kFragment) = None →
  register_shader c self w
  = Return false
      {| functions := registry_after self visible (functions w);
         pipelines := pipelines w; dirty := dirty w;
         transients := transients w; commands := commands w;
         log := log w ++ [fetch_failed_message (runtime_stage_ self)];
         trace := trace w ++ [EvRegisterFunction entrypoint stage;
                              EvGetFunction entrypoint kFragment] |}.
Proof.
  intros Hc Hf. unfold register_shader, RegisterFunction. run.
  rewrite Hc.
  destruct visible as [g|]; run; cbn [registry_after] in Hf;
    rewrite Hf, <- app_assoc; reflexivity.
Qed.

Lemma register_succeeded_fetched w visible g :
  backend_compile c entrypoint stage (GetCodeMapping (runtime_stage_ self))
    = CompileSucceeded visible →
  registry_after self visible (functions w) !! (entrypoint, kFragment) = Some g →
  register_shader c self w
  = Next tt
      {| functions := registry_after self visible (functions w);
         pipelines := pipelines w; dirty := false;
         transients := transients w; commands := commands w;
         log := log w;
         trace := trace w ++ [EvRegisterFunction entrypoint stage;
                              EvGetFunction entrypoint kFragment;
                              EvSetClean] |}.
Proof.
  intros Hc Hf. unfold register_shader, RegisterFunction. run.
  rewrite Hc.
  destruct visible as [g'|]; run; cbn [registry_after] in Hf;
    rewrite Hf; run; rewrite <- !app_assoc; reflexivity.
Qed.

End Shader.

(** ** Get or create the pipeline, assemble and submit the command *)

Lemma find_pipeline_Some desc cache p :
  find_pipeline desc cache = Some p → (desc, p) ∈ cache.
Proof.
  induction cache as [|[key q] cache IH]; cbn; [discriminate|].
  case_decide as Hk.
  - intros [= ->]. subst key. apply list_elem_of_here.
  - intros H. apply list_elem_of_further, IH, H.
Qed.

Lemma events_since_app w w' evs :
  trace w' = trace w ++ evs → events_since w w' = evs.
Proof. unfold events_since. intros ->. apply drop_app_length. Qed.

(** The stencil configuration of the descriptor: the override of lines 123
    to 126 when the geometry asks for it, the options of pass and entity
    otherwise. *)
Lemma runtime_stage_descriptor_stencil c entity g v f vd :
  stencil_attachment (runtime_stage_descriptor c entity g v f vd)
  = Some (if prevent_overdraw g
          then {| stencil_compare := kEqual;
                  depth_stencil_pass := kIncrementClamp |}
          else {| stencil_compare :=
                    options_stencil_compare (OptionsFromPassAndEntity c entity);
                  depth_stencil_pass :=
                    options_stencil_operation
                      (OptionsFromPassAndEntity c entity) |}).
Proof.
  unfold runtime_stage_descriptor.
  destruct v as [v|], f as [f|], (prevent_overdraw g); reflexivity.
Qed.

Section Draw.
Context (c : Collaborators) (self : RuntimeEffectContents) (entity : Entity).

Local Abbreviation entrypoint := (GetEntrypoint (runtime_stage_ self)).
Local Abbreviation geometry := (resolve_geometry c entity).
Local Abbreviation stage_inputs :=
  (SetStageInputs c {| inputs := [] |} (VS_kAllShaderStageInputs c)).

Lemma get_or_create_pipeline_hit w p :
  find_pipeline (lookup_descriptor c self entity w) (pipelines w) = Some p →
  get_or_create_pipeline c self entity w
  = Next (geometry, p) (before_lookup c self entity w).
Proof.
  intros Hp. unfold get_or_create_pipeline, GetPipeline, before_lookup.
  fold (lookup_descriptor c self entity w) in *. run.
  destruct stage_inputs as [[] vd] eqn:Hs; run;
    unfold lookup_descriptor in *; rewrite Hs in *; cbn [snd] in *;
    run; rewrite Hp; run; rewrite <- ?app_assoc, ?app_nil_r; reflexivity.
Qed.

Lemma get_or_create_pipeline_built w handle :
  find_pipeline (lookup_descriptor c self entity w) (pipelines w) = None →
  backend_build_pipeline c (lookup_descriptor c self entity w) = Some handle →
  let p := {| pipeline_descriptor := lookup_descriptor c self entity w;
              pipeline_handle := handle |} in
  get_or_create_pipeline c self entity w
  = Next (geometry, p)
      (set_pipelines (pipelines w ++ [(lookup_descriptor c self entity w, p)])
         (set_trace (trace (before_lookup c self entity w)
                     ++ [EvBuildPipeline (lookup_descriptor c self entity w)])
            (before_lookup c self entity w))).
Proof.
  intros Hp Hb. unfold get_or_create_pipeline, GetPipeline, before_lookup.
  run.
  destruct stage_inputs as [[] vd] eqn:Hs; run;
    unfold lookup_descriptor in *; rewrite Hs in *; cbn [snd] in *;
    run; rewrite Hp; run; rewrite Hb; run;
    rewrite <- ?app_assoc, ?app_nil_r; reflexivity.
Qed.

Lemma get_or_create_pipeline_rejected w :
  find_pipeline (lookup_descriptor c self entity w) (pipelines w) = None →
  backend_build_pipeline c (lookup_descriptor c self entity w) = None →
  get_or_create_pipeline c self entity w
  = Return false
      (set_log (log (before_lookup c self entity w) ++ [pipeline_failed_message])
         (set_trace (trace (before_lookup c self entity w)
                     ++ [EvBuildPipeline (lookup_descriptor c self entity w)])
            (before_lookup c self entity w))).
Proof.
  intros Hp Hb. unfold get_or_create_pipeline, GetPipeline, before_lookup.
  run.
  destruct stage_inputs as [[] vd] eqn:Hs; run;
    unfold lookup_descriptor in *; rewrite Hs in *; cbn [snd] in *;
    run; rewrite Hp; run; rewrite Hb; run;
    rewrite <- ?app_assoc, ?app_nil_r; reflexivity.
Qed.

End Draw.

(** ** The whole method *)

Section Render.
Context (c : Collaborators) (self : RuntimeEffectContents) (entity : Entity).

Local Abbreviation entrypoint := (GetEntrypoint (runtime_stage_ self)).
Local Abbreviation geometry := (resolve_geometry c entity).
Local Abbreviation uniforms := (GetUniforms (runtime_stage_ self)).

Lemma Render_body_draw :
  Render_body c self entity
  = bind (get_or_register_shader c self) (λ _, draw c self entity).
Proof. reflexivity. Qed.

Lemma Render_body_setup w :
  Render_body c self entity w
  = bind (Render_setup c self entity) (λ '(g, cmd), submit c entity g cmd) w.
Proof.
  unfold Render_body, Render_setup, bind.
  destruct (get_or_register_shader c self w); [|reflexivity..].
  destruct (get_or_create_pipeline c self entity _) as [[g p] ?| |];
    [|reflexivity..].
  destruct (start_command c entity g p _); [|reflexivity..].
  destruct (bind_uniforms c self uniforms 0 0 _ _) as [[[? ?] ?] ?| |];
    reflexivity.
Qed.

(** *** Events and frames of the sections *)

Lemma bind_uniforms_emits us bi si cmd :
  emits (setup_event c entity) (bind_uniforms c self us bi si cmd).
Proof.
  intros w.
  destruct (bind_uniforms_quiet c self us bi si cmd w)
    as (_ & (evs & Ht & Hev) & _).
  exists evs. split; [exact Ht|]. eapply Forall_impl; [exact Hev|].
  now intros [].
Qed.

Lemma bind_uniforms_preserves {X} (f : World → X) us bi si cmd :
  (∀ w w', quiet w w' → f w' = f w) →
  preserves f (bind_uniforms c self us bi si cmd).
Proof.
  intros Hf w.
  destruct (bind_uniforms_quiet c self us bi si cmd w) as (Hq & _).
  now apply Hf.
Qed.

Lemma shader_emits :
  emits (setup_event c entity) (get_or_register_shader c self).
Proof.
  unfold get_or_register_shader, register_shader, RegisterFunction,
    GetFunction, RemovePipelinesWithEntryPoint, UnregisterFunction.
  frame; reflexivity || exact I.
Qed.

Lemma pipeline_emits :
  emits (setup_event c entity) (get_or_create_pipeline c self entity).
Proof.
  unfold get_or_create_pipeline, GetPipeline, GetFunction.
  frame; try reflexivity; try exact I; cbn; eauto.
Qed.

Lemma start_command_emits g p :
  emits (setup_event c entity) (start_command c entity g p).
Proof.
  unfold start_command, EmplaceUniform, Emplace.
  frame; reflexivity || exact I.
Qed.

Lemma Render_setup_emits :
  emits (setup_event c entity) (Render_setup c self entity).
Proof.
  unfold Render_setup.
  apply emits_bind; [apply shader_emits|intros _].
  apply emits_bind; [apply pipeline_emits|intros [g p]].
  apply emits_bind; [apply start_command_emits|intros cmd].
  apply emits_bind; [apply bind_uniforms_emits|intros [[? ?] ?]].
  apply emits_ret.
Qed.

Lemma Render_setup_commands : preserves commands (Render_setup c self entity).
Proof.
  unfold Render_setup, get_or_register_shader, register_shader,
    RegisterFunction, get_or_create_pipeline, GetPipeline, GetFunction,
    RemovePipelinesWithEntryPoint, UnregisterFunction, start_command,
    EmplaceUniform, Emplace.
  frame; try reflexivity.
  apply bind_uniforms_preserves. now intros ? ? [].
Qed.

(** The geometry that reaches the submission is the one resolved for the
    entity. *)
Lemma Render_setup_geometry w g cmd w1 :
  Render_setup c self entity w = Next (g, cmd) w1 → g = geometry.
Proof.
  unfold Render_setup, bind.
  destruct (get_or_register_shader c self w) as [? w0| |]; [|discriminate..].
  assert (Hg : ∀ g' p w', get_or_create_pipeline c self entity w0
                          = Next (g', p) w' → g' = geometry).
  { unfold get_or_create_pipeline, GetPipeline. run. intros g' p w'.
    destruct (SetStageInputs c _ _) as [[] vd]; run;
      destruct (find_pipeline _ _); run;
      try destruct (backend_build_pipeline c _); run; congruence. }
  destruct (get_or_create_pipeline c self entity w0) as [[g' p] w'| |] eqn:E;
    [|discriminate..].
  rewrite (Hg _ _ _ eq_refl) in *. clear Hg E.
  destruct (start_command c entity geometry p w'); [|discriminate..].
  destruct (bind_uniforms c self uniforms 0 0 _ _) as [[[? ?] ?] ?| |];
    [|discriminate..].
  now intros [= <- _ _].
Qed.

End Render.

(** Decides a closed decidable proposition by evaluation. *)
Ltac by_evaluation :=
  match goal with
  | |- ?P => apply (@bool_decide_unpack P _); vm_compute; exact I
  end.

(** * The binding loop: slots, slices and bounds *)

(** C3.  For a layout of sampled-image and float entries in any order whose
    inputs the caller supplied, the binding loop entered with both counters
    at zero runs to its end with [buffer_index] equal to the number of all
    entries (N + M) and [sampler_index] equal to the number N of sampled
    images; entry [i] is bound, when it is a sampled image, at the texture
    and sampler index that is the number of sampled images before it, and
    when it is a float, at buffer slot [i]. *)
Theorem slot_index_asymmetry c self us cmd w :
  Forall supported us →
  Forall (float_data_in_range self) us →
  (count_kind kSampledImage us ≤ length (texture_inputs_ self))%nat →
  N.of_nat (length us) < size_t_modulus →
  N.of_nat (length (uniform_data_ self)) < size_t_modulus →
  ∃ new w',
    bind_uniforms c self us 0 0 cmd w
    = Next (N.of_nat (count_kind kSampledImage us + count_kind kFloat us),
            N.of_nat (count_kind kSampledImage us),
            bind_all new cmd) w'
    ∧ ∀ i u, us !! i = Some u →
             ∃ b, new !! i = Some b ∧ bound_at c self 0 0 us i u b.
Proof.
  intros Hsup Hdata Htex Hlen Hblob.
  destruct (bind_uniforms_supported c self us 0 0 cmd w)
    as (new & w' & Hrun & _ & Hb); try assumption.
  - pose proof (count_supported us Hsup). lia.
  - exists new, w'. split; [|exact Hb].
    rewrite Hrun, <- (count_supported us Hsup), !N.add_0_l. reflexivity.
Qed.

Lemma slot_index_asymmetry_witness :
  ∃ new w',
    bind_uniforms Example.collaborators
      (Example.contents Example.float_image_float_image)
      Example.float_image_float_image 0 0 default_Command Example.clean
    = Next (4, 2, bind_all new default_Command) w'
    ∧ ∀ i u, Example.float_image_float_image !! i = Some u →
             ∃ b, new !! i = Some b
                  ∧ bound_at Example.collaborators
                      (Example.contents Example.float_image_float_image)
                      0 0 Example.float_image_float_image i u b.
Proof.
  apply (slot_index_asymmetry Example.collaborators
           (Example.contents Example.float_image_float_image)
           Example.float_image_float_image default_Command Example.clean).
  - by_evaluation.
  - by_evaluation.
  - vm_compute. lia.
  - reflexivity.
  - reflexivity.
Defined.

(** C7.  A float entry binds the slice of the uniform data that starts at
    byte [location * 4] and is [GetSize] bytes long: the slice is allocated in
    the transients buffer with alignment [max (bit_width / 8)
    (DefaultUniformAlignment ())], the view bound at [buffer_index] covers
    exactly these bytes, and its offset is a multiple of the alignment; for
    [bit_width = 32] that is a multiple of [max 4 (DefaultUniformAlignment
    ())]. *)
Theorem float_uniform_slice c self u bi si cmd w :
  type u = kFloat →
  location u * sizeof_float + GetSize u
    ≤ N.of_nat (length (uniform_data_ self)) →
  N.of_nat (length (uniform_data_ self)) < size_t_modulus →
  let alignment := N.max (bit_width u / 8) (DefaultUniformAlignment c) in
  let slice :=
    take (N.to_nat (GetSize u))
      (drop (N.to_nat (location u * 4)) (uniform_data_ self)) in
  ∃ view w',
    bind_uniform c self u bi si cmd w
    = Next (si, BindResource
                  (BufferBinding kFragment
                     {| uniform_slot_name := name u; ext_res_0 := bi |}
                     EmptyMetadata view) cmd) w'
    ∧ N.of_nat (length slice) = GetSize u
    ∧ view_length view = GetSize u
    ∧ events_since w w' = [EvEmplace (GetSize u) alignment]
    ∧ take (length slice) (drop (N.to_nat (view_offset view)) (transients w'))
      = slice
    ∧ (alignment ≠ 0 → (alignment | view_offset view))
    ∧ (bit_width u = 32 →
       (N.max 4 (DefaultUniformAlignment c) | view_offset view)).
Proof.
  intros Hty Hin Hblob alignment slice.
  assert (Hlen : N.of_nat (length slice) = GetSize u).
  { unfold slice, sizeof_float in *. rewrite length_take, length_drop. lia. }
  assert (Hread : read_bytes (uniform_data_ self)
                    (size_t_mul (location u) sizeof_float) (GetSize u)
                  = Some slice).
  { apply read_bytes_in_range; [intros _; exact Hin|exact Hty|exact Hblob]. }
  rewrite (bind_uniform_float c self u bi si cmd w slice Hty Hread).
  unfold bind. rewrite Emplace_allocates. cbv beta iota zeta.
  fold alignment.
  set (len := N.of_nat (length (transients w))).
  set (pad := padding_for len alignment).
  eexists _, _. split; [reflexivity|]. cbn [view_length view_offset transients].
  split; [exact Hlen|]. split; [exact Hlen|]. split; [|split; [|split]].
  - rewrite Hlen. now apply events_since_app.
  - replace (N.to_nat (len + pad))
      with (length (transients w)
            + length (replicate (N.to_nat pad) Byte.x00))%nat
      by (rewrite length_replicate; lia).
    apply Emplace_view_content.
  - intros Ha. now apply padding_for_aligns.
  - intros Hbw. assert (Ha : alignment = N.max 4 (DefaultUniformAlignment c)).
    { unfold alignment. now rewrite Hbw. }
    rewrite <- Ha. apply padding_for_aligns. lia.
Qed.

Lemma float_uniform_slice_witness :
  ∃ view w',
    bind_uniform Example.collaborators (Example.contents [])
      (Example.uniform "c" 1 kFloat) 2 1 default_Command Example.clean
    = Next (1, BindResource
                 (BufferBinding kFragment
                    {| uniform_slot_name := "c"%string; ext_res_0 := 2 |}
                    EmptyMetadata view) default_Command) w'
    ∧ view_length view = 4
    ∧ (16 | view_offset view).
Proof.
  destruct (float_uniform_slice Example.collaborators (Example.contents [])
              (Example.uniform "c" 1 kFloat) 2 1 default_Command Example.clean)
    as (view & w' & Hrun & _ & Hlen & _ & _ & _ & Halign).
  - reflexivity.
  - vm_compute. discriminate.
  - reflexivity.
  - exists view, w'. split; [exact Hrun|]. split; [exact Hlen|].
    apply Halign. reflexivity.
Defined.

(** C10.  When the caller supplied at least as many texture inputs as the
    layout has sampled-image entries, no read [texture_inputs_[sampler_index]]
    of the binding loop is out of range: neither the loop nor the call of
    [Render] it belongs to can end in that undefined behaviour, which the
    source guards with an [FML_DCHECK] only. *)
Theorem texture_inputs_in_bounds c self entity w :
  (count_kind kSampledImage (GetUniforms (runtime_stage_ self))
     ≤ length (texture_inputs_ self))%nat →
  ∀ i w',
    Render c self entity w ≠ Crashed (TextureInputOutOfRange i) w'
    ∧ ∀ cmd,
        bind_uniforms c self (GetUniforms (runtime_stage_ self)) 0 0 cmd w
        ≠ Undefined (TextureInputOutOfRange i) w'.
Proof.
  intros Htex i w'.
  assert (Hloop : ∀ cmd,
    faults (λ k, ∀ i, k ≠ TextureInputOutOfRange i)
      (bind_uniforms c self (GetUniforms (runtime_stage_ self)) 0 0 cmd)).
  { intros cmd. apply bind_uniforms_texture_in_bounds. exact Htex. }
  split.
  - assert (Hbody : faults (λ k, ∀ i, k ≠ TextureInputOutOfRange i)
                      (Render_body c self entity)).
    { unfold Render_body.
      apply faults_bind; [|intros _].
      { unfold get_or_register_shader, register_shader, RegisterFunction,
          GetFunction, RemovePipelinesWithEntryPoint, UnregisterFunction.
        frame. }
      apply faults_bind; [|intros [g p]].
      { unfold get_or_create_pipeline, GetPipeline, GetFunction. frame. }
      apply faults_bind; [|intros cmd].
      { unfold start_command, EmplaceUniform, Emplace. frame. }
      apply faults_bind; [apply Hloop|intros [[? ?] cmd']].
      unfold submit, AddCommand. frame. }
    unfold Render, call. intros Hcrash.
    destruct (Render_body c self entity w) as [| |k wk] eqn:E;
      try discriminate.
    injection Hcrash as -> ->. exact (Hbody _ _ _ E i eq_refl).
  - intros cmd Hcrash. exact (Hloop cmd _ _ _ Hcrash i eq_refl).
Qed.

(** Without that precondition the read does go out of range: three sampled
    images against the two texture inputs of the example. *)
Lemma too_few_texture_inputs :
  ∃ w',
    Render Example.collaborators
      (Example.contents
         [Example.uniform "s" 0 kSampledImage;
          Example.uniform "t" 0 kSampledImage;
          Example.uniform "r" 0 kSampledImage])
      Example.entity Example.clean
    = Crashed (TextureInputOutOfRange 2) w'.
Proof. eexists. vm_compute. reflexivity. Qed.

Lemma texture_inputs_in_bounds_witness :
  (count_kind kSampledImage Example.float_image_float_image
     ≤ length (texture_inputs_
                 (Example.contents Example.float_image_float_image)))%nat
  ∧ Render Example.collaborators
      (Example.contents Example.float_image_float_image) Example.entity
      Example.clean
    ≠ Crashed (TextureInputOutOfRange 0) Example.clean.
Proof.
  assert (H : (count_kind kSampledImage Example.float_image_float_image
                 ≤ length (texture_inputs_
                             (Example.contents
                                Example.float_image_float_image)))%nat).
  { vm_compute. lia. }
  split; [exact H|].
  apply (texture_inputs_in_bounds Example.collaborators
           (Example.contents Example.float_image_float_image) Example.entity
           Example.clean H).
Defined.

(** * Shader resolution *)

Section Resolution.
Context (c : Collaborators) (self : RuntimeEffectContents) (entity : Entity).

Local Abbreviation entrypoint := (GetEntrypoint (runtime_stage_ self)).
Local Abbreviation stage := (GetShaderStage (runtime_stage_ self)).
Local Abbreviation code := (GetCodeMapping (runtime_stage_ self)).

Lemma assemble_and_submit_emits g p :
  emits (λ _, True) (assemble_and_submit c self entity g p).
Proof.
  unfold assemble_and_submit.
  apply emits_bind; [|intros cmd].
  { eapply emits_weaken; [|apply start_command_emits]. auto. }
  apply emits_bind; [|intros [[? ?] cmd']].
  { eapply emits_weaken; [|apply (bind_uniforms_emits c self entity)].
    auto. }
  unfold submit, AddCommand. frame; reflexivity || exact I.
Qed.

Lemma assemble_and_submit_pipelines g p :
  preserves pipelines (assemble_and_submit c self entity g p).
Proof.
  unfold assemble_and_submit, start_command, EmplaceUniform, Emplace,
    submit, AddCommand.
  frame; try reflexivity.
  apply bind_uniforms_preserves. now intros ? ? [].
Qed.

Lemma draw_emits : emits (λ _, True) (draw c self entity).
Proof.
  unfold draw.
  apply emits_bind; [|intros [g p]].
  { eapply emits_weaken; [|apply pipeline_emits]. auto. }
  apply assemble_and_submit_emits.
Qed.

Lemma draw_dirty : preserves dirty (draw c self entity).
Proof.
  unfold draw, assemble_and_submit, get_or_create_pipeline, GetPipeline,
    GetFunction, start_command, EmplaceUniform, Emplace, submit, AddCommand.
  frame; try reflexivity.
  apply bind_uniforms_preserves. now intros ? ? [].
Qed.

(** What is in the cache after [draw] was there before or was built by
    it. *)
Lemma draw_pipelines w entry :
  let w' := step_world (draw c self entity w) in
  entry ∈ pipelines w' →
  entry ∈ pipelines w ∨ EvBuildPipeline entry.1 ∈ events_since w w'.
Proof.
  cbn zeta. unfold draw.
  destruct (find_pipeline (lookup_descriptor c self entity w) (pipelines w))
    as [p|] eqn:Hfind.
  - rewrite (bind_Next _ _ _ _ _
               (get_or_create_pipeline_hit c self entity w p Hfind)).
    rewrite assemble_and_submit_pipelines. now left.
  - destruct (backend_build_pipeline c (lookup_descriptor c self entity w))
      as [handle|] eqn:Hbuild.
    + rewrite (bind_Next _ _ _ _ _
                 (get_or_create_pipeline_built c self entity w handle
                    Hfind Hbuild)).
      rewrite assemble_and_submit_pipelines.
      match goal with
      | |- context [step_world (assemble_and_submit _ _ _ ?g ?p ?w1)] =>
          destruct (assemble_and_submit_emits g p w1) as (evs & Ht & _)
      end.
      cbn [pipelines set_pipelines].
      intros [Hin | ->%list_elem_of_singleton]%elem_of_app;
        [now left|right].
      erewrite events_since_app
        by (rewrite Ht; cbn [trace set_pipelines set_trace before_lookup];
            rewrite <- !app_assoc; reflexivity).
      cbn [fst]. rewrite !elem_of_app, !elem_of_cons. auto 10.
    + rewrite (bind_Return _ _ _ _ _
                 (get_or_create_pipeline_rejected c self entity w
                    Hfind Hbuild)).
      now left.
Qed.

Lemma Render_after_shader w :
  final_world (Render c self entity w)
  = match get_or_register_shader c self w with
    | Next _ w1 => step_world (draw c self entity w1)
    | Return _ w1 | Undefined _ w1 => w1
    end.
Proof.
  unfold Render, call. rewrite Render_body_draw. unfold bind.
  destruct (get_or_register_shader c self w); [|reflexivity..].
  now destruct (draw c self entity _).
Qed.

Lemma Render_result_after_shader w :
  result (Render c self entity w)
  = match get_or_register_shader c self w with
    | Next _ w1 => result (call (draw c self entity) w1)
    | Return b _ => Some b
    | Undefined _ _ => None
    end.
Proof.
  unfold Render, call. rewrite Render_body_draw. unfold bind.
  destruct (get_or_register_shader c self w); [|reflexivity..].
  now destruct (draw c self entity _).
Qed.

(** When the function is missing from the library or the stage is dirty,
    the shader is registered: in a library without the function, and with a
    cache that has lost at most the pipelines of the function. *)
Lemma shader_attempts_registration w :
  functions w !! (entrypoint, kFragment) = None ∨ dirty w = true →
  ∃ w0 evs0,
    get_or_register_shader c self w = register_shader c self w0
    ∧ functions w0 = delete (entrypoint, kFragment) (functions w)
    ∧ (∀ e, e ∈ pipelines w0 → e ∈ pipelines w)
    ∧ dirty w0 = dirty w ∧ log w0 = log w
    ∧ trace w0 = trace w ++ EvGetFunction entrypoint kFragment :: evs0
    ∧ Forall invalidation_event evs0.
Proof.
  intros Hneeds.
  destruct (functions w !! (entrypoint, kFragment)) as [f|] eqn:Hf.
  - destruct Hneeds as [|Hd]; [discriminate|].
    eexists (invalidated self f w), _.
    split; [now apply shader_found_dirty|].
    cbn [invalidated functions pipelines dirty log trace].
    repeat split; [|repeat constructor].
    intros e He. now apply list_elem_of_filter in He.
  - eexists _, []. split; [now apply shader_missing|].
    cbn [set_trace functions pipelines dirty log trace].
    rewrite delete_id by exact Hf. repeat split; [auto|constructor].
Qed.

Lemma register_shader_pipelines : preserves pipelines (register_shader c self).
Proof.
  unfold register_shader, RegisterFunction, GetFunction. frame; reflexivity.
Qed.

(** The registration is the first call of [register_shader]. *)
Lemma register_shader_trace w0 :
  ∃ evs1,
    trace (step_world (register_shader c self w0))
    = trace w0 ++ EvRegisterFunction entrypoint stage :: evs1.
Proof.
  destruct (backend_compile c entrypoint stage code) as [|visible] eqn:Hc.
  - rewrite (register_failed c self w0 Hc). eexists. reflexivity.
  - destruct (registry_after self visible (functions w0)
              !! (entrypoint, kFragment)) as [g|] eqn:Hfetch.
    + rewrite (register_succeeded_fetched c self w0 visible g Hc Hfetch).
      eexists. reflexivity.
    + rewrite (register_succeeded_lost c self w0 visible Hc Hfetch).
      eexists. reflexivity.
Qed.

(** C4.  When the fragment function is not in the library, or is there but
    the stage is dirty, and the backend compiler reports failure, [Render]
    returns false and logs one diagnostic that names the entry point; it
    attempts no pipeline lookup and no pipeline build, the pipeline cache
    gains nothing and the library holds no function for the entry point. *)
Theorem registration_failure w :
  functions w !! (entrypoint, kFragment) = None ∨ dirty w = true →
  backend_compile c entrypoint stage code = CompileFailed →
  let r := Render c self entity w in
  result r = Some false
  ∧ Render_log c self entity w
    = [("Failed to build runtime effect (entry point: " +:+ entrypoint
        +:+ ")")%string]
  ∧ Forall (λ e, ∀ d, e ≠ EvGetPipeline d ∧ e ≠ EvBuildPipeline d)
      (Render_events c self entity w)
  ∧ (∀ e, e ∈ pipelines (final_world r) → e ∈ pipelines w)
  ∧ functions (final_world r) !! (entrypoint, kFragment) = None.
Proof.
  intros Hneeds Hfail.
  destruct (shader_attempts_registration w Hneeds)
    as (w0 & evs0 & Hshader & Hfs & Hps & _ & Hlog & Htrace & Hevs).
  cbn zeta. unfold Render_log, Render_events.
  rewrite Render_result_after_shader, Render_after_shader, Hshader.
  rewrite (register_failed c self w0 Hfail).
  cbn [functions pipelines log trace]. rewrite Hfs, Hlog, Htrace.
  split; [reflexivity|]. split; [apply drop_app_length|].
  split; [|split; [exact Hps|apply lookup_delete_eq]].
  rewrite <- app_assoc. erewrite events_since_app by reflexivity.
  constructor; [now split|]. apply Forall_app. split.
  - eapply Forall_impl; [exact Hevs|]. now intros [].
  - now repeat constructor.
Qed.

(** C5.  When the shader is registered and the backend compiler reports
    success, the function is fetched again under the key of the first lookup,
    right after the registration.  If that fetch finds nothing, [Render]
    logs a diagnostic and returns false with the dirty flag as it was;
    [SetClean] is called exactly when the fetch finds the function, and then
    the stage is clean when [Render] ends. *)
Theorem registration_success_refetch w visible :
  functions w !! (entrypoint, kFragment) = None ∨ dirty w = true →
  backend_compile c entrypoint stage code = CompileSucceeded visible →
  let r := Render c self entity w in
  let fetched :=
    registry_after self visible
      (delete (entrypoint, kFragment) (functions w))
    !! (entrypoint, kFragment) in
  (∃ before after,
     Render_events c self entity w
     = EvGetFunction entrypoint kFragment
       :: before ++ EvRegisterFunction entrypoint stage
                 :: EvGetFunction entrypoint kFragment :: after
     ∧ Forall invalidation_event before)
  ∧ (fetched = None →
     result r = Some false
     ∧ Render_log c self entity w
       = [("Failed to fetch runtime effect function immediately after "
           +:+ "registering it (entry point: " +:+ entrypoint +:+ ")")%string]
     ∧ dirty (final_world r) = dirty w)
  ∧ (EvSetClean ∈ Render_events c self entity w ↔ is_Some fetched)
  ∧ (is_Some fetched → dirty (final_world r) = false).
Proof.
  intros Hneeds Hok.
  destruct (shader_attempts_registration w Hneeds)
    as (w0 & evs0 & Hshader & Hfs & _ & Hdirty & Hlog & Htrace & Hevs).
  cbn zeta. unfold Render_log, Render_events.
  rewrite Render_result_after_shader, Render_after_shader, Hshader.
  rewrite <- Hfs.
  assert (Hclean : EvSetClean ∉ evs0).
  { intros Hin. eapply Forall_forall in Hevs; [|exact Hin]. exact Hevs. }
  destruct (registry_after self visible (functions w0)
            !! (entrypoint, kFragment)) as [g|] eqn:Hfetch.
  - rewrite (register_succeeded_fetched c self w0 visible g Hok Hfetch).
    destruct (draw_emits (
      {| functions := registry_after self visible (functions w0);
         pipelines := pipelines w0; dirty := false;
         transients := transients w0; commands := commands w0;
         log := log w0;
         trace := trace w0 ++ [EvRegisterFunction entrypoint stage;
                               EvGetFunction entrypoint kFragment;
                               EvSetClean] |})) as (evs & Hdraw & _).
    cbn [trace] in Hdraw.
    assert (Hev : ∀ wf, trace wf
                        = (trace w0 ++ [EvRegisterFunction entrypoint stage;
                                        EvGetFunction entrypoint kFragment;
                                        EvSetClean]) ++ evs →
                  events_since w wf
                  = EvGetFunction entrypoint kFragment
                    :: evs0 ++ EvRegisterFunction entrypoint stage
                            :: EvGetFunction entrypoint kFragment
                            :: EvSetClean :: evs).
    { intros wf Hwf. apply events_since_app.
      rewrite Hwf, Htrace, <- !app_assoc. reflexivity. }
    rewrite (Hev _ Hdraw).
    split; [exists evs0; eexists; split; [reflexivity|exact Hevs]|].
    split; [discriminate|]. split.
    + split; [eauto|]. intros _.
      rewrite elem_of_cons, elem_of_app, !elem_of_cons. auto 10.
    + intros _. now rewrite draw_dirty.
  - rewrite (register_succeeded_lost c self w0 visible Hok Hfetch).
    cbn [final_world step_world trace log dirty].
    assert (Hev : events_since w
                    {| functions := registry_after self visible (functions w0);
                       pipelines := pipelines w0; dirty := dirty w0;
                       transients := transients w0; commands := commands w0;
                       log := log w0
                              ++ [fetch_failed_message (runtime_stage_ self)];
                       trace := trace w0
                                ++ [EvRegisterFunction entrypoint stage;
                                    EvGetFunction entrypoint kFragment] |}
                  = EvGetFunction entrypoint kFragment
                    :: evs0 ++ [EvRegisterFunction entrypoint stage;
                                EvGetFunction entrypoint kFragment]).
    { apply events_since_app. cbn [trace].
      rewrite Htrace, <- !app_assoc. reflexivity. }
    rewrite Hev.
    split; [exists evs0, []; split; [reflexivity|exact Hevs]|].
    split; [|split].
    + intros _. split; [reflexivity|].
      split; [rewrite Hlog; apply drop_app_length|exact Hdirty].
    + split; [|intros [? [=]]].
      rewrite elem_of_cons, elem_of_app, !elem_of_cons, elem_of_nil.
      intros [[=]|[?|[[=]|[[=]|[]]]]]. contradiction.
    + intros [? [=]].
Qed.

(** C2.  When the fragment function is in the library and the stage is
    dirty, [Render] begins by removing the pipelines of that function from
    the cache and the function from the library, and only then registers the
    shader again; any pipeline lookup comes later.  A cached pipeline that
    refers to the old function when [Render] ends was built by this call,
    after the eviction. *)
Theorem dirty_invalidation w f :
  functions w !! (entrypoint, kFragment) = Some f →
  dirty w = true →
  let r := Render c self entity w in
  (∃ rest,
     Render_events c self entity w
     = EvGetFunction entrypoint kFragment
       :: EvRemovePipelinesWithEntryPoint f
       :: EvUnregisterFunction entrypoint kFragment
       :: EvRegisterFunction entrypoint stage :: rest)
  ∧ (∀ entry,
       entry ∈ pipelines (final_world r) →
       references_function f entry.1 →
       EvBuildPipeline entry.1 ∈ Render_events c self entity w).
Proof.
  intros Hf Hd. cbn zeta. unfold Render_events.
  rewrite Render_after_shader, (shader_found_dirty c self w f Hf Hd).
  set (w0 := invalidated self f w).
  assert (Hstale : ∀ entry, entry ∈ pipelines w0 →
                            ¬ references_function f entry.1).
  { intros entry Hin. now apply list_elem_of_filter in Hin. }
  destruct (register_shader_trace w0) as (evs1 & Hreg).
  pose proof (register_shader_pipelines w0) as Hps.
  destruct (register_shader c self w0) as [[] w1|b w1|k w1] eqn:Hrun;
    cbn [step_world] in Hreg, Hps.
  - destruct (draw_emits w1) as (evs & Hdraw & _).
    assert (Hev : events_since w (step_world (draw c self entity w1))
                  = EvGetFunction entrypoint kFragment
                    :: EvRemovePipelinesWithEntryPoint f
                    :: EvUnregisterFunction entrypoint kFragment
                    :: EvRegisterFunction entrypoint stage :: evs1 ++ evs).
    { apply events_since_app. rewrite Hdraw, Hreg. unfold w0.
      cbn [invalidated trace]. rewrite <- !app_assoc. reflexivity. }
    rewrite Hev. split; [eauto|]. intros entry Hin Href.
    apply draw_pipelines in Hin as [Hold|Hnew].
    + rewrite Hps in Hold. now apply Hstale in Hold.
    + rewrite (events_since_app w1 _ evs Hdraw) in Hnew.
      rewrite !elem_of_cons, elem_of_app. auto 10.
  - assert (Hev : events_since w w1
                  = EvGetFunction entrypoint kFragment
                    :: EvRemovePipelinesWithEntryPoint f
                    :: EvUnregisterFunction entrypoint kFragment
                    :: EvRegisterFunction entrypoint stage :: evs1).
    { apply events_since_app. rewrite Hreg. unfold w0.
      cbn [invalidated trace]. rewrite <- !app_assoc. reflexivity. }
    rewrite Hev. split; [eauto|]. intros entry Hin Href.
    rewrite Hps in Hin. now apply Hstale in Hin.
  - assert (Hev : events_since w w1
                  = EvGetFunction entrypoint kFragment
                    :: EvRemovePipelinesWithEntryPoint f
                    :: EvUnregisterFunction entrypoint kFragment
                    :: EvRegisterFunction entrypoint stage :: evs1).
    { apply events_since_app. rewrite Hreg. unfold w0.
      cbn [invalidated trace]. rewrite <- !app_assoc. reflexivity. }
    rewrite Hev. split; [eauto|]. intros entry Hin Href.
    rewrite Hps in Hin. now apply Hstale in Hin.
Qed.

End Resolution.

Lemma registration_failure_witness :
  result (Render Example.failing (Example.contents []) Example.entity
            Example.reloaded) = Some false
  ∧ functions (final_world (Render Example.failing (Example.contents [])
                              Example.entity Example.reloaded))
    !! ("effect"%string, kFragment) = None.
Proof.
  destruct (registration_failure Example.failing (Example.contents [])
              Example.entity Example.reloaded)
    as (Hresult & _ & _ & _ & Hfunctions).
  - right. reflexivity.
  - reflexivity.
  - split; [exact Hresult|exact Hfunctions].
Defined.

Lemma registration_success_refetch_witness :
  result (Render Example.racing (Example.contents []) Example.entity
            Example.fresh) = Some false
  ∧ dirty (final_world (Render Example.racing (Example.contents [])
                          Example.entity Example.fresh)) = false.
Proof.
  destruct (registration_success_refetch Example.racing (Example.contents [])
              Example.entity Example.fresh None)
    as (_ & Hlost & _).
  - left. reflexivity.
  - reflexivity.
  - destruct Hlost as (Hresult & _ & Hdirty); [reflexivity|].
    split; [exact Hresult|exact Hdirty].
Defined.

Lemma dirty_invalidation_witness :
  functions Example.reloaded !! ("effect"%string, kFragment)
  = Some Example.old_effect
  ∧ dirty Example.reloaded = true
  ∧ ∃ rest,
      Render_events Example.collaborators (Example.contents [])
        Example.entity Example.reloaded
      = EvGetFunction "effect" kFragment
        :: EvRemovePipelinesWithEntryPoint Example.old_effect
        :: EvUnregisterFunction "effect" kFragment
        :: EvRegisterFunction "effect" kFragment :: rest.
Proof.
  split; [reflexivity|]. split; [reflexivity|].
  destruct (dirty_invalidation Example.collaborators (Example.contents [])
              Example.entity Example.reloaded Example.old_effect)
    as (Hevents & _).
  - reflexivity.
  - reflexivity.
  - exact Hevents.
Defined.

(** * Submission *)

Section Submission.
Context (c : Collaborators) (self : RuntimeEffectContents) (entity : Entity).

Local Abbreviation geometry := (resolve_geometry c entity).
Local Abbreviation uniforms := (GetUniforms (runtime_stage_ self)).

Lemma submit_submits cmd w :
  submit c entity geometry cmd w
  = Next (if prevent_overdraw geometry then clip_restore_result c entity
          else true) (submitted c entity cmd w).
Proof.
  unfold submit, AddCommand, submitted. run.
  destruct (prevent_overdraw geometry); run; rewrite <- ?app_assoc;
    reflexivity.
Qed.

(** A call that adds a command to the pass went through all of the setup,
    and the command it adds is the one the setup assembled. *)
Lemma Render_submits w cmd :
  EvAddCommand cmd ∈ Render_events c self entity w →
  ∃ setup w1,
    Render_setup c self entity w = Next (geometry, cmd) w1
    ∧ trace w1 = trace w ++ setup
    ∧ Forall (setup_event c entity) setup
    ∧ Render c self entity w
      = Returned (if prevent_overdraw geometry then clip_restore_result c entity
                  else true) (submitted c entity cmd w1).
Proof.
  unfold Render_events, Render, call. rewrite Render_body_setup. unfold bind.
  destruct (Render_setup_emits c self entity w) as (setup & Ht & Hsetup).
  assert (Hnone : ∀ cmd', EvAddCommand cmd' ∉ setup).
  { intros cmd' Hin. eapply Forall_forall in Hsetup; [|exact Hin].
    exact Hsetup. }
  destruct (Render_setup c self entity w) as [[g cmd'] w1|b w1|k w1] eqn:E;
    cbn [step_world final_world] in *.
  - apply Render_setup_geometry in E as Hg. subst g.
    rewrite submit_submits. cbn [final_world].
    erewrite events_since_app
      by (cbn [submitted trace]; rewrite Ht, <- app_assoc; reflexivity).
    rewrite elem_of_app, elem_of_cons. intros [Hin|[Hin|Hin]].
    + now apply Hnone in Hin.
    + injection Hin as <-. exists setup, w1. auto.
    + destruct (prevent_overdraw geometry).
      * apply list_elem_of_singleton in Hin. discriminate.
      * now apply elem_of_nil in Hin.
  - rewrite (events_since_app _ _ _ Ht). intros Hin. now apply Hnone in Hin.
  - rewrite (events_since_app _ _ _ Ht). intros Hin. now apply Hnone in Hin.
Qed.

(** The setup that reaches its end has looked a pipeline up. *)
Lemma Render_setup_looks_up w r w1 :
  Render_setup c self entity w = Next r w1 →
  ∃ d, EvGetPipeline d ∈ events_since w w1.
Proof.
  unfold Render_setup, bind.
  destruct (shader_emits c self entity w) as (evs0 & Ht0 & _).
  destruct (get_or_register_shader c self w) as [[] w0| |]; [|discriminate..].
  cbn [step_world] in Ht0.
  assert (Hlookup : ∀ g p w', get_or_create_pipeline c self entity w0
                              = Next (g, p) w' →
                    ∃ evs, trace w' = trace w0 ++ evs
                           ∧ EvGetPipeline (lookup_descriptor c self entity w0)
                             ∈ evs).
  { intros g p w'.
    destruct (find_pipeline (lookup_descriptor c self entity w0) (pipelines w0))
      as [q|] eqn:Hfind.
    - rewrite (get_or_create_pipeline_hit c self entity w0 q Hfind).
      intros [= _ _ <-]. eexists. split; [reflexivity|].
      rewrite !elem_of_cons. auto 10.
    - destruct (backend_build_pipeline c (lookup_descriptor c self entity w0))
        as [handle|] eqn:Hbuild.
      + rewrite (get_or_create_pipeline_built c self entity w0 handle
                   Hfind Hbuild).
        intros [= _ _ <-]. eexists. split.
        * cbn [set_pipelines set_trace before_lookup trace].
          rewrite <- app_assoc. reflexivity.
        * cbn [app]. rewrite !elem_of_cons. auto 10.
      + now rewrite (get_or_create_pipeline_rejected c self entity w0
                       Hfind Hbuild). }
  destruct (get_or_create_pipeline c self entity w0) as [[g p] w'| |];
    [|discriminate..].
  destruct (Hlookup g p w' eq_refl) as (evs1 & Ht1 & Hin).
  destruct (start_command_emits c entity g p w') as (evs2 & Ht2 & _).
  destruct (start_command c entity g p w') as [cmd0 w2| |]; [|discriminate..].
  destruct (bind_uniforms_emits c self entity uniforms 0 0 cmd0 w2)
    as (evs3 & Ht3 & _).
  destruct (bind_uniforms c self uniforms 0 0 cmd0 w2)
    as [[[? ?] ?] w3| |]; [|discriminate..].
  cbn [step_world] in *. intros [= _ <-].
  exists (lookup_descriptor c self entity w0).
  erewrite events_since_app
    by (rewrite Ht3, Ht2, Ht1, Ht0, <- !app_assoc; reflexivity).
  rewrite !elem_of_app. auto.
Qed.

(** C9.  A call with [prevent_overdraw] set that adds its command to the pass
    returns what the clip-restore draw returns, true or false, and the
    command stays in the pass either way. *)
Theorem clip_restore_decides_result w cmd :
  prevent_overdraw geometry = true →
  EvAddCommand cmd ∈ Render_events c self entity w →
  result (Render c self entity w) = Some (clip_restore_result c entity)
  ∧ cmd ∈ commands (final_world (Render c self entity w))
  ∧ (clip_restore_result c entity = false →
     result (Render c self entity w) = Some false).
Proof.
  intros Hprevent Hadd.
  destruct (Render_submits w cmd Hadd) as (setup & w1 & _ & _ & _ & ->).
  rewrite Hprevent. cbn [result final_world submitted commands].
  split; [reflexivity|]. split; [|now intros ->].
  rewrite elem_of_app, list_elem_of_singleton. now right.
Qed.

(** C6.  A call that adds its command to the pass has looked its pipeline up
    with a descriptor whose stencil configuration is compare-equal and
    increment-clamp when the geometry has [prevent_overdraw] set, and the
    configuration of the pass and entity options otherwise.  With
    [prevent_overdraw] set the clip-restore draw is the last call, right
    after the command was added, and the only one; without it there is
    none.  The command is in the pass in both cases. *)
Theorem overdraw_correction w cmd :
  EvAddCommand cmd ∈ Render_events c self entity w →
  ∃ setup,
    Render_events c self entity w
    = setup ++ EvAddCommand cmd
            :: (if prevent_overdraw geometry
                then [EvClipRestoreRender entity] else [])
    ∧ Forall (λ e, ∀ cmd' entity',
                e ≠ EvAddCommand cmd' ∧ e ≠ EvClipRestoreRender entity') setup
    ∧ cmd ∈ commands (final_world (Render c self entity w))
    ∧ (∃ d, EvGetPipeline d ∈ setup)
    ∧ ∀ d, EvGetPipeline d ∈ Render_events c self entity w →
           stencil_attachment d
           = Some (if prevent_overdraw geometry
                   then {| stencil_compare := kEqual;
                           depth_stencil_pass := kIncrementClamp |}
                   else {| stencil_compare :=
                             options_stencil_compare
                               (OptionsFromPassAndEntity c entity);
                           depth_stencil_pass :=
                             options_stencil_operation
                               (OptionsFromPassAndEntity c entity) |}).
Proof.
  intros Hadd.
  destruct (Render_submits w cmd Hadd)
    as (setup & w1 & Hsetup & Ht & Hev & Hrender).
  assert (Hevents : Render_events c self entity w
                    = setup ++ EvAddCommand cmd
                            :: (if prevent_overdraw geometry
                                then [EvClipRestoreRender entity] else [])).
  { unfold Render_events. rewrite Hrender. cbn [final_world].
    apply events_since_app. cbn [submitted trace].
    now rewrite Ht, <- app_assoc. }
  exists setup. split; [exact Hevents|]. split; [|split; [|split]].
  - eapply Forall_impl; [exact Hev|]. intros [] He cmd' entity'; now split.
  - rewrite Hrender. cbn [final_world submitted commands].
    rewrite elem_of_app, list_elem_of_singleton. now right.
  - destruct (Render_setup_looks_up w _ _ Hsetup) as (d & Hd).
    exists d. now rewrite (events_since_app _ _ _ Ht) in Hd.
  - intros d. rewrite Hevents, elem_of_app, elem_of_cons.
    intros [Hd|[[=]|Hd]].
    + eapply Forall_forall in Hev; [|exact Hd].
      destruct Hev as (v & f & vd & ->).
      apply runtime_stage_descriptor_stencil.
    + destruct (prevent_overdraw geometry).
      * apply list_elem_of_singleton in Hd. discriminate.
      * now apply elem_of_nil in Hd.
Qed.

Lemma start_command_starts g p w :
  start_command c entity g p w
  = Next (BindVertInfo c
            {| view_offset :=
                 N.of_nat (length (transients w))
                 + padding_for (N.of_nat (length (transients w)))
                     (DefaultUniformAlignment c);
               view_length := N.of_nat (length (transform g)) |}
            (BindVertices (vertex_buffer g)
               {| cmd_label := "RuntimeEffectContents";
                  cmd_pipeline := Some p;
                  stencil_reference := GetStencilDepth entity;
                  cmd_vertices := None; bindings := [] |}))
      {| functions := functions w; pipelines := pipelines w;
         dirty := dirty w;
         transients :=
           transients w
           ++ replicate
                (N.to_nat (padding_for (N.of_nat (length (transients w)))
                             (DefaultUniformAlignment c))) Byte.x00
           ++ transform g;
         commands := commands w; log := log w;
         trace := trace w ++ [EvEmplace (N.of_nat (length (transform g)))
                                (DefaultUniformAlignment c)] |}.
Proof. reflexivity. Qed.

(** C1, as the code has it.  When the call has obtained its pipeline and the
    layout has a first entry [u] of an unsupported kind, after entries [pre]
    whose inputs the caller supplied, [Render] returns true; the last message
    it logs names [u]; after the vertex uniforms it makes one call for each
    entry of [pre] and none for [u] or the entries after it; and it adds no
    command to the pass and restores no clip. *)
Theorem unsupported_uniform_truncates w w0 g p w1 pre u post :
  uniforms = pre ++ u :: post →
  ¬ supported u →
  Forall supported pre →
  Forall (float_data_in_range self) pre →
  (count_kind kSampledImage pre ≤ length (texture_inputs_ self))%nat →
  N.of_nat (length pre) < size_t_modulus →
  N.of_nat (length (uniform_data_ self)) < size_t_modulus →
  get_or_register_shader c self w = Next tt w0 →
  get_or_create_pipeline c self entity w0 = Next (g, p) w1 →
  ∃ w' evs,
    Render c self entity w = Returned true w'
    ∧ log w'
      = log w1 ++ [("Unsupported uniform type for " +:+ name u +:+ ".")%string]
    ∧ trace w'
      = trace w1 ++ EvEmplace (N.of_nat (length (transform g)))
                      (DefaultUniformAlignment c) :: evs
    ∧ length evs = length pre
    ∧ Forall binding_event evs
    ∧ commands w' = commands w
    ∧ Forall (λ e, ∀ cmd' entity',
                e ≠ EvAddCommand cmd' ∧ e ≠ EvClipRestoreRender entity')
        (Render_events c self entity w).
Proof.
  intros Hus Hu Hpre Hdata Htex Hlen Hblob Hshader Hpipeline.
  pose proof (start_command_starts g p w1) as Hstart.
  match type of Hstart with _ = Next ?cmd ?w => set (cmd0 := cmd) in *;
    set (w2 := w) in * end.
  destruct (bind_uniforms_supported c self pre 0 0 cmd0 w2)
    as (new & w3 & Hloop & _ & _); try assumption; try lia.
  { pose proof (count_supported pre Hpre).
    rewrite N.add_0_l. lia. }
  destruct (bind_uniforms_supported_trace c self pre _ _ _ _ _ _ Hpre Hloop)
    as ((evs & Ht3 & Hn & Hev) & Hl3).
  assert (Hsetup : Render_setup c self entity w
                   = Return true (set_log (log w3 ++ [unsupported_message u])
                                    w3)).
  { unfold Render_setup.
    rewrite (bind_Next _ _ _ _ _ Hshader).
    rewrite (bind_Next _ _ _ _ _ Hpipeline).
    rewrite (bind_Next _ _ _ _ _ Hstart).
    apply bind_Return. rewrite Hus, bind_uniforms_app.
    rewrite (bind_Next _ _ _ _ _ Hloop). cbn [bind_uniforms].
    apply bind_Return. now apply bind_uniform_unsupported. }
  exists (set_log (log w3 ++ [unsupported_message u]) w3), evs.
  split; [|split; [|split; [|split; [|split; [|split]]]]].
  - unfold Render, call. rewrite Render_body_setup.
    now rewrite (bind_Return _ _ _ _ _ Hsetup).
  - cbn [set_log log]. rewrite Hl3. reflexivity.
  - cbn [set_log trace]. rewrite Ht3. unfold w2. cbn [trace].
    now rewrite <- app_assoc.
  - exact Hn.
  - exact Hev.
  - pose proof (Render_setup_commands c self entity w) as Hc.
    rewrite Hsetup in Hc. exact Hc.
  - destruct (Render_setup_emits c self entity w) as (setup & Ht & Hsetup_ev).
    rewrite Hsetup in Ht. cbn [step_world] in Ht.
    unfold Render_events, Render, call. rewrite Render_body_setup.
    rewrite (bind_Return _ _ _ _ _ Hsetup). cbn [final_world].
    rewrite (events_since_app _ _ _ Ht).
    eapply Forall_impl; [exact Hsetup_ev|].
    intros [] He cmd' entity'; now split.
Qed.

End Submission.

Lemma clip_restore_decides_result_witness :
  result (Render Example.collaborators
            (Example.contents Example.float_image_float_image) Example.entity
            Example.clean) = Some false.
Proof.
  refine (proj1 (clip_restore_decides_result Example.collaborators
                   (Example.contents Example.float_image_float_image)
                   Example.entity Example.clean Example.submitted_command
                   _ _)).
  - reflexivity.
  - vm_compute. repeat constructor.
Defined.

Lemma overdraw_correction_witness :
  ∃ setup,
    Render_events Example.collaborators
      (Example.contents Example.float_image_float_image) Example.entity
      Example.clean
    = setup ++ [EvAddCommand Example.submitted_command;
                EvClipRestoreRender Example.entity].
Proof.
  destruct (overdraw_correction Example.collaborators
              (Example.contents Example.float_image_float_image)
              Example.entity Example.clean Example.submitted_command)
    as (setup & Hevents & _).
  - vm_compute. repeat constructor.
  - exists setup. exact Hevents.
Defined.

(** The layout [[float, boolean, float]]: the first float is bound, the
    boolean ends the call with true, the second float is never reached. *)
Lemma unsupported_uniform_truncates_witness :
  ∃ w' (evs : list Event),
    Render Example.collaborators (Example.contents Example.float_bool_float)
      Example.entity Example.clean = Returned true w'
    ∧ last (log w') = Some "Unsupported uniform type for b."%string
    ∧ length evs = 1%nat
    ∧ commands w' = [].
Proof.
  destruct (unsupported_uniform_truncates Example.collaborators
              (Example.contents Example.float_bool_float) Example.entity
              Example.clean Example.shader_resolved
              (resolve_geometry Example.collaborators Example.entity)
              Example.obtained_pipeline Example.pipeline_obtained
              [Example.uniform "a" 0 kFloat] (Example.uniform "b" 0 kBoolean)
              [Example.uniform "c" 1 kFloat])
    as (w' & evs & Hrender & Hlog & _ & Hn & _ & Hcommands & _).
  - reflexivity.
  - by_evaluation.
  - by_evaluation.
  - by_evaluation.
  - vm_compute. lia.
  - reflexivity.
  - reflexivity.
  - vm_compute. reflexivity.
  - vm_compute. reflexivity.
  - exists w', evs. split; [exact Hrender|].
    split; [rewrite Hlog; apply last_snoc|].
    split; [exact Hn|exact Hcommands].
Defined.

(** C1, as the spec has it, fails on the submission: with the layout
    [[float, boolean, float]] the call returns true, but it adds no command
    to the pass. *)
Lemma unsupported_uniform_submits_nothing :
  result (Render Example.collaborators
            (Example.contents Example.float_bool_float) Example.entity
            Example.clean) = Some true
  ∧ commands (final_world (Render Example.collaborators
                             (Example.contents Example.float_bool_float)
                             Example.entity Example.clean)) = []
  ∧ ¬ ∃ cmd,
        EvAddCommand cmd
        ∈ Render_events Example.collaborators
            (Example.contents Example.float_bool_float) Example.entity
            Example.clean.
Proof.
  split; [reflexivity|]. split; [reflexivity|].
  intros [cmd Hin]. vm_compute in Hin.
  repeat (apply elem_of_cons in Hin as [Hin|Hin]; [discriminate|]).
  now apply elem_of_nil in Hin.
Qed.

(** * The vertex layout warning *)

Lemma erase_log_fields w1 w2 :
  erase_log w1 = erase_log w2 ↔
  functions w1 = functions w2 ∧ pipelines w1 = pipelines w2
  ∧ dirty w1 = dirty w2 ∧ transients w1 = transients w2
  ∧ commands w1 = commands w2 ∧ trace w1 = trace w2.
Proof.
  unfold erase_log, set_log. split.
  - intros [= -> -> -> -> -> ->]. repeat split.
  - intros (-> & -> & -> & -> & -> & ->). reflexivity.
Qed.

Lemma log_blind_bind {A B} (m1 m2 : M A) (f1 f2 : A → M B) :
  log_blind m1 m2 → (∀ a, log_blind (f1 a) (f2 a)) →
  log_blind (bind m1 f1) (bind m2 f2).
Proof.
  intros Hm Hf w1 w2 Hw. specialize (Hm w1 w2 Hw). unfold bind.
  destruct (m1 w1), (m2 w2); cbn in Hm; try contradiction;
    destruct Hm as [<- Hw']; [now apply Hf|now split..].
Qed.

Lemma log_blind_ret {A} (a : A) : log_blind (ret a) (ret a).
Proof. now intros w1 w2 Hw. Qed.

Lemma log_blind_return {A} b : log_blind (return_ b : M A) (return_ b).
Proof. now intros w1 w2 Hw. Qed.

Lemma log_blind_undefined {A} k : log_blind (undefined k : M A) (undefined k).
Proof. now intros w1 w2 Hw. Qed.

Lemma log_blind_gets {A} (f : World → A) :
  (∀ w1 w2, erase_log w1 = erase_log w2 → f w1 = f w2) →
  log_blind (gets f) (gets f).
Proof. intros Hf w1 w2 Hw. split; [now apply Hf|exact Hw]. Qed.

Lemma log_blind_modify (f : World → World) :
  (∀ w1 w2, erase_log w1 = erase_log w2 → erase_log (f w1) = erase_log (f w2)) →
  log_blind (modify f) (modify f).
Proof. intros Hf w1 w2 Hw. split; [reflexivity|now apply Hf]. Qed.

(** Logging is not seen. *)
Lemma log_blind_log_l msg : log_blind (VALIDATION_LOG msg) (ret tt).
Proof. intros w1 w2 Hw. split; [reflexivity|exact Hw]. Qed.

Lemma log_blind_log msg : log_blind (VALIDATION_LOG msg) (VALIDATION_LOG msg).
Proof. intros w1 w2 Hw. split; [reflexivity|exact Hw]. Qed.

(** Follows the common structure of two bodies. *)
Ltac blind :=
  repeat match goal with
  | |- log_blind (bind _ _) (bind _ _) =>
      apply log_blind_bind; [|intros ?; cbv beta]
  | |- log_blind (ret _) (ret _) => apply log_blind_ret
  | |- log_blind (return_ _) (return_ _) => apply log_blind_return
  | |- log_blind (undefined _) (undefined _) => apply log_blind_undefined
  | |- log_blind (VALIDATION_LOG _) (VALIDATION_LOG _) => apply log_blind_log
  | |- log_blind (gets _) (gets _) =>
      apply log_blind_gets;
      intros ? ? (? & ? & ? & ? & ? & ?)%erase_log_fields; congruence
  | |- log_blind (emit _) (emit _) =>
      apply log_blind_modify;
      intros ? ? (? & ? & ? & ? & ? & ?)%erase_log_fields;
      apply erase_log_fields; run; repeat split; congruence
  | |- log_blind (modify _) (modify _) =>
      apply log_blind_modify;
      intros ? ? (? & ? & ? & ? & ? & ?)%erase_log_fields;
      apply erase_log_fields; run; repeat split; congruence
  | |- log_blind (match ?x with _ => _ end) (match ?x with _ => _ end) =>
      destruct x
  end.

Section Warning.
Context (c : Collaborators) (self : RuntimeEffectContents) (entity : Entity).

Lemma bind_uniforms_log_blind us : ∀ bi si cmd,
  log_blind (bind_uniforms c self us bi si cmd)
    (bind_uniforms c self us bi si cmd).
Proof.
  induction us as [|u us IH]; intros bi si cmd; cbn [bind_uniforms].
  - apply log_blind_ret.
  - apply log_blind_bind; [|intros [si' cmd']; apply IH].
    unfold bind_uniform, Emplace. blind.
Qed.

Lemma assemble_and_submit_log_blind g p :
  log_blind (assemble_and_submit c self entity g p)
    (assemble_and_submit c self entity g p).
Proof.
  unfold assemble_and_submit.
  apply log_blind_bind; [|intros cmd].
  { unfold start_command, EmplaceUniform, Emplace. blind. }
  apply log_blind_bind; [apply bind_uniforms_log_blind|intros [[? ?] cmd']].
  unfold submit, AddCommand. blind.
Qed.

(** The binding loop and the submission do not call [SetStageInputs]. *)
Lemma bind_uniforms_SetStageInputs ok us : ∀ bi si cmd w,
  bind_uniforms (with_SetStageInputs_result ok c) self us bi si cmd w
  = bind_uniforms c self us bi si cmd w.
Proof.
  induction us as [|u us IH]; intros bi si cmd w; cbn [bind_uniforms];
    [reflexivity|].
  unfold bind.
  change (bind_uniform (with_SetStageInputs_result ok c) self u bi si cmd w)
    with (bind_uniform c self u bi si cmd w).
  destruct (bind_uniform c self u bi si cmd w) as [[si' cmd'] w'| |];
    [apply IH|reflexivity..].
Qed.

Lemma assemble_and_submit_SetStageInputs ok g p w :
  assemble_and_submit (with_SetStageInputs_result ok c) self entity g p w
  = assemble_and_submit c self entity g p w.
Proof.
  unfold assemble_and_submit, bind.
  change (start_command (with_SetStageInputs_result ok c) entity g p w)
    with (start_command c entity g p w).
  destruct (start_command c entity g p w) as [cmd w'| |]; [|reflexivity..].
  cbn [GetUniforms]. rewrite bind_uniforms_SetStageInputs.
  destruct (bind_uniforms c self _ 0 0 cmd w') as [[[? ?] ?] ?| |];
    reflexivity.
Qed.

(** The boolean that [SetStageInputs] returns decides about one message in
    the log, and about nothing else. *)
Lemma Render_body_log_blind ok1 ok2 :
  log_blind (Render_body (with_SetStageInputs_result ok1 c) self entity)
    (Render_body (with_SetStageInputs_result ok2 c) self entity).
Proof.
  unfold Render_body.
  apply log_blind_bind; [|intros _].
  { unfold get_or_register_shader, register_shader, RegisterFunction,
      GetFunction, RemovePipelinesWithEntryPoint, UnregisterFunction.
    cbn [backend_compile with_SetStageInputs_result]. blind. }
  change (log_blind
            (draw (with_SetStageInputs_result ok1 c) self entity)
            (draw (with_SetStageInputs_result ok2 c) self entity)).
  unfold draw. apply log_blind_bind; [|intros [g p]].
  - unfold get_or_create_pipeline, GetPipeline, GetFunction.
    cbn [SetStageInputs with_SetStageInputs_result VS_kEntrypointName
         VS_kAllShaderStageInputs resolve_geometry backend_build_pipeline
         snd].
    apply log_blind_bind; [blind|intros _].
    apply log_blind_bind; [blind|intros v].
    apply log_blind_bind; [blind|intros f].
    apply log_blind_bind.
    + destruct ok1, ok2; cbn [negb].
      * apply log_blind_ret.
      * intros w1 w2 Hw. split; [reflexivity|exact Hw].
      * apply log_blind_log_l.
      * apply log_blind_log.
    + intros _.
      change (runtime_stage_descriptor (with_SetStageInputs_result ok1 c))
        with (runtime_stage_descriptor c).
      change (runtime_stage_descriptor (with_SetStageInputs_result ok2 c))
        with (runtime_stage_descriptor c).
      blind.
  - intros w1 w2 Hw. rewrite !assemble_and_submit_SetStageInputs.
    now apply assemble_and_submit_log_blind.
Qed.

Lemma logs_bind {A B} (m : M A) (f : A → M B) :
  logs m → (∀ a, logs (f a)) → logs (bind m f).
Proof.
  intros Hm Hf w. destruct (Hm w) as (l1 & Hl1). unfold bind.
  destruct (m w) as [a w1| |]; [|now exists l1..].
  destruct (Hf a w1) as (l2 & Hl2). cbn [step_world] in Hl1.
  exists (l1 ++ l2). now rewrite Hl2, Hl1, app_assoc.
Qed.

Lemma logs_preserves {A} (m : M A) : preserves log m → logs m.
Proof. intros H w. exists []. now rewrite app_nil_r. Qed.

Lemma logs_log msg : logs (VALIDATION_LOG msg).
Proof. intros w. now exists [msg]. Qed.

Ltac logging :=
  repeat match goal with
  | |- logs (bind _ _) => apply logs_bind; [|intros ?; cbv beta]
  | |- logs (VALIDATION_LOG _) => apply logs_log
  | |- logs (match ?x with _ => _ end) => destruct x
  | |- logs _ => apply logs_preserves; frame; reflexivity
  end.

Lemma shader_logs : logs (get_or_register_shader c self).
Proof.
  unfold get_or_register_shader, register_shader, RegisterFunction,
    GetFunction, RemovePipelinesWithEntryPoint, UnregisterFunction.
  logging.
Qed.

Lemma assemble_and_submit_logs c' g p :
  logs (assemble_and_submit c' self entity g p).
Proof.
  unfold assemble_and_submit.
  apply logs_bind; [|intros cmd].
  { unfold start_command, EmplaceUniform, Emplace. logging. }
  apply logs_bind; [|intros [[? ?] cmd']].
  { intros w. now destruct (bind_uniforms_quiet c' self
                              (GetUniforms (runtime_stage_ self)) 0 0 cmd w)
      as (_ & _ & Hl). }
  unfold submit, AddCommand. logging.
Qed.

(** C8.  Whether [SetStageInputs] fails or succeeds, [Render] returns the
    same value and leaves the same world behind, up to the log: the failure
    alone never makes it return false.  When the shader is resolved, the call
    in which [SetStageInputs] fails logs the diagnostic and goes on to look
    the pipeline up. *)
Theorem stage_inputs_failure_is_not_fatal w :
  let failing := with_SetStageInputs_result false c in
  let passing := with_SetStageInputs_result true c in
  result (Render failing self entity w) = result (Render passing self entity w)
  ∧ erase_log (final_world (Render failing self entity w))
    = erase_log (final_world (Render passing self entity w))
  ∧ ∀ w0,
      get_or_register_shader c self w = Next tt w0 →
      stage_inputs_message ∈ Render_log failing self entity w
      ∧ ∃ d, EvGetPipeline d ∈ Render_events failing self entity w.
Proof.
  cbn zeta. split; [|split].
  - pose proof (Render_body_log_blind false true w w eq_refl) as H.
    unfold Render, call.
    destruct (Render_body _ self entity w), (Render_body _ self entity w);
      cbn in H; try contradiction; destruct H as [-> _]; reflexivity.
  - pose proof (Render_body_log_blind false true w w eq_refl) as H.
    unfold Render, call.
    destruct (Render_body _ self entity w), (Render_body _ self entity w);
      cbn in H; try contradiction; destruct H as [_ H]; exact H.
  - intros w0 Hshader.
    set (failing := with_SetStageInputs_result false c).
    destruct (shader_logs w) as (l0 & Hl0).
    destruct (shader_emits c self entity w) as (evs0 & Ht0 & _).
    rewrite Hshader in Hl0, Ht0. cbn [step_world] in Hl0, Ht0.
    assert (Hfinal : final_world (Render failing self entity w)
                     = step_world (draw failing self entity w0)).
    { rewrite Render_after_shader.
      change (get_or_register_shader failing self w)
        with (get_or_register_shader c self w).
      now rewrite Hshader. }
    unfold Render_log, Render_events. rewrite Hfinal. unfold draw.
    set (d := lookup_descriptor failing self entity w0).
    set (w1 := before_lookup failing self entity w0).
    assert (Hw1 : log w1 = log w ++ l0 ++ [stage_inputs_message]
                  ∧ ∃ evs, trace w1 = trace w ++ evs ∧ EvGetPipeline d ∈ evs).
    { unfold w1. cbn [before_lookup log trace]. rewrite Hl0, Ht0. split.
      - now rewrite <- app_assoc.
      - eexists. rewrite <- app_assoc. split; [reflexivity|].
        rewrite elem_of_app, !elem_of_cons. auto 10. }
    destruct Hw1 as (Hl1 & evs1 & Ht1 & Hd).
    assert (Hgoal : ∀ wf l2 evs2,
      log wf = log w1 ++ l2 → trace wf = trace w1 ++ evs2 →
      stage_inputs_message ∈ drop (length (log w)) (log wf)
      ∧ ∃ d, EvGetPipeline d ∈ events_since w wf).
    { intros wf l2 evs2 Hl2 Ht2. split.
      - rewrite Hl2, Hl1, <- !app_assoc, drop_app_length.
        rewrite !elem_of_app, list_elem_of_singleton. auto.
      - exists d. erewrite events_since_app
          by (rewrite Ht2, Ht1, <- app_assoc; reflexivity).
        rewrite elem_of_app. auto. }
    destruct (find_pipeline d (pipelines w0)) as [p|] eqn:Hfind.
    + rewrite (bind_Next _ _ _ _ _
                 (get_or_create_pipeline_hit failing self entity w0 p Hfind)).
      fold w1.
      destruct (assemble_and_submit_logs failing
                  (resolve_geometry failing entity) p w1) as (l2 & Hl2).
      destruct (assemble_and_submit_emits failing self entity
                  (resolve_geometry failing entity) p w1) as (evs2 & Ht2 & _).
      eapply Hgoal; eassumption.
    + destruct (backend_build_pipeline failing d) as [handle|] eqn:Hbuild.
      * rewrite (bind_Next _ _ _ _ _
                   (get_or_create_pipeline_built failing self entity w0 handle
                      Hfind Hbuild)).
        fold d w1.
        match goal with
        | |- context [step_world (assemble_and_submit _ _ _ ?g ?p ?w2)] =>
            destruct (assemble_and_submit_logs failing g p w2) as (l2 & Hl2);
            destruct (assemble_and_submit_emits failing self entity g p w2)
              as (evs2 & Ht2 & _)
        end.
        cbn [set_pipelines set_trace log trace] in Hl2, Ht2.
        rewrite <- app_assoc in Ht2. eapply Hgoal; eassumption.
      * rewrite (bind_Return _ _ _ _ _
                   (get_or_create_pipeline_rejected failing self entity w0
                      Hfind Hbuild)).
        fold d w1. cbn [step_world].
        eapply Hgoal; cbn [set_log set_trace log trace]; reflexivity.
Qed.

End Warning.

Lemma stage_inputs_failure_is_not_fatal_witness :
  stage_inputs_message
  ∈ Render_log (with_SetStageInputs_result false Example.collaborators)
      (Example.contents Example.float_image_float_image) Example.entity
      Example.clean.
Proof.
  destruct (stage_inputs_failure_is_not_fatal Example.collaborators
              (Example.contents Example.float_image_float_image)
              Example.entity Example.clean) as (_ & _ & Hlogged).
  destruct (Hlogged Example.shader_resolved) as [Hin _].
  - vm_compute. reflexivity.
  - exact Hin.
Defined.

(** * The paths through the method *)

Lemma final_world_call (m : M bool) w :
  final_world (call m w) = step_world (m w).
Proof. unfold call. now destruct (m w). Qed.

Lemma find_pipeline_app desc cache p :
  find_pipeline desc cache = None →
  find_pipeline desc (cache ++ [(desc, p)]) = Some p.
Proof.
  induction cache as [|[key q] cache IH]; cbn.
  - intros _. now rewrite decide_True.
  - case_decide; [discriminate|exact IH].
Qed.

Lemma eviction_is_registration e : eviction_event e → registration_event e.
Proof. now destruct e. Qed.

Lemma binding_is_assembly e : binding_event e → assembly_event e.
Proof. now destruct e. Qed.

Lemma assembly_is_no_registration e : assembly_event e → ¬ registration_event e.
Proof. now destruct e. Qed.

Section Paths.
Context (c : Collaborators) (self : RuntimeEffectContents) (entity : Entity).

Local Abbreviation entrypoint := (GetEntrypoint (runtime_stage_ self)).
Local Abbreviation stage := (GetShaderStage (runtime_stage_ self)).
Local Abbreviation code := (GetCodeMapping (runtime_stage_ self)).
Local Abbreviation geometry := (resolve_geometry c entity).
Local Abbreviation uniforms := (GetUniforms (runtime_stage_ self)).

(** The three ways into the rest of the method: the function is there and
    the stage is clean, the function is there and the stage is dirty, the
    function is missing. *)
Lemma Render_body_clean w f :
  functions w !! (entrypoint, kFragment) = Some f → dirty w = false →
  Render_body c self entity w
  = draw c self entity
      (set_trace (trace w ++ [EvGetFunction entrypoint kFragment]) w).
Proof.
  intros Hf Hd. rewrite Render_body_draw.
  exact (bind_Next _ _ _ _ _ (shader_found_clean c self w f Hf Hd)).
Qed.

Lemma Render_body_dirty w f :
  functions w !! (entrypoint, kFragment) = Some f → dirty w = true →
  Render_body c self entity w
  = register_and_draw c self entity (invalidated self f w).
Proof.
  intros Hf Hd. rewrite Render_body_draw. unfold register_and_draw, bind.
  now rewrite (shader_found_dirty c self w f Hf Hd).
Qed.

Lemma Render_body_missing w :
  functions w !! (entrypoint, kFragment) = None →
  Render_body c self entity w
  = register_and_draw c self entity
      (set_trace (trace w ++ [EvGetFunction entrypoint kFragment]) w).
Proof.
  intros Hf. rewrite Render_body_draw. unfold register_and_draw, bind.
  now rewrite (shader_missing c self w Hf).
Qed.

(** The events of a call whose body continues as [m] in the world [w0]. *)
Lemma Render_events_from (m : M bool) (P : Event → Prop) w w0 pre :
  Render_body c self entity w = m w0 →
  trace w0 = trace w ++ pre →
  emits P m →
  ∃ evs, Render_events c self entity w = pre ++ evs ∧ Forall P evs.
Proof.
  intros Hbody Ht Hm. unfold Render_events, Render.
  rewrite final_world_call, Hbody.
  destruct (Hm w0) as (evs & Ht' & HP). exists evs. split; [|exact HP].
  apply events_since_app. now rewrite Ht', Ht, app_assoc.
Qed.

Lemma bind_uniforms_assembly us bi si cmd :
  emits assembly_event (bind_uniforms c self us bi si cmd).
Proof.
  intros w.
  destruct (bind_uniforms_quiet c self us bi si cmd w)
    as (_ & (evs & Ht & Hev) & _).
  exists evs. split; [exact Ht|]. eapply Forall_impl; [exact Hev|].
  apply binding_is_assembly.
Qed.

Lemma assemble_and_submit_assembly g p :
  emits assembly_event (assemble_and_submit c self entity g p).
Proof.
  unfold assemble_and_submit, start_command, EmplaceUniform, Emplace, submit,
    AddCommand.
  frame; try reflexivity; try exact I.
  apply bind_uniforms_assembly.
Qed.

Lemma assemble_and_submit_functions g p :
  preserves functions (assemble_and_submit c self entity g p).
Proof.
  unfold assemble_and_submit, start_command, EmplaceUniform, Emplace,
    submit, AddCommand.
  frame; try reflexivity.
  apply bind_uniforms_preserves. now intros ? ? [].
Qed.

Lemma draw_functions : preserves functions (draw c self entity).
Proof.
  unfold draw, assemble_and_submit, get_or_create_pipeline, GetPipeline,
    GetFunction, start_command, EmplaceUniform, Emplace, submit, AddCommand.
  frame; try reflexivity.
  apply bind_uniforms_preserves. now intros ? ? [].
Qed.

Lemma draw_no_registration :
  emits (λ e, ¬ registration_event e) (draw c self entity).
Proof.
  unfold draw. apply emits_bind; [|intros [g p]].
  - unfold get_or_create_pipeline, GetPipeline, GetFunction.
    frame; try reflexivity; now intros [].
  - eapply emits_weaken; [|apply assemble_and_submit_assembly].
    apply assembly_is_no_registration.
Qed.

Lemma register_and_draw_no_eviction :
  emits (λ e, ¬ eviction_event e) (register_and_draw c self entity).
Proof.
  unfold register_and_draw. apply emits_bind; [|intros _].
  - unfold register_shader, RegisterFunction, GetFunction.
    frame; try reflexivity; now intros [].
  - eapply emits_weaken; [|apply draw_no_registration].
    intros e He Hev. apply He, eviction_is_registration, Hev.
Qed.

End Paths.

(** * The clean path and the eviction *)

Section Clean.
Context (c : Collaborators) (self : RuntimeEffectContents) (entity : Entity).

Local Abbreviation entrypoint := (GetEntrypoint (runtime_stage_ self)).
Local Abbreviation stage := (GetShaderStage (runtime_stage_ self)).
Local Abbreviation code := (GetCodeMapping (runtime_stage_ self)).


(** X2.  [Render] evicts the pipelines of a function and unregisters the
    entry point exactly when it finds the fragment function in the library
    while the stage is dirty, and the function whose pipelines it evicts is
    the one it found. *)
Theorem eviction_only_when_dirty w :
  (∀ f, EvRemovePipelinesWithEntryPoint f ∈ Render_events c self entity w
        ↔ functions w !! (entrypoint, kFragment) = Some f ∧ dirty w = true)
  ∧ (∀ e s, EvUnregisterFunction e s ∈ Render_events c self entity w
            ↔ (e = entrypoint ∧ s = kFragment
               ∧ is_Some (functions w !! (entrypoint, kFragment))
               ∧ dirty w = true)).
Proof.
  assert (Hnone : ∀ evs e, Forall (λ e, ¬ eviction_event e) evs →
                           eviction_event e → e ∉ evs).
  { intros evs e Hall He Hin. eapply Forall_forall in Hall; [|exact Hin].
    now apply Hall. }
  destruct (functions w !! (entrypoint, kFragment)) as [f0|] eqn:Hf;
    [destruct (dirty w) eqn:Hd|].
  - destruct (Render_events_from c self entity (register_and_draw c self entity)
                (λ e, ¬ eviction_event e) w _
                [EvGetFunction entrypoint kFragment;
                 EvRemovePipelinesWithEntryPoint f0;
                 EvUnregisterFunction entrypoint kFragment]
                (Render_body_dirty c self entity w f0 Hf Hd) eq_refl
                (register_and_draw_no_eviction c self entity))
      as (evs & -> & HP).
    split.
    + intros f. cbn [app]. rewrite !elem_of_cons. split.
      * intros [[=]|[[= ->]|[[=]|Hin]]]; [now split|].
        now apply (Hnone evs _ HP) in Hin.
      * intros [[= ->] _]. auto.
    + intros e s. cbn [app]. rewrite !elem_of_cons. split.
      * intros [[=]|[[=]|[[= -> ->]|Hin]]]; [now eauto|].
        now apply (Hnone evs _ HP) in Hin.
      * intros (-> & -> & _). auto.
  - destruct (Render_events_from c self entity (draw c self entity)
                (λ e, ¬ registration_event e) w _
                [EvGetFunction entrypoint kFragment]
                (Render_body_clean c self entity w f0 Hf Hd) eq_refl
                (draw_no_registration c self entity))
      as (evs & -> & HP).
    assert (HP' : Forall (λ e, ¬ eviction_event e) evs).
    { eapply Forall_impl; [exact HP|].
      intros e He Hev. apply He, eviction_is_registration, Hev. }
    split.
    + intros f. cbn [app]. rewrite !elem_of_cons. split.
      * intros [[=]|Hin]. now apply (Hnone evs _ HP') in Hin.
      * intros [_ [=]].
    + intros e s. cbn [app]. rewrite !elem_of_cons. split.
      * intros [[=]|Hin]. now apply (Hnone evs _ HP') in Hin.
      * intros (_ & _ & _ & [=]).
  - destruct (Render_events_from c self entity (register_and_draw c self entity)
                (λ e, ¬ eviction_event e) w _
                [EvGetFunction entrypoint kFragment]
                (Render_body_missing c self entity w Hf) eq_refl
                (register_and_draw_no_eviction c self entity))
      as (evs & -> & HP).
    split.
    + intros f. cbn [app]. rewrite !elem_of_cons. split.
      * intros [[=]|Hin]. now apply (Hnone evs _ HP) in Hin.
      * intros [[=] _].
    + intros e s. cbn [app]. rewrite !elem_of_cons. split.
      * intros [[=]|Hin]. now apply (Hnone evs _ HP) in Hin.
      * intros (_ & _ & [? [=]] & _).
Qed.

(** X3.  [Render] changes the shader library under the two keys of its
    entry point only: a function registered under any other key is still
    there, and a key that had none still has none. *)
Theorem other_functions_untouched w k :
  k ≠ (entrypoint, kFragment) → k ≠ (entrypoint, stage) →
  functions (final_world (Render c self entity w)) !! k = functions w !! k.
Proof.
  intros Hk1 Hk2. unfold Render. rewrite final_world_call.
  revert w. change (preserves (λ w, functions w !! k)
                      (Render_body c self entity)).
  rewrite Render_body_draw. apply preserves_bind; [|intros _].
  - unfold get_or_register_shader, register_shader, RegisterFunction,
      GetFunction, RemovePipelinesWithEntryPoint, UnregisterFunction.
    frame; cbn [set_functions set_pipelines set_dirty set_log set_trace
                functions]; try reflexivity.
    + now apply lookup_delete_ne.
    + now apply lookup_insert_ne.
  - intros w'. cbv beta. now rewrite draw_functions.
Qed.

End Clean.


Lemma other_functions_untouched_witness :
  functions (final_world (Render Example.collaborators (Example.contents [])
                            Example.entity Example.reloaded))
  !! ("runtime_effect_vertex_main"%string, kVertex)
  = Some Example.vertex_main.
Proof.
  rewrite (other_functions_untouched Example.collaborators
             (Example.contents []) Example.entity Example.reloaded
             ("runtime_effect_vertex_main"%string, kVertex)).
  - reflexivity.
  - by_evaluation.
  - by_evaluation.
Defined.

(** * How the binding loop ends *)

Section Outcomes.
Context (c : Collaborators) (self : RuntimeEffectContents).

Lemma bind_uniform_Next u bi si cmd w si' cmd' w1 :
  bind_uniform c self u bi si cmd w = Next (si', cmd') w1 →
  supported u ∧ ∃ b, cmd' = BindResource b cmd.
Proof.
  unfold bind_uniform, Emplace, supported.
  destruct (type u);
    [destruct (texture_inputs_ self !! N.to_nat si)
    |destruct (read_bytes _ _ _)|..];
    run; try discriminate; intros [= <- <- <-]; eauto.
Qed.

Lemma bind_uniform_Return u bi si cmd w b w1 :
  bind_uniform c self u bi si cmd w = Return b w1 →
  b = true ∧ ¬ supported u
  ∧ w1 = set_log (log w ++ [unsupported_message u]) w.
Proof.
  destruct (decide (supported u)) as [Hs|Hs].
  - unfold bind_uniform, Emplace.
    destruct Hs as [-> | ->];
      [destruct (texture_inputs_ self !! N.to_nat si)
      |destruct (read_bytes _ _ _)]; run; discriminate.
  - rewrite (bind_uniform_unsupported c self u bi si cmd w Hs).
    intros [= <- <-]. auto.
Qed.

Lemma bind_uniform_Undefined u bi si cmd w k w1 :
  bind_uniform c self u bi si cmd w = Undefined k w1 →
  (type u = kSampledImage ∧ k = TextureInputOutOfRange si
   ∧ (length (texture_inputs_ self) ≤ N.to_nat si)%nat)
  ∨ (type u = kFloat
     ∧ k = UniformDataOutOfRange (size_t_mul (location u) sizeof_float)
             (GetSize u)
     ∧ N.of_nat (length (uniform_data_ self))
       < size_t_mul (location u) sizeof_float + GetSize u).
Proof.
  unfold bind_uniform, Emplace.
  destruct (type u) eqn:Hty;
    [destruct (texture_inputs_ self !! N.to_nat si) eqn:Hin
    |unfold read_bytes; case_decide as Hrange|..];
    run; try discriminate; intros [= <- <-].
  - left. repeat split. now apply lookup_ge_None_1.
  - right. repeat split. lia.
Qed.

Lemma bind_uniforms_Next us : ∀ bi si cmd w bi' si' cmd' w',
  bind_uniforms c self us bi si cmd w = Next (bi', si', cmd') w' →
  Forall supported us
  ∧ ∃ new, cmd' = bind_all new cmd ∧ length new = length us.
Proof.
  induction us as [|u us IH]; intros bi si cmd w bi' si' cmd' w' Hrun.
  - injection Hrun as <- <- <- <-. split; [constructor|].
    exists []. now rewrite bind_all_nil.
  - cbn [bind_uniforms] in Hrun. unfold bind in Hrun.
    destruct (bind_uniform c self u bi si cmd w)
      as [[si1 cmd1] w1| |] eqn:Hstep; [|discriminate..].
    apply bind_uniform_Next in Hstep as (Hu & b & ->).
    apply IH in Hrun as (Hsup & new & -> & Hn).
    split; [now constructor|].
    exists (b :: new). rewrite bind_all_cons. cbn [length]. auto.
Qed.

Lemma bind_uniforms_Return us : ∀ bi si cmd w b w',
  bind_uniforms c self us bi si cmd w = Return b w' →
  b = true
  ∧ ∃ u, u ∈ us ∧ ¬ supported u
         ∧ last (log w') = Some (unsupported_message u).
Proof.
  induction us as [|u us IH]; intros bi si cmd w b w' Hrun; [discriminate|].
  cbn [bind_uniforms] in Hrun. unfold bind in Hrun.
  destruct (bind_uniform c self u bi si cmd w)
    as [[si1 cmd1] w1|b1 w1|] eqn:Hstep; [| |discriminate].
  - apply IH in Hrun as (-> & u' & Hin & Hu' & Hlog).
    split; [reflexivity|]. exists u'. split; [|auto].
    now apply list_elem_of_further.
  - injection Hrun as <- <-.
    apply bind_uniform_Return in Hstep as (-> & Hu & ->).
    split; [reflexivity|]. exists u. split; [apply list_elem_of_here|].
    split; [exact Hu|]. cbn [set_log log]. apply last_snoc.
Qed.

Lemma bind_uniforms_Undefined us : ∀ bi si cmd w k w',
  bind_uniforms c self us bi si cmd w = Undefined k w' →
  (∃ i, k = TextureInputOutOfRange i
        ∧ (length (texture_inputs_ self) ≤ N.to_nat i)%nat)
  ∨ (∃ u, u ∈ us ∧ type u = kFloat
          ∧ k = UniformDataOutOfRange
                  (size_t_mul (location u) sizeof_float) (GetSize u)
          ∧ N.of_nat (length (uniform_data_ self))
            < size_t_mul (location u) sizeof_float + GetSize u).
Proof.
  induction us as [|u us IH]; intros bi si cmd w k w' Hrun; [discriminate|].
  cbn [bind_uniforms] in Hrun. unfold bind in Hrun.
  destruct (bind_uniform c self u bi si cmd w)
    as [[si1 cmd1] w1| |k1 w1] eqn:Hstep; [|discriminate|].
  - apply IH in Hrun as [Htex|(u' & Hin & Hrest)]; [now left|right].
    exists u'. split; [now apply list_elem_of_further|exact Hrest].
  - injection Hrun as <- <-.
    apply bind_uniform_Undefined in Hstep
      as [(_ & -> & Hlen)|(Hty & -> & Hlen)]; [left; eauto|right].
    exists u. split; [apply list_elem_of_here|auto].
Qed.

(** X4.  The three ways the binding loop ends.  It runs to its end only
    when every entry of the layout is a sampled image or a float, and then
    the command has gained one binding for each entry.  It leaves [Render]
    early only with [return true], for an entry of another kind whose message
    is the last one logged.  Its only undefined behaviour is a sampled image
    without a texture input and a float whose bytes lie outside the uniform
    data. *)
Theorem binding_loop_outcomes us bi si cmd w :
  match bind_uniforms c self us bi si cmd w with
  | Next (_, _, cmd') _ =>
      Forall supported us
      ∧ ∃ new, cmd' = bind_all new cmd ∧ length new = length us
  | Return b w' =>
      b = true
      ∧ ∃ u, u ∈ us ∧ ¬ supported u
             ∧ last (log w') = Some (unsupported_message u)
  | Undefined k _ =>
      (∃ i, k = TextureInputOutOfRange i
            ∧ (length (texture_inputs_ self) ≤ N.to_nat i)%nat)
      ∨ (∃ u, u ∈ us ∧ type u = kFloat
              ∧ k = UniformDataOutOfRange
                      (size_t_mul (location u) sizeof_float) (GetSize u)
              ∧ N.of_nat (length (uniform_data_ self))
                < size_t_mul (location u) sizeof_float + GetSize u)
  end.
Proof.
  destruct (bind_uniforms c self us bi si cmd w)
    as [[[bi' si'] cmd'] w'|b w'|k w'] eqn:Hrun.
  - eapply bind_uniforms_Next, Hrun.
  - eapply bind_uniforms_Return, Hrun.
  - eapply bind_uniforms_Undefined, Hrun.
Qed.


End Outcomes.

(** * The command and the pass *)

Section Command.
Context (c : Collaborators) (self : RuntimeEffectContents) (entity : Entity).

Local Abbreviation entrypoint := (GetEntrypoint (runtime_stage_ self)).
Local Abbreviation geometry := (resolve_geometry c entity).
Local Abbreviation uniforms := (GetUniforms (runtime_stage_ self)).

(** A pipeline that was obtained is in the cache under the descriptor it was
    looked up with. *)
Lemma get_or_create_pipeline_Next w0 g p w' :
  get_or_create_pipeline c self entity w0 = Next (g, p) w' →
  g = geometry
  ∧ find_pipeline (lookup_descriptor c self entity w0) (pipelines w') = Some p
  ∧ functions w' = functions w0 ∧ dirty w' = dirty w0
  ∧ ∃ evs, trace w' = trace (before_lookup c self entity w0) ++ evs
           ∧ (find_pipeline (lookup_descriptor c self entity w0) (pipelines w0)
              = Some p → evs = [] ∧ pipelines w' = pipelines w0).
Proof.
  destruct (find_pipeline (lookup_descriptor c self entity w0) (pipelines w0))
    as [q|] eqn:Hfind.
  - rewrite (get_or_create_pipeline_hit c self entity w0 q Hfind).
    intros [= <- <- <-]. cbn [before_lookup functions pipelines dirty].
    repeat split; [exact Hfind|]. exists []. now rewrite app_nil_r.
  - destruct (backend_build_pipeline c (lookup_descriptor c self entity w0))
      as [handle|] eqn:Hbuild.
    + rewrite (get_or_create_pipeline_built c self entity w0 handle
                 Hfind Hbuild).
      intros [= <- <- <-].
      cbn [before_lookup set_pipelines set_trace functions pipelines dirty
           trace].
      repeat split; [now apply find_pipeline_app|].
      eexists. split; [reflexivity|discriminate].
    + now rewrite (get_or_create_pipeline_rejected c self entity w0
                     Hfind Hbuild).
Qed.

(** A setup that reaches its end went through each of its sections. *)
Lemma Render_setup_inv w g cmd w1 :
  Render_setup c self entity w = Next (g, cmd) w1 →
  ∃ w0 p w' cmd0 w2 bi si,
    get_or_register_shader c self w = Next tt w0
    ∧ get_or_create_pipeline c self entity w0 = Next (g, p) w'
    ∧ start_command c entity g p w' = Next cmd0 w2
    ∧ bind_uniforms c self uniforms 0 0 cmd0 w2 = Next (bi, si, cmd) w1.
Proof.
  unfold Render_setup, bind.
  destruct (get_or_register_shader c self w) as [[] w0| |] eqn:E0;
    [|discriminate..].
  destruct (get_or_create_pipeline c self entity w0) as [[g' p] w'| |] eqn:E1;
    [|discriminate..].
  destruct (start_command c entity g' p w') as [cmd0 w2| |] eqn:E2;
    [|discriminate..].
  destruct (bind_uniforms c self uniforms 0 0 cmd0 w2)
    as [[[bi si] cmd'] w3| |] eqn:E3; [|discriminate..].
  intros [= <- <- <-]. exists w0, p, w', cmd0, w2, bi, si. auto.
Qed.

(** A call either ends in its setup, without a command, or submits the
    command of the setup. *)
Lemma Render_ends w :
  let wf := final_world (Render c self entity w) in
  (∃ setup, Render_events c self entity w = setup
            ∧ Forall (setup_event c entity) setup
            ∧ commands wf = commands w
            ∧ ∀ r w1, Render_setup c self entity w ≠ Next r w1)
  ∨ (∃ cmd w1 setup,
       Render_setup c self entity w = Next (geometry, cmd) w1
       ∧ Forall (setup_event c entity) setup
       ∧ Render_events c self entity w
         = setup ++ EvAddCommand cmd
                 :: (if prevent_overdraw geometry
                     then [EvClipRestoreRender entity] else [])
       ∧ wf = submitted c entity cmd w1
       ∧ commands wf = commands w ++ [cmd]).
Proof.
  cbn zeta. unfold Render_events, Render. rewrite final_world_call.
  rewrite Render_body_setup. unfold bind.
  destruct (Render_setup_emits c self entity w) as (setup & Ht & Hsetup).
  pose proof (Render_setup_commands c self entity w) as Hcmds.
  destruct (Render_setup c self entity w) as [[g cmd] w1|b w1|k w1] eqn:E;
    cbn [step_world] in *.
  - right. apply Render_setup_geometry in E as Hg. subst g.
    rewrite submit_submits. cbn [step_world].
    exists cmd, w1, setup. split; [reflexivity|]. split; [exact Hsetup|].
    split; [|split; [reflexivity|]].
    + apply events_since_app. cbn [submitted trace].
      now rewrite Ht, <- app_assoc.
    + cbn [submitted commands]. now rewrite Hcmds.
  - left. exists setup. rewrite (events_since_app _ _ _ Ht).
    repeat split; [exact Hsetup|exact Hcmds|discriminate].
  - left. exists setup. rewrite (events_since_app _ _ _ Ht).
    repeat split; [exact Hsetup|exact Hcmds|discriminate].
Qed.

Lemma setup_adds_no_command setup :
  Forall (setup_event c entity) setup →
  (∀ cmd, EvAddCommand cmd ∉ setup) ∧ (∀ e, EvClipRestoreRender e ∉ setup).
Proof.
  intros Hall.
  split; intros x Hin; eapply Forall_forall in Hall; try exact Hin;
    exact Hall.
Qed.

(** X5.  When the layout has an entry that is neither a sampled image nor
    a float, wherever it stands, [Render] adds no command to the pass and
    restores no clip: the commands of the pass are the same when it ends. *)
Theorem unsupported_never_submits w u :
  u ∈ uniforms → ¬ supported u →
  (∀ cmd, EvAddCommand cmd ∉ Render_events c self entity w)
  ∧ (∀ e, EvClipRestoreRender e ∉ Render_events c self entity w)
  ∧ commands (final_world (Render c self entity w)) = commands w.
Proof.
  intros Hin Hu.
  destruct (Render_ends w)
    as [(setup & -> & Hsetup & Hcmds & _)
       |(cmd & w1 & setup & Hrun & _)].
  - destruct (setup_adds_no_command setup Hsetup) as [Hadd Hclip].
    auto.
  - exfalso.
    apply Render_setup_inv in Hrun
      as (w0 & p & w' & cmd0 & w2 & bi & si & _ & _ & _ & Hloop).
    apply bind_uniforms_Next in Hloop as [Hsup _].
    eapply Forall_forall in Hsup; [|exact Hin]. contradiction.
Qed.


(** X7.  The command [Render] adds to the pass carries the label
    "RuntimeEffectContents", the stencil depth of the entity as its stencil
    reference, the vertex buffer of the resolved geometry, and a pipeline
    that is in the cache when the call ends.  Its first binding is the
    vertex-stage [VertInfo] buffer, a view as long as the transform of the
    geometry; after it comes one binding for each entry of the layout, and
    every entry is a sampled image or a float. *)
Theorem submitted_command_shape w cmd :
  EvAddCommand cmd ∈ Render_events c self entity w →
  cmd_label cmd = "RuntimeEffectContents"%string
  ∧ stencil_reference cmd = GetStencilDepth entity
  ∧ cmd_vertices cmd = Some (vertex_buffer geometry)
  ∧ (∃ d p, cmd_pipeline cmd = Some p
            ∧ (d, p) ∈ pipelines (final_world (Render c self entity w)))
  ∧ (∃ view rest,
       bindings cmd
       = BufferBinding kVertex (VS_kResourceVertInfo c) EmptyMetadata view
         :: rest
       ∧ view_length view = N.of_nat (length (transform geometry))
       ∧ length rest = length uniforms)
  ∧ Forall supported uniforms.
Proof.
  intros Hadd.
  destruct (Render_submits c self entity w cmd Hadd)
    as (setup & w1 & Hsetup & _ & _ & ->).
  apply Render_setup_inv in Hsetup
    as (w0 & p & w' & cmd0 & w2 & bi & si & _ & Hpipe & Hstart & Hloop).
  apply get_or_create_pipeline_Next in Hpipe as (_ & Hfind & _).
  rewrite start_command_starts in Hstart. injection Hstart as <- <-.
  match type of Hloop with
  | bind_uniforms _ _ _ _ _ ?cmd0 ?w2 = _ =>
      destruct (bind_uniforms_quiet c self uniforms 0 0 cmd0 w2)
        as ([_ Hps _ _] & _)
  end.
  rewrite Hloop in Hps. cbn [step_world pipelines] in Hps.
  apply bind_uniforms_Next in Hloop as (Hsup & new & -> & Hn).
  cbn [final_world submitted pipelines bind_all BindVertInfo BindResource
       BindVertices cmd_label stencil_reference cmd_vertices cmd_pipeline
       bindings app].
  repeat split; [|eexists _, new; repeat split; exact Hn|exact Hsup].
  exists (lookup_descriptor c self entity w0), p.
  split; [reflexivity|]. rewrite Hps. now apply find_pipeline_Some.
Qed.


End Command.

Lemma unsupported_never_submits_witness :
  commands (final_world (Render Example.collaborators
                           (Example.contents Example.float_bool_float)
                           Example.entity Example.fresh))
  = commands Example.fresh.
Proof.
  apply (unsupported_never_submits Example.collaborators
           (Example.contents Example.float_bool_float) Example.entity
           Example.fresh (Example.uniform "b" 0 kBoolean)).
  - apply list_elem_of_further, list_elem_of_here.
  - by_evaluation.
Defined.

Lemma submitted_command_shape_witness :
  stencil_reference Example.submitted_command = 3
  ∧ Forall supported Example.float_image_float_image.
Proof.
  destruct (submitted_command_shape Example.collaborators
              (Example.contents Example.float_image_float_image)
              Example.entity Example.clean Example.submitted_command)
    as (_ & Href & _ & _ & _ & Hsup).
  - vm_compute. repeat constructor.
  - split; [exact Href|exact Hsup].
Defined.


(** * The ways [Render] fails *)

Section Failure.
Context (c : Collaborators) (self : RuntimeEffectContents) (entity : Entity).

Local Abbreviation entrypoint := (GetEntrypoint (runtime_stage_ self)).
Local Abbreviation stage := (GetShaderStage (runtime_stage_ self)).
Local Abbreviation code := (GetCodeMapping (runtime_stage_ self)).
Local Abbreviation geometry := (resolve_geometry c entity).
Local Abbreviation uniforms := (GetUniforms (runtime_stage_ self)).

(** The block of [if (!function)], entered without the function in the
    library, leaves the method only with false and one of its two
    diagnostics, and falls through only with the function in the library and
    the stage clean. *)
Lemma register_shader_ends w0 :
  functions w0 !! (entrypoint, kFragment) = None →
  match register_shader c self w0 with
  | Next _ w1 =>
      is_Some (functions w1 !! (entrypoint, kFragment))
      ∧ dirty w1 = false ∧ log w1 = log w0
  | Return b w1 =>
      b = false
      ∧ functions w1 !! (entrypoint, kFragment) = None
      ∧ dirty w1 = dirty w0
      ∧ ∃ msg, log w1 = log w0 ++ [msg]
               ∧ (msg = build_failed_message (runtime_stage_ self)
                  ∨ msg = fetch_failed_message (runtime_stage_ self))
  | Undefined _ _ => False
  end.
Proof.
  intros Hnone.
  destruct (backend_compile c entrypoint stage code) as [|visible] eqn:Hc.
  - rewrite (register_failed c self w0 Hc). cbn [functions dirty log].
    eauto 10.
  - destruct (registry_after self visible (functions w0)
              !! (entrypoint, kFragment)) as [g|] eqn:Hfetch.
    + rewrite (register_succeeded_fetched c self w0 visible g Hc Hfetch).
      cbn [functions dirty log]. rewrite Hfetch. eauto.
    + rewrite (register_succeeded_lost c self w0 visible Hc Hfetch).
      cbn [functions dirty log]. eauto 10.
Qed.

(** So does "get or register shader" as a whole. *)
Lemma shader_ends w :
  match get_or_register_shader c self w with
  | Next _ w0 =>
      is_Some (functions w0 !! (entrypoint, kFragment))
      ∧ dirty w0 = false ∧ log w0 = log w
  | Return b w0 =>
      b = false
      ∧ functions w0 !! (entrypoint, kFragment) = None
      ∧ dirty w0 = dirty w
      ∧ ∃ msg, log w0 = log w ++ [msg]
               ∧ (msg = build_failed_message (runtime_stage_ self)
                  ∨ msg = fetch_failed_message (runtime_stage_ self))
  | Undefined _ _ => False
  end.
Proof.
  destruct (functions w !! (entrypoint, kFragment)) as [f|] eqn:Hf;
    [destruct (dirty w) eqn:Hd|].
  - rewrite (shader_found_dirty c self w f Hf Hd).
    pose proof (register_shader_ends (invalidated self f w)) as H.
    cbn [invalidated functions dirty log] in H. rewrite <- Hd.
    apply H, lookup_delete_eq.
  - rewrite (shader_found_clean c self w f Hf Hd).
    cbn [set_trace functions dirty log]. rewrite Hf. eauto.
  - rewrite (shader_missing c self w Hf).
    exact (register_shader_ends
             (set_trace (trace w ++ [EvGetFunction entrypoint kFragment]) w)
             Hf).
Qed.





Lemma get_or_create_pipeline_Return w0 b w' :
  get_or_create_pipeline c self entity w0 = Return b w' →
  b = false
  ∧ ∃ msgs, log w' = log w0 ++ msgs ++ [pipeline_failed_message].
Proof.
  destruct (find_pipeline (lookup_descriptor c self entity w0) (pipelines w0))
    as [q|] eqn:Hfind.
  - now rewrite (get_or_create_pipeline_hit c self entity w0 q Hfind).
  - destruct (backend_build_pipeline c (lookup_descriptor c self entity w0))
      as [handle|] eqn:Hbuild.
    + now rewrite (get_or_create_pipeline_built c self entity w0 handle
                     Hfind Hbuild).
    + rewrite (get_or_create_pipeline_rejected c self entity w0
                 Hfind Hbuild).
      intros [= <- <-]. split; [reflexivity|].
      cbn [set_log set_trace before_lookup log]. eexists.
      now rewrite <- app_assoc.
Qed.

(** A setup that leaves the method with false has just logged why. *)
Lemma Render_setup_Return w b w1 :
  Render_setup c self entity w = Return b w1 →
  b = true
  ∨ ∃ msgs msg, log w1 = log w ++ msgs ++ [msg] ∧ failure_message self msg.
Proof.
  unfold Render_setup, bind. pose proof (shader_ends w) as Hends.
  destruct (get_or_register_shader c self w) as [[] w0|b0 w0|]; [| |easy].
  - destruct Hends as (_ & _ & Hlog0).
    destruct (get_or_create_pipeline c self entity w0)
      as [[g p] w'|b1 w'|] eqn:Hpipe; [| |discriminate].
    + rewrite start_command_starts.
      match goal with
      | |- context [bind_uniforms c self ?us ?bi ?si ?cmd0 ?w2] =>
          destruct (bind_uniforms c self us bi si cmd0 w2)
            as [[[? ?] ?] ?| |] eqn:Hloop; [discriminate| |discriminate]
      end.
      intros [= <- <-]. left.
      now apply bind_uniforms_Return in Hloop as [-> _].
    + intros [= <- <-]. right.
      apply get_or_create_pipeline_Return in Hpipe as (_ & msgs & ->).
      exists msgs, pipeline_failed_message. rewrite Hlog0.
      split; [reflexivity|]. unfold failure_message. auto.
  - intros [= <- <-]. right.
    destruct Hends as (_ & _ & _ & msg & -> & Hmsg).
    exists [], msg. split; [reflexivity|].
    unfold failure_message. tauto.
Qed.

(** X10.  [Render] never returns false silently: when it returns false,
    either the last message it logged is one of its three diagnostics (the
    shader could not be built, could not be fetched after the registration,
    or the pipeline could not be obtained), or it has added its command and
    the clip-restore draw, which it ran last, returned false. *)
Theorem false_is_never_silent w :
  result (Render c self entity w) = Some false →
  (∃ msg, last (Render_log c self entity w) = Some msg
          ∧ failure_message self msg)
  ∨ (prevent_overdraw geometry = true
     ∧ clip_restore_result c entity = false
     ∧ last (Render_events c self entity w)
       = Some (EvClipRestoreRender entity)).
Proof.
  unfold Render_log, Render_events, Render, call.
  rewrite Render_body_setup. unfold bind.
  destruct (Render_setup_emits c self entity w) as (setup & Ht & _).
  destruct (Render_setup c self entity w) as [[g cmd] w1|b w1|k w1] eqn:E;
    cbn [step_world] in Ht.
  - apply Render_setup_geometry in E as Hg. subst g.
    rewrite submit_submits. cbn [result final_world].
    destruct (prevent_overdraw geometry) eqn:Hprevent; [|discriminate].
    intros [= Hclip]. right. split; [reflexivity|]. split; [exact Hclip|].
    erewrite events_since_app
      by (cbn [submitted trace]; rewrite Ht, <- app_assoc; reflexivity).
    rewrite last_app_cons, Hprevent. reflexivity.
  - cbn [result final_world]. intros [= ->]. left.
    apply Render_setup_Return in E as [[=]|(msgs & msg & -> & Hmsg)].
    exists msg. split; [|exact Hmsg].
    rewrite drop_app_length. apply last_snoc.
  - discriminate.
Qed.

(** X11.  A runtime stage that is not a fragment stage cannot be rendered
    once it has to be registered: the function is registered under the stage
    of the runtime stage but fetched under the fragment stage, so the call
    returns false with one of the two shader diagnostics, whether the backend
    compiled the shader or not.  It resolves no geometry, looks up no
    pipeline, and leaves the dirty flag as it was. *)
Theorem non_fragment_stage_is_not_fetched w :
  stage ≠ kFragment →
  functions w !! (entrypoint, kFragment) = None ∨ dirty w = true →
  let r := Render c self entity w in
  result r = Some false
  ∧ Render_log c self entity w
    = [match backend_compile c entrypoint stage code with
       | CompileFailed => build_failed_message (runtime_stage_ self)
       | CompileSucceeded _ => fetch_failed_message (runtime_stage_ self)
       end]
  ∧ dirty (final_world r) = dirty w
  ∧ functions (final_world r) !! (entrypoint, kFragment) = None
  ∧ Forall (λ e, invalidation_event e ∨ e = EvRegisterFunction entrypoint stage)
      (Render_events c self entity w).
Proof.
  intros Hstage Hneeds.
  destruct (shader_attempts_registration c self w Hneeds)
    as (w0 & evs0 & Hshader & Hfs & _ & Hdirty & Hlog & Htrace & Hevs).
  cbn zeta. unfold Render_log, Render_events.
  rewrite Render_result_after_shader, Render_after_shader, Hshader.
  assert (Hevs' : Forall (λ e, invalidation_event e
                               ∨ e = EvRegisterFunction entrypoint stage)
                    (EvGetFunction entrypoint kFragment :: evs0)).
  { constructor; [now left|]. eapply Forall_impl; [exact Hevs|]. auto. }
  destruct (backend_compile c entrypoint stage code) as [|visible] eqn:Hc.
  - rewrite (register_failed c self w0 Hc).
    cbn [functions dirty log trace]. rewrite Hfs, Hlog, Htrace, Hdirty.
    split; [reflexivity|]. split; [apply drop_app_length|].
    split; [reflexivity|]. split; [apply lookup_delete_eq|].
    rewrite <- app_assoc. erewrite events_since_app by reflexivity.
    cbn [app]. rewrite app_comm_cons. apply Forall_app.
    split; [exact Hevs'|]. constructor; [now right|constructor].
  - assert (Hfetch : registry_after self visible (functions w0)
                     !! (entrypoint, kFragment) = None).
    { rewrite Hfs. destruct visible as [g|]; cbn [registry_after].
      - rewrite lookup_insert_ne by congruence. apply lookup_delete_eq.
      - apply lookup_delete_eq. }
    rewrite (register_succeeded_lost c self w0 visible Hc Hfetch).
    cbn [functions dirty log trace]. rewrite Hlog, Htrace, Hdirty.
    split; [reflexivity|]. split; [apply drop_app_length|].
    split; [reflexivity|]. split; [exact Hfetch|].
    rewrite <- app_assoc. erewrite events_since_app by reflexivity.
    cbn [app]. rewrite app_comm_cons. apply Forall_app.
    split; [exact Hevs'|].
    constructor; [now right|]. constructor; [now left|constructor].
Qed.

End Failure.

(** X12.  After a call in which the shader had to be registered and the
    backend compiler failed, the next call of [Render] on the same contents,
    whatever the backend does then, attempts the registration again right
    after its lookup, without another eviction. *)
Theorem failed_registration_is_retried c c' self entity entity' w :
  functions w !! (GetEntrypoint (runtime_stage_ self), kFragment) = None
  ∨ dirty w = true →
  backend_compile c (GetEntrypoint (runtime_stage_ self))
    (GetShaderStage (runtime_stage_ self))
    (GetCodeMapping (runtime_stage_ self)) = CompileFailed →
  ∃ rest,
    Render_events c' self entity' (final_world (Render c self entity w))
    = EvGetFunction (GetEntrypoint (runtime_stage_ self)) kFragment
      :: EvRegisterFunction (GetEntrypoint (runtime_stage_ self))
           (GetShaderStage (runtime_stage_ self))
      :: rest.
Proof.
  intros Hneeds Hfail.
  destruct (shader_attempts_registration c self w Hneeds)
    as (w0 & evs0 & Hshader & Hfs & _).
  rewrite Render_after_shader, Hshader, (register_failed c self w0 Hfail).
  match goal with
  | |- context [Render_events _ _ _ ?w1] => set (wf := w1)
  end.
  assert (Hmissing : functions wf
                     !! (GetEntrypoint (runtime_stage_ self), kFragment)
                     = None).
  { unfold wf. cbn [functions]. rewrite Hfs. apply lookup_delete_eq. }
  unfold Render_events, Render.
  rewrite final_world_call, (Render_body_missing c' self entity' wf Hmissing).
  unfold register_and_draw, bind.
  match goal with
  | |- context [register_shader c' self ?w1] =>
      destruct (register_shader_trace c' self w1) as (evs1 & Hreg);
      destruct (register_shader c' self w1) as [[] w2|b w2|k w2]
  end; cbn [step_world set_trace trace] in *.
  - destruct (draw_emits c' self entity' w2) as (evs & Hdraw & _).
    exists (evs1 ++ evs). apply events_since_app.
    rewrite Hdraw, Hreg, <- !app_assoc. reflexivity.
  - exists evs1. apply events_since_app.
    rewrite Hreg, <- !app_assoc. reflexivity.
  - exists evs1. apply events_since_app.
    rewrite Hreg, <- !app_assoc. reflexivity.
Qed.


Lemma false_is_never_silent_witness :
  (∃ msg, last (Render_log Example.failing (Example.contents [])
                  Example.entity Example.fresh) = Some msg
          ∧ failure_message (Example.contents []) msg)
  ∨ (prevent_overdraw (resolve_geometry Example.failing Example.entity) = true
     ∧ clip_restore_result Example.failing Example.entity = false
     ∧ last (Render_events Example.failing (Example.contents [])
               Example.entity Example.fresh)
       = Some (EvClipRestoreRender Example.entity)).
Proof.
  apply (false_is_never_silent Example.failing (Example.contents [])
           Example.entity Example.fresh).
  vm_compute. reflexivity.
Defined.

Lemma non_fragment_stage_is_not_fetched_witness :
  result (Render Example.collaborators Example.vertex_effect Example.entity
            Example.fresh) = Some false.
Proof.
  apply (non_fragment_stage_is_not_fetched Example.collaborators
           Example.vertex_effect Example.entity Example.fresh).
  - discriminate.
  - left. reflexivity.
Defined.

Lemma failed_registration_is_retried_witness :
  ∃ rest,
    Render_events Example.collaborators (Example.contents []) Example.entity
      (final_world (Render Example.failing (Example.contents [])
                      Example.entity Example.reloaded))
    = EvGetFunction "effect" kFragment
      :: EvRegisterFunction "effect" kFragment :: rest.
Proof.
  apply (failed_registration_is_retried Example.failing Example.collaborators
           (Example.contents []) Example.entity Example.entity
           Example.reloaded).
  - right. reflexivity.
  - reflexivity.
Defined.

(** * The pipeline cache across calls *)

Section Cache.
Context (c : Collaborators) (self : RuntimeEffectContents) (entity : Entity).

Local Abbreviation entrypoint := (GetEntrypoint (runtime_stage_ self)).
Local Abbreviation geometry := (resolve_geometry c entity).
Local Abbreviation uniforms := (GetUniforms (runtime_stage_ self)).

Lemma shader_keeps_pipelines w entry :
  entry ∈ pipelines w →
  (∀ f, functions w !! (entrypoint, kFragment) = Some f → dirty w = true →
        ¬ references_function f entry.1) →
  entry ∈ pipelines (step_world (get_or_register_shader c self w)).
Proof.
  intros Hin Hother.
  destruct (functions w !! (entrypoint, kFragment)) as [f|] eqn:Hf;
    [destruct (dirty w) eqn:Hd|].
  - rewrite (shader_found_dirty c self w f Hf Hd), register_shader_pipelines.
    cbn [invalidated pipelines]. apply list_elem_of_filter.
    split; [exact (Hother f eq_refl eq_refl)|exact Hin].
  - rewrite (shader_found_clean c self w f Hf Hd). exact Hin.
  - rewrite (shader_missing c self w Hf), register_shader_pipelines.
    exact Hin.
Qed.

Lemma draw_keeps_pipelines w entry :
  entry ∈ pipelines w → entry ∈ pipelines (step_world (draw c self entity w)).
Proof.
  intros Hin. unfold draw.
  destruct (find_pipeline (lookup_descriptor c self entity w) (pipelines w))
    as [p|] eqn:Hfind.
  - rewrite (bind_Next _ _ _ _ _
               (get_or_create_pipeline_hit c self entity w p Hfind)).
    rewrite assemble_and_submit_pipelines. exact Hin.
  - destruct (backend_build_pipeline c (lookup_descriptor c self entity w))
      as [handle|] eqn:Hbuild.
    + rewrite (bind_Next _ _ _ _ _
                 (get_or_create_pipeline_built c self entity w handle
                    Hfind Hbuild)).
      rewrite assemble_and_submit_pipelines. cbn [set_pipelines pipelines].
      apply elem_of_app. now left.
    + rewrite (bind_Return _ _ _ _ _
                 (get_or_create_pipeline_rejected c self entity w
                    Hfind Hbuild)).
      exact Hin.
Qed.

(** X13.  A pipeline that is in the cache when [Render] is called is still
    there when it ends, unless the stage is dirty and the pipeline refers to
    the fragment function registered for the entry point. *)
Theorem other_pipelines_stay_cached w entry :
  entry ∈ pipelines w →
  (∀ f, functions w !! (entrypoint, kFragment) = Some f → dirty w = true →
        ¬ references_function f entry.1) →
  entry ∈ pipelines (final_world (Render c self entity w)).
Proof.
  intros Hin Hother. rewrite Render_after_shader.
  pose proof (shader_keeps_pipelines w entry Hin Hother) as Hkept.
  destruct (get_or_register_shader c self w) as [[] w0| |];
    cbn [step_world] in Hkept; [|exact Hkept..].
  now apply draw_keeps_pipelines.
Qed.

(** The command the loop hands over carries the pipeline the command was
    started with, and the loop and the vertex uniforms leave the libraries
    alone. *)
Lemma command_pipeline g p w' cmd0 w2 bi si cmd w1 :
  start_command c entity g p w' = Next cmd0 w2 →
  bind_uniforms c self uniforms 0 0 cmd0 w2 = Next (bi, si, cmd) w1 →
  cmd_pipeline cmd = Some p ∧ quiet w' w1.
Proof.
  rewrite start_command_starts. intros [= <- <-] Hloop.
  match type of Hloop with
  | bind_uniforms _ _ _ _ _ ?cmd0 ?w2 = _ =>
      destruct (bind_uniforms_quiet c self uniforms 0 0 cmd0 w2) as (Hq & _)
  end.
  rewrite Hloop in Hq. cbn [step_world] in Hq.
  apply bind_uniforms_Next in Hloop as (_ & new & -> & _).
  split; [reflexivity|]. destruct Hq as [H1 H2 H3 H4].
  split; [rewrite H1|rewrite H2|rewrite H3|rewrite H4]; reflexivity.
Qed.

Lemma lookup_descriptor_functions w1 w2 :
  functions w1 = functions w2 →
  lookup_descriptor c self entity w1 = lookup_descriptor c self entity w2.
Proof. unfold lookup_descriptor. now intros ->. Qed.

(** After a call that submitted its command the function is registered, the
    stage is clean and the pipeline of the command is cached under the
    descriptor the next call will look up. *)
Lemma after_submission w cmd :
  EvAddCommand cmd ∈ Render_events c self entity w →
  let w' := final_world (Render c self entity w) in
  ∃ p, cmd_pipeline cmd = Some p
       ∧ is_Some (functions w' !! (entrypoint, kFragment))
       ∧ dirty w' = false
       ∧ find_pipeline (lookup_descriptor c self entity w') (pipelines w')
         = Some p.
Proof.
  intros Hadd. cbn zeta.
  destruct (Render_submits c self entity w cmd Hadd)
    as (setup & w1 & Hsetup & _ & _ & ->).
  apply Render_setup_inv in Hsetup
    as (w0 & p & wp & cmd0 & w2 & bi & si & Hsh & Hpipe & Hstart & Hloop).
  pose proof (shader_ends c self w) as Hends. rewrite Hsh in Hends.
  destruct Hends as (Hreg & Hclean & _).
  apply get_or_create_pipeline_Next in Hpipe as (_ & Hfind & Hfs & Hd & _).
  destruct (command_pipeline _ _ _ _ _ _ _ _ _ Hstart Hloop)
    as (Hp & [Hqf Hqp Hqd _]).
  exists p. cbn [final_world submitted functions pipelines dirty].
  split; [exact Hp|]. rewrite Hqf, Hqd, Hfs, Hd, Hqp.
  split; [exact Hreg|]. split; [exact Hclean|].
  erewrite lookup_descriptor_functions; [exact Hfind|].
  cbn [submitted functions]. now rewrite Hqf, Hfs.
Qed.

(** A call that finds the function, the stage clean and the pipeline in the
    cache goes straight to the command. *)
Lemma Render_body_cached w f p :
  functions w !! (entrypoint, kFragment) = Some f → dirty w = false →
  find_pipeline (lookup_descriptor c self entity w) (pipelines w) = Some p →
  Render_body c self entity w
  = assemble_and_submit c self entity geometry p
      (before_lookup c self entity
         (set_trace (trace w ++ [EvGetFunction entrypoint kFragment]) w)).
Proof.
  intros Hf Hd Hfind.
  rewrite (Render_body_clean c self entity w f Hf Hd). unfold draw.
  now rewrite (bind_Next _ _ _ _ _
                 (get_or_create_pipeline_hit c self entity
                    (set_trace
                       (trace w ++ [EvGetFunction entrypoint kFragment]) w)
                    p Hfind)).
Qed.

(** X14.  After a call of [Render] that added its command to the pass, the
    next call with the same contents and entity reuses the cached pipeline:
    it registers, unregisters and evicts nothing, builds no pipeline, leaves
    the shader library and the pipeline cache as they are, and a command it
    adds carries the same pipeline as the command of the first call. *)
Theorem pipeline_is_reused w cmd :
  EvAddCommand cmd ∈ Render_events c self entity w →
  let w' := final_world (Render c self entity w) in
  let r' := Render c self entity w' in
  pipelines (final_world r') = pipelines w'
  ∧ functions (final_world r') = functions w'
  ∧ Forall (λ e, ¬ registration_event e ∧ ∀ d, e ≠ EvBuildPipeline d)
      (Render_events c self entity w')
  ∧ ∀ cmd', EvAddCommand cmd' ∈ Render_events c self entity w' →
            cmd_pipeline cmd' = cmd_pipeline cmd.
Proof.
  intros Hadd.
  destruct (after_submission w cmd Hadd) as (p & Hp & [f Hf] & Hd & Hfind).
  cbn zeta. set (w' := final_world (Render c self entity w)) in *.
  pose proof (Render_body_cached w' f p Hf Hd Hfind) as Hbody.
  split; [|split; [|split]].
  - unfold Render. rewrite final_world_call, Hbody.
    now rewrite assemble_and_submit_pipelines.
  - unfold Render. rewrite final_world_call, Hbody.
    now rewrite assemble_and_submit_functions.
  - destruct (Render_events_from c self entity
                (assemble_and_submit c self entity geometry p) assembly_event
                w' _
                [EvGetFunction entrypoint kFragment;
                 EvGetPositionBuffer entity;
                 EvGetFunction (VS_kEntrypointName c) kVertex;
                 EvGetFunction entrypoint kFragment;
                 EvGetPipeline
                   (lookup_descriptor c self entity
                      (set_trace
                         (trace w' ++ [EvGetFunction entrypoint kFragment])
                         w'))]
                Hbody) as (evs & -> & Hevs).
    + cbn [before_lookup set_trace trace]. now rewrite <- app_assoc.
    + apply assemble_and_submit_assembly.
    + apply Forall_app. split.
      * repeat constructor; solve [now intros []|discriminate].
      * eapply Forall_impl; [exact Hevs|].
        intros [] He; destruct He; split; solve [now intros []|discriminate].
  - intros cmd' Hadd'.
    destruct (Render_submits c self entity w' cmd' Hadd')
      as (setup & w1 & Hsetup & _).
    apply Render_setup_inv in Hsetup
      as (w0 & p' & wp & cmd0 & w2 & bi & si & Hsh & Hpipe & Hstart & Hloop).
    rewrite (shader_found_clean c self w' f Hf Hd) in Hsh.
    injection Hsh as <-.
    rewrite (get_or_create_pipeline_hit c self entity
               (set_trace (trace w' ++ [EvGetFunction entrypoint kFragment])
                  w') p Hfind) in Hpipe.
    injection Hpipe as <- <-.
    destruct (command_pipeline _ _ _ _ _ _ _ _ _ Hstart Hloop) as (Hp' & _).
    congruence.
Qed.

(** X15.  Every pipeline [Render] looks up or builds is one of the runtime
    stage: its descriptor carries the label "Runtime Stage", the default
    colour format with blending enabled on attachment 0, the default stencil
    pixel format and the primitive type of the resolved geometry. *)
Theorem looked_up_descriptor w d :
  EvGetPipeline d ∈ Render_events c self entity w
  ∨ EvBuildPipeline d ∈ Render_events c self entity w →
  label d = "Runtime Stage"%string
  ∧ color_attachment_0 d
    = Some {| format := kDefaultColor; blending_enabled := true |}
  ∧ stencil_pixel_format d = Some kDefaultStencil
  ∧ desc_primitive_type d = Some (geometry_type geometry).
Proof.
  assert (Hdesc : ∀ v f vd,
            let d := runtime_stage_descriptor c entity geometry v f vd in
            label d = "Runtime Stage"%string
            ∧ color_attachment_0 d
              = Some {| format := kDefaultColor; blending_enabled := true |}
            ∧ stencil_pixel_format d = Some kDefaultStencil
            ∧ desc_primitive_type d = Some (geometry_type geometry)).
  { intros v f vd. unfold runtime_stage_descriptor.
    destruct v as [v|], f as [f|]; repeat split. }
  assert (Hsetup : ∀ setup, Forall (setup_event c entity) setup →
            EvGetPipeline d ∈ setup ∨ EvBuildPipeline d ∈ setup →
            ∃ v f vd, d = runtime_stage_descriptor c entity geometry v f vd).
  { intros setup Hall [Hin|Hin];
      eapply Forall_forall in Hall; try exact Hin; exact Hall. }
  intros Hin.
  assert (Hd : ∃ v f vd,
            d = runtime_stage_descriptor c entity geometry v f vd).
  { destruct (Render_ends c self entity w)
      as [(setup & Hev & Hall & _)|(cmd & w1 & setup & _ & Hall & Hev & _)];
      rewrite Hev in Hin.
    - now apply (Hsetup setup).
    - apply (Hsetup setup Hall).
      rewrite !elem_of_app, !elem_of_cons in Hin.
      destruct Hin as [[Hin|[[=]|Hin]]|[Hin|[[=]|Hin]]]; auto;
        destruct (prevent_overdraw geometry);
        solve [ apply list_elem_of_singleton in Hin; discriminate
              | now apply elem_of_nil in Hin ]. }
  destruct Hd as (v & f & vd & ->). apply Hdesc.
Qed.

End Cache.

(** * The inputs the loop reads *)

Section Inputs.
Context (c : Collaborators) (self : RuntimeEffectContents) (entity : Entity).

Local Abbreviation uniforms := (GetUniforms (runtime_stage_ self)).

(** The sampler index after one entry. *)
Lemma bind_uniform_index s u bi si cmd w si' cmd' w1 :
  bind_uniform c s u bi si cmd w = Next (si', cmd') w1 →
  (type u = kSampledImage ∧ (N.to_nat si' ≤ S (N.to_nat si))%nat)
  ∨ (type u ≠ kSampledImage ∧ si' = si).
Proof.
  unfold bind_uniform, Emplace.
  destruct (type u);
    [destruct (texture_inputs_ s !! N.to_nat si)
    |destruct (read_bytes _ _ _)|..];
    run; try discriminate; intros [= <- <- <-].
  - left. split; [reflexivity|]. pose proof (size_t_incr_le si). lia.
  - right. split; [discriminate|reflexivity].
Qed.

Lemma bind_uniforms_extra_textures t extra us : ∀ bi si cmd w,
  (N.to_nat si + count_kind kSampledImage us ≤ length t)%nat →
  bind_uniforms c (SetTextureInputs (t ++ extra) self) us bi si cmd w
  = bind_uniforms c (SetTextureInputs t self) us bi si cmd w.
Proof.
  induction us as [|u us IH]; intros bi si cmd w Htex; [reflexivity|].
  cbn [bind_uniforms]. unfold bind.
  assert (Hstep :
    bind_uniform c (SetTextureInputs (t ++ extra) self) u bi si cmd w
    = bind_uniform c (SetTextureInputs t self) u bi si cmd w).
  { unfold bind_uniform.
    cbn [SetTextureInputs texture_inputs_ uniform_data_].
    destruct (type u) eqn:Hty; try reflexivity.
    rewrite lookup_app_l; [reflexivity|].
    rewrite count_kind_cons in Htex. unfold is_kind in Htex.
    rewrite decide_True in Htex by exact Hty. lia. }
  rewrite Hstep.
  destruct (bind_uniform c (SetTextureInputs t self) u bi si cmd w)
    as [[si' cmd'] w1| |] eqn:E; [|reflexivity..].
  apply IH. rewrite count_kind_cons in Htex. unfold is_kind in Htex.
  apply bind_uniform_index in E as [[Hty Hsi]|[Hty ->]].
  - rewrite decide_True in Htex by exact Hty. lia.
  - rewrite decide_False in Htex by exact Hty. exact Htex.
Qed.

(** X16.  [Render] reads no more texture inputs than the layout has
    sampled images: texture inputs set with [SetTextureInputs] beyond that
    number change neither what the call returns nor the world it leaves. *)
Theorem extra_texture_inputs_are_ignored t extra w :
  (count_kind kSampledImage uniforms ≤ length t)%nat →
  Render c (SetTextureInputs (t ++ extra) self) entity w
  = Render c (SetTextureInputs t self) entity w.
Proof.
  intros Htex. unfold Render, call.
  assert (Hbody : Render_body c (SetTextureInputs (t ++ extra) self) entity w
                  = Render_body c (SetTextureInputs t self) entity w).
  { unfold Render_body, bind.
    change (get_or_register_shader c (SetTextureInputs (t ++ extra) self))
      with (get_or_register_shader c (SetTextureInputs t self)).
    destruct (get_or_register_shader c (SetTextureInputs t self) w)
      as [[] w0| |]; [|reflexivity..].
    change (get_or_create_pipeline c (SetTextureInputs (t ++ extra) self))
      with (get_or_create_pipeline c (SetTextureInputs t self)).
    destruct (get_or_create_pipeline c (SetTextureInputs t self) entity w0)
      as [[g p] w1| |]; [|reflexivity..].
    destruct (start_command c entity g p w1) as [cmd0 w2| |];
      [|reflexivity..].
    cbn [SetTextureInputs runtime_stage_].
    change (bind_uniforms c
              {| runtime_stage_ := runtime_stage_ self;
                 uniform_data_ := uniform_data_ self;
                 texture_inputs_ := t ++ extra |})
      with (bind_uniforms c (SetTextureInputs (t ++ extra) self)).
    change (bind_uniforms c
              {| runtime_stage_ := runtime_stage_ self;
                 uniform_data_ := uniform_data_ self;
                 texture_inputs_ := t |})
      with (bind_uniforms c (SetTextureInputs t self)).
    rewrite bind_uniforms_extra_textures by (cbn; lia).
    reflexivity. }
  now rewrite Hbody.
Qed.

Lemma read_bytes_app data extra offset len :
  offset + len ≤ N.of_nat (length data) →
  read_bytes (data ++ extra) offset len = read_bytes data offset len.
Proof.
  intros Hrange. unfold read_bytes.
  rewrite !decide_True by (rewrite ?length_app; lia). f_equal.
  rewrite drop_app_le by lia. apply take_app_le.
  rewrite length_drop. lia.
Qed.

Lemma bind_uniforms_extra_data data extra us : ∀ bi si cmd w,
  Forall (float_data_in_range (SetUniformData data self)) us →
  N.of_nat (length data) < size_t_modulus →
  bind_uniforms c (SetUniformData (data ++ extra) self) us bi si cmd w
  = bind_uniforms c (SetUniformData data self) us bi si cmd w.
Proof.
  induction us as [|u us IH]; intros bi si cmd w Hdata Hlen; [reflexivity|].
  apply Forall_cons in Hdata as [Hu Hdata].
  cbn [bind_uniforms]. unfold bind.
  assert (Hstep :
    bind_uniform c (SetUniformData (data ++ extra) self) u bi si cmd w
    = bind_uniform c (SetUniformData data self) u bi si cmd w).
  { unfold bind_uniform.
    cbn [SetUniformData texture_inputs_ uniform_data_].
    destruct (type u) eqn:Hty; try reflexivity.
    rewrite read_bytes_app; [reflexivity|].
    specialize (Hu Hty). cbn [SetUniformData uniform_data_] in Hu.
    unfold size_t_mul. rewrite size_t_wrap_small by lia. exact Hu. }
  rewrite Hstep.
  destruct (bind_uniform c (SetUniformData data self) u bi si cmd w)
    as [[si' cmd'] w1| |]; [|reflexivity..].
  now apply IH.
Qed.

(** X17.  [Render] reads the uniform data only where the floats of the
    layout point: when the bytes of every float lie inside [data], bytes set
    with [SetUniformData] after them change neither what the call returns nor
    the world it leaves. *)
Theorem extra_uniform_data_is_ignored data extra w :
  Forall (float_data_in_range (SetUniformData data self)) uniforms →
  N.of_nat (length data) < size_t_modulus →
  Render c (SetUniformData (data ++ extra) self) entity w
  = Render c (SetUniformData data self) entity w.
Proof.
  intros Hdata Hlen. unfold Render, call.
  assert (Hbody : Render_body c (SetUniformData (data ++ extra) self) entity w
                  = Render_body c (SetUniformData data self) entity w).
  { unfold Render_body, bind.
    change (get_or_register_shader c (SetUniformData (data ++ extra) self))
      with (get_or_register_shader c (SetUniformData data self)).
    destruct (get_or_register_shader c (SetUniformData data self) w)
      as [[] w0| |]; [|reflexivity..].
    change (get_or_create_pipeline c (SetUniformData (data ++ extra) self))
      with (get_or_create_pipeline c (SetUniformData data self)).
    destruct (get_or_create_pipeline c (SetUniformData data self) entity w0)
      as [[g p] w1| |]; [|reflexivity..].
    destruct (start_command c entity g p w1) as [cmd0 w2| |];
      [|reflexivity..].
    cbn [SetUniformData runtime_stage_].
    change (bind_uniforms c
              {| runtime_stage_ := runtime_stage_ self;
                 uniform_data_ := data ++ extra;
                 texture_inputs_ := texture_inputs_ self |})
      with (bind_uniforms c (SetUniformData (data ++ extra) self)).
    change (bind_uniforms c
              {| runtime_stage_ := runtime_stage_ self;
                 uniform_data_ := data;
                 texture_inputs_ := texture_inputs_ self |})
      with (bind_uniforms c (SetUniformData data self)).
    rewrite bind_uniforms_extra_data by assumption.
    reflexivity. }
  now rewrite Hbody.
Qed.

End Inputs.

Lemma other_pipelines_stay_cached_witness :
  (pipeline_descriptor Example.stale_pipeline, Example.stale_pipeline)
  ∈ pipelines (final_world (Render Example.collaborators
                              (Example.contents []) Example.entity
                              (set_dirty false Example.reloaded))).
Proof.
  apply (other_pipelines_stay_cached Example.collaborators
           (Example.contents []) Example.entity
           (set_dirty false Example.reloaded)).
  - apply list_elem_of_here.
  - intros f _ Hdirty. discriminate Hdirty.
Defined.

Lemma pipeline_is_reused_witness :
  pipelines (final_world
               (Render Example.collaborators
                  (Example.contents Example.float_image_float_image)
                  Example.entity Example.rendered_once))
  = pipelines Example.rendered_once.
Proof.
  apply (pipeline_is_reused Example.collaborators
           (Example.contents Example.float_image_float_image) Example.entity
           Example.clean Example.submitted_command).
  vm_compute. repeat constructor.
Defined.

Lemma looked_up_descriptor_witness :
  desc_primitive_type (pipeline_descriptor Example.obtained_pipeline) = Some 1.
Proof.
  apply (looked_up_descriptor Example.collaborators
           (Example.contents Example.float_bool_float) Example.entity
           Example.clean (pipeline_descriptor Example.obtained_pipeline)).
  left. vm_compute. repeat constructor.
Defined.

Lemma extra_texture_inputs_are_ignored_witness :
  Render Example.collaborators
    (SetTextureInputs
       (texture_inputs_ (Example.contents Example.float_image_float_image)
        ++ [{| sampler_descriptor := 3; texture := 13 |}])
       (Example.contents Example.float_image_float_image))
    Example.entity Example.clean
  = Render Example.collaborators
      (SetTextureInputs
         (texture_inputs_ (Example.contents Example.float_image_float_image))
         (Example.contents Example.float_image_float_image))
      Example.entity Example.clean.
Proof.
  apply (extra_texture_inputs_are_ignored Example.collaborators
           (Example.contents Example.float_image_float_image) Example.entity).
  vm_compute. lia.
Defined.

Lemma extra_uniform_data_is_ignored_witness :
  Render Example.collaborators
    (SetUniformData
       (uniform_data_ (Example.contents Example.float_image_float_image)
        ++ [Byte.xff])
       (Example.contents Example.float_image_float_image))
    Example.entity Example.clean
  = Render Example.collaborators
      (SetUniformData
         (uniform_data_ (Example.contents Example.float_image_float_image))
         (Example.contents Example.float_image_float_image))
      Example.entity Example.clean.
Proof.
  apply (extra_uniform_data_is_ignored Example.collaborators
           (Example.contents Example.float_image_float_image) Example.entity).
  - by_evaluation.
  - vm_compute. reflexivity.
Defined.

(** * The dirty flag *)

(** X18.  [Render] never makes a stage dirty, and it leaves a dirty stage
    dirty only when the shader resolution failed: if the stage is dirty when
    the call ends, it was dirty before, the call returned false, and no
    function is registered for the entry point at the fragment stage. *)
Theorem dirty_after_Render c self entity w :
  let r := Render c self entity w in
  dirty (final_world r) = true →
  dirty w = true
  ∧ result r = Some false
  ∧ functions (final_world r)
    !! (GetEntrypoint (runtime_stage_ self), kFragment) = None.
Proof.
  cbn zeta. rewrite Render_after_shader, Render_result_after_shader.
  pose proof (shader_ends c self w) as Hends.
  destruct (get_or_register_shader c self w) as [[] w0|b w0|]; [| |easy].
  - destruct Hends as (_ & Hclean & _). rewrite draw_dirty. congruence.
  - destruct Hends as (-> & Hnone & Hdirty & _). cbn [step_world].
    rewrite Hdirty. auto.
Qed.

Lemma dirty_after_Render_witness :
  result (Render Example.failing (Example.contents []) Example.entity
            Example.reloaded) = Some false.
Proof.
  apply (dirty_after_Render Example.failing (Example.contents [])
           Example.entity Example.reloaded).
  reflexivity.
Defined.
